(** * PiFinder catalogs: a shallow embedding of [python/PiFinder/catalogs.py]

    The development follows the classes of the module one by one:
    [CatalogFilter], [CatalogBase]/[Catalog], [Catalogs],
    [CatalogDesignator] and [CatalogTracker].  Python exceptions are
    values of [Exc]; object lists that Python shares by reference live in
    an explicit store of lists. *)

From Stdlib Require Import ZArith QArith Lia Ascii.
From stdpp Require Import gmap strings list fin_maps sorting.

Local Open Scope string_scope.
Local Open Scope list_scope.
Local Open Scope Z_scope.

(** ** Python preliminaries *)

(** The exception classes that the module can raise. *)
Inductive PyExc : Type :=
  | TypeError
  | ValueError
  | KeyError
  | IndexError
  | AttributeError
  | AssertionError
  | StopIteration.

(** The outcome of evaluating a Python expression. *)
Inductive Exc (A : Type) : Type :=
  | Ok (a : A)
  | Raise (e : PyExc).
Arguments Ok {A} a.
Arguments Raise {A} e.

Definition exc_bind {A B : Type} (m : Exc A) (k : A -> Exc B) : Exc B :=
  match m with
  | Ok a => k a
  | Raise e => Raise e
  end.

Notation "'try!' x <- m ; k" := (exc_bind m (fun x => k))
  (at level 10, x name, m at level 100, k at level 200).

(** Statements that mutate an object [S]: the state after the statement
    is kept also when it raises, as Python does. *)
Definition ST (S A : Type) : Type := S -> Exc A * S.

Definition st_ret {S A : Type} (a : A) : ST S A := fun s => (Ok a, s).
Definition st_raise {S A : Type} (e : PyExc) : ST S A := fun s => (Raise e, s).
Definition st_get {S : Type} : ST S S := fun s => (Ok s, s).
Definition st_put {S : Type} (s' : S) : ST S unit := fun _ => (Ok tt, s').
Definition st_modify {S : Type} (f : S -> S) : ST S unit := fun s => (Ok tt, f s).
Definition st_lift {S A : Type} (m : Exc A) : ST S A := fun s => (m, s).

Definition st_bind {S A B : Type} (m : ST S A) (k : A -> ST S B) : ST S B :=
  fun s =>
    match m s with
    | (Ok a, s') => k a s'
    | (Raise e, s') => (Raise e, s')
    end.

Notation "'do!' x <- m ; k" := (st_bind m (fun x => k))
  (at level 10, x name, m at level 100, k at level 200).

(** [l[i]] on a Python list: negative indices count from the end, an
    index out of range raises [IndexError]. *)
Definition py_getitem {A : Type} (l : list A) (i : Z) : Exc A :=
  let n := Z.of_nat (length l) in
  let j := if i <? 0 then i + n else i in
  if (0 <=? j) && (j <? n)
  then match l !! Z.to_nat j with
       | Some x => Ok x
       | None => Raise IndexError
       end
  else Raise IndexError.

(** [d[k]] on a Python dict: a missing key raises [KeyError]. *)
Definition py_dict_get `{Countable K} {A : Type} (d : gmap K A) (k : K) : Exc A :=
  match d !! k with
  | Some v => Ok v
  | None => Raise KeyError
  end.

(** [l.index(x)] on a list of integers: the first position of [x]. *)
Fixpoint py_list_index (l : list Z) (x : Z) : Exc nat :=
  match l with
  | [] => Raise ValueError
  | y :: r => if decide (y = x) then Ok 0%nat
              else try! i <- py_list_index r x; Ok (S i)
  end.

(** *** Decimal text of integers: [str(n)], [int(s)], [s[1:]] *)

Definition digit_char (d : Z) : ascii := ascii_of_nat (48 + Z.to_nat d).

Definition show_digits (l : list Z) : string :=
  fold_right (fun d s => String (digit_char d) s) EmptyString l.

(** The decimal digits of a natural number, most significant first. *)
Fixpoint digits_fuel (fuel : nat) (n : Z) (acc : list Z) : list Z :=
  match fuel with
  | O => acc
  | S f => if n <? 10 then n :: acc
           else digits_fuel f (n / 10) (n mod 10 :: acc)
  end.

Definition digits_of (n : Z) : list Z :=
  digits_fuel (S (Z.to_nat (Z.log2 n))) n [].

(** [str(n)] for an [int]. *)
Definition py_str (n : Z) : string :=
  if n <? 0 then String "-" (show_digits (digits_of (- n)))
  else show_digits (digits_of n).

Definition digit_of_char (c : ascii) : option Z :=
  let n := Z.of_nat (nat_of_ascii c) in
  if (48 <=? n) && (n <=? 57) then Some (n - 48) else None.

Fixpoint parse_digits (s : string) (acc : Z) : option Z :=
  match s with
  | EmptyString => Some acc
  | String c r =>
      match digit_of_char c with
      | Some d => parse_digits r (10 * acc + d)
      | None => None
      end
  end.

Definition parse_nat_text (s : string) : Exc Z :=
  match s with
  | EmptyString => Raise ValueError
  | _ => match parse_digits s 0 with
         | Some v => Ok v
         | None => Raise ValueError
         end
  end.

(** [int(s)] on the texts the designator builds: an optional minus sign
    followed by at least one decimal digit; anything else raises
    [ValueError]. *)
Definition py_int (s : string) : Exc Z :=
  match s with
  | String "-" r => try! v <- parse_nat_text r; Ok (- v)
  | _ => parse_nat_text s
  end.

(** [s[1:]]. *)
Definition py_tail (s : string) : string :=
  match s with
  | EmptyString => EmptyString
  | String _ r => r
  end.

(** Right alignment of a format field, [f"{s:c>w}"]: the text is padded
    on the left with [fill] up to [w] characters and never truncated. *)
Fixpoint replicate_char (n : nat) (c : ascii) : string :=
  match n with
  | O => EmptyString
  | S k => String c (replicate_char k c)
  end.

Definition py_rjust (fill : ascii) (w : nat) (s : string) : string :=
  replicate_char (w - String.length s) fill +:+ s.

(** A dynamically typed attribute value, as far as the module inspects
    it: [None], a number, or a text. *)
Inductive PyVal : Type :=
  | PyNone
  | PyNum (q : Q)
  | PyText (s : string).

(** ** CatalogDesignator *)

Module CatalogDesignator.

Record t : Type := mk {
  catalog_name : string;
  object_number : Z;
  width : nat;
  field : string;
  catalog_index : option Z
}.

Definition get_catalog_name (self : t) : string := catalog_name self.
Definition get_catalog_width (self : t) : nat := width self.
Definition has_number (self : t) : bool := 0 <? object_number self.

Definition get_designator (self : t) : string :=
  let number_str := if has_number self then py_str (object_number self)
                    else EmptyString in
  py_rjust " " 3 (get_catalog_name self) +:+ " "
    +:+ py_rjust "-" (get_catalog_width self) number_str.

Definition refresh_field (self : t) : t :=
  mk (catalog_name self) (object_number self) (width self)
     (get_designator self) (catalog_index self).

Definition with_number (self : t) (n : Z) : t :=
  mk (catalog_name self) n (width self) (field self) (catalog_index self).

(** [CatalogDesignator(catalog_name, max_sequence)]. *)
Definition init (catalog_name : string) (max_sequence : Z) : t :=
  refresh_field (mk catalog_name 0 (String.length (py_str max_sequence))
                    EmptyString None).

Definition set_target (self : t) (catalog_index : Z) (number : Z) : Exc t :=
  if (String.length (py_str number) <=? get_catalog_width self)%nat
  then Ok (refresh_field
             (mk (CatalogDesignator.catalog_name self) number (width self)
                 (field self) (Some catalog_index)))
  else Raise AssertionError.

Definition append_number (self : t) (number : Z) : Exc t :=
  let number_str := py_str (object_number self) +:+ py_str number in
  let number_str :=
    if (get_catalog_width self <? String.length number_str)%nat
    then py_tail number_str else number_str in
  try! n <- py_int number_str;
  Ok (refresh_field (with_number self n)).

Definition set_number (self : t) (number : Z) : t :=
  refresh_field (with_number self number).

Definition reset_number (self : t) : t :=
  refresh_field (with_number self 0).

Definition increment_number (self : t) : t :=
  refresh_field (with_number self (object_number self + 1)).

Definition decrement_number (self : t) : t :=
  refresh_field (with_number self (object_number self - 1)).

(** A run of keypad entries: [append_number] for each digit in turn. *)
Fixpoint append_numbers (self : t) (ds : list Z) : Exc t :=
  match ds with
  | [] => Ok self
  | d :: r => try! self' <- append_number self d; append_numbers self' r
  end.

End CatalogDesignator.

(** ** CompositeObject and the shared state *)

Module CompositeObject.

(** Modelled from the spec: [composite_object.py] is not part of the
    sources at hand; the record has the fields that [catalogs.py] reads
    and that the data model of the specification lists. *)
Record t : Type := mk {
  object_id : Z;
  id : Z;
  sequence : Z;
  ra : Q;
  dec : Q;
  mag : PyVal;
  obj_type : string;
  catalog_code : string;
  logged : bool;
  names : list string
}.

End CompositeObject.

Module SharedState.

Record Location : Type := mkLocation { lat : Q; lon : Q }.

(** Modelled from the spec: the sky-position collaborator offers the
    current pointing solution, location and timestamp, each of which
    may be absent, and the user-interface state offers the pushed
    target. *)
Record t : Type := mk {
  solution : option (Q * Q);
  location : option Location;
  datetime : option Z;
  ui_target : CompositeObject.t
}.

End SharedState.

(** The store of Python lists of objects.  A list is named by its
    position in the store; two attributes holding the same position are
    aliases of one list. *)
Abbreviation Heap := (list (list CompositeObject.t)).

Definition heap_alloc (h : Heap) (l : list CompositeObject.t) : nat * Heap :=
  (length h, h ++ [l]).

Definition heap_read (h : Heap) (r : nat) : list CompositeObject.t :=
  default [] (h !! r).

Definition heap_write (h : Heap) (r : nat) (l : list CompositeObject.t) : Heap :=
  <[r := l]> h.

(** ** CatalogFilter *)

Module CatalogFilter.

(** [calc_utils.FastAltAz(lat, lon, dt)]. *)
Record FastAltAz : Type := mkFastAltAz {
  aa_lat : Q;
  aa_lon : Q;
  aa_dt : Z
}.

(** A numeric filter option: the text ["None"] that switches the check
    off, a number, or Python's [None], the default of the
    constructor. *)
Inductive Threshold : Type :=
  | ThSentinel
  | ThNum (q : Q)
  | ThUnset.

Record t : Type := mk {
  magnitude_filter : Threshold;
  type_filter : option (list string);
  altitude_filter : Threshold;
  observed_filter : option string;
  fast_aa : option FastAltAz
}.

(** [CatalogFilter()] with the defaults of its arguments; [fast_aa] is
    the class attribute, [None]. *)
Definition init : t := mk ThUnset None ThUnset None None.

Definition set_values (magnitude_filter : Threshold)
    (type_filter : option (list string)) (altitude_filter : Threshold)
    (observed_filter : option string) (self : t) : t :=
  mk magnitude_filter type_filter altitude_filter observed_filter
     (fast_aa self).

Definition set_fast_aa (self : t) (aa : option FastAltAz) : t :=
  mk (magnitude_filter self) (type_filter self) (altitude_filter self)
     (observed_filter self) aa.

(** [calc_fast_aa] stores the transform in [self.fast_aa] and has no
    [return] statement: its value is [None]. *)
Definition calc_fast_aa (shared_state : SharedState.t)
    : ST t (option FastAltAz) :=
  fun self =>
    match SharedState.location shared_state,
          SharedState.datetime shared_state,
          SharedState.solution shared_state with
    | Some location, Some dt, Some _ =>
        (Ok None,
         set_fast_aa self
           (Some (mkFastAltAz (SharedState.lat location)
                              (SharedState.lon location) dt)))
    | _, _, _ => (Ok None, self)
    end.

(** [x != "None"]. *)
Definition enabled (x : Threshold) : bool :=
  match x with
  | ThSentinel => false
  | _ => true
  end.

(** [a < x] and [a >= x] for a number [a] and a filter option [x]:
    ordering a number against a text or against [None] raises
    [TypeError]. *)
Definition num_lt (a : Q) (x : Threshold) : Exc bool :=
  match x with
  | ThNum q => Ok (negb (Qle_bool q a))
  | _ => Raise TypeError
  end.

Definition num_ge (a : Q) (x : Threshold) : Exc bool :=
  match x with
  | ThNum q => Ok (Qle_bool q a)
  | _ => Raise TypeError
  end.

Section Collaborators.

(** [float(text)], Python's parser of numeric texts. *)
Variable parse_float : string -> option Q.

(** [FastAltAz.radec_to_altaz(ra, dec, alt_only=True)]. *)
Variable radec_to_altaz : FastAltAz -> Q -> Q -> Q.

(** [float(v)]. *)
Definition py_float (v : PyVal) : Exc Q :=
  match v with
  | PyNone => Raise TypeError
  | PyNum q => Ok q
  | PyText s => match parse_float s with
                | Some q => Ok q
                | None => Raise ValueError
                end
  end.

(** The [try: float(obj.mag) except (ValueError, TypeError): 99]
    block. *)
Definition coerce_mag (v : PyVal) : Exc Q :=
  match py_float v with
  | Ok q => Ok q
  | Raise ValueError => Ok (99 # 1)%Q
  | Raise TypeError => Ok (99 # 1)%Q
  | Raise e => Raise e
  end.

(** The altitude check: [Ok true] when the object is rejected. *)
Definition altitude_rejects (self : t) (obj : CompositeObject.t) : Exc bool :=
  if enabled (altitude_filter self) then
    match fast_aa self with
    | Some aa =>
        let obj_altitude :=
          radec_to_altaz aa (CompositeObject.ra obj) (CompositeObject.dec obj) in
        num_lt obj_altitude (altitude_filter self)
    | None => Ok false
    end
  else Ok false.

(** The magnitude check. *)
Definition magnitude_rejects (self : t) (obj : CompositeObject.t) : Exc bool :=
  try! obj_mag <- coerce_mag (CompositeObject.mag obj);
  if enabled (magnitude_filter self)
  then num_ge obj_mag (magnitude_filter self)
  else Ok false.

(** The type check: [x not in None] raises [TypeError]. *)
Definition type_rejects (self : t) (obj : CompositeObject.t) : Exc bool :=
  match type_filter self with
  | Some tf =>
      if decide (tf = ["None"]) then Ok false
      else Ok (bool_decide (CompositeObject.obj_type obj ∉ tf))
  | None => Raise TypeError
  end.

Definition apply_filter (self : t) (obj : CompositeObject.t) : Exc bool :=
  try! low <- altitude_rejects self obj;
  if low then Ok false else
  try! faint <- magnitude_rejects self obj;
  if faint then Ok false else
  try! wrong_type <- type_rejects self obj;
  if wrong_type then Ok false else
  if negb (bool_decide (observed_filter self = Some "Any"))
  then Ok (eqb (bool_decide (observed_filter self = Some "Yes"))
               (CompositeObject.logged obj))
  else Ok true.

(** [[obj for obj in objects if self.apply_filter(obj)]]. *)
Fixpoint select (self : t) (objects : list CompositeObject.t)
    : Exc (list CompositeObject.t) :=
  match objects with
  | [] => Ok []
  | obj :: rest =>
      try! keep <- apply_filter self obj;
      try! kept <- select self rest;
      Ok (if keep then obj :: kept else kept)
  end.

Definition apply (shared_state : SharedState.t)
    (objects : list CompositeObject.t)
    : ST t (list CompositeObject.t) :=
  do! r <- calc_fast_aa shared_state;
  do! _ <- st_modify (fun self => set_fast_aa self r);
  do! self <- st_get;
  st_lift (select self objects).

End Collaborators.

End CatalogFilter.

(** ** CatalogBase *)

Definition catalog_base_id_sort (obj : CompositeObject.t) : Z :=
  CompositeObject.id obj.

Definition catalog_base_sequence_sort (obj : CompositeObject.t) : Z :=
  CompositeObject.sequence obj.

(** [list.sort(key=...)] is a stable sort: objects with equal keys keep
    their order.  Insertion from the right, placing an object before the
    first object whose key is not smaller, computes that list. *)
Fixpoint insert_by (key : CompositeObject.t -> Z) (x : CompositeObject.t)
    (l : list CompositeObject.t) : list CompositeObject.t :=
  match l with
  | [] => [x]
  | y :: r => if key x <=? key y then x :: y :: r
              else y :: insert_by key x r
  end.

Definition sort_by (key : CompositeObject.t -> Z)
    (l : list CompositeObject.t) : list CompositeObject.t :=
  fold_right (insert_by key) [] l.

(** [{key(obj): i for i, obj in enumerate(objects)}], counting from
    [i]: a later object with the same key overwrites the entry. *)
Fixpoint index_from (key : CompositeObject.t -> Z) (i : nat)
    (l : list CompositeObject.t) (m : gmap Z nat) : gmap Z nat :=
  match l with
  | [] => m
  | obj :: r => index_from key (S i) r (<[key obj := i]> m)
  end.

Definition index_by (key : CompositeObject.t -> Z)
    (l : list CompositeObject.t) : gmap Z nat :=
  index_from key 0%nat l ∅.

Module CatalogBase.

(** [objects] names the list in the store; the two indices are only
    annotated by the constructor and are unset ([None]) until the first
    rebuild. *)
Record t : Type := mk {
  catalog_code : string;
  max_sequence : Z;
  desc : string;
  sort : CompositeObject.t -> Z;
  objects : nat;
  id_to_pos : option (gmap Z nat);
  sequence_to_pos : option (gmap Z nat)
}.

Definition set_id_to_pos (self : t) (m : gmap Z nat) : t :=
  mk (catalog_code self) (max_sequence self) (desc self) (sort self)
     (objects self) (Some m) (sequence_to_pos self).

Definition set_sequence_to_pos (self : t) (m : gmap Z nat) : t :=
  mk (catalog_code self) (max_sequence self) (desc self) (sort self)
     (objects self) (id_to_pos self) (Some m).

(** [CatalogBase(catalog_code, max_sequence, desc, sort)] creates the
    empty object list. *)
Definition init (catalog_code : string) (max_sequence : Z) (desc : string)
    (sort : CompositeObject.t -> Z) : ST Heap t :=
  fun h =>
    let '(r, h') := heap_alloc h [] in
    (Ok (mk catalog_code max_sequence desc sort r None None), h').

(** The list the catalog holds. *)
Definition contents (self : t) (h : Heap) : list CompositeObject.t :=
  heap_read h (objects self).

Definition _add_object (obj : CompositeObject.t) : ST (t * Heap) unit :=
  st_modify (fun '(self, h) =>
    (self, heap_write h (objects self) (contents self h ++ [obj]))).

Definition _sort_objects : ST (t * Heap) unit :=
  st_modify (fun '(self, h) =>
    (self, heap_write h (objects self) (sort_by (sort self) (contents self h)))).

Definition _update_id_to_pos : ST (t * Heap) unit :=
  st_modify (fun '(self, h) =>
    (set_id_to_pos self (index_by CompositeObject.id (contents self h)), h)).

Definition _update_sequence_to_pos : ST (t * Heap) unit :=
  st_modify (fun '(self, h) =>
    (set_sequence_to_pos self
       (index_by CompositeObject.sequence (contents self h)), h)).

Definition add_object (obj : CompositeObject.t) : ST (t * Heap) unit :=
  do! _ <- _add_object obj;
  do! _ <- _sort_objects;
  do! _ <- _update_id_to_pos;
  _update_sequence_to_pos.

Fixpoint _add_each (objects : list CompositeObject.t) : ST (t * Heap) unit :=
  match objects with
  | [] => st_ret tt
  | obj :: rest => do! _ <- _add_object obj; _add_each rest
  end.

Definition add_objects (objects : list CompositeObject.t)
    : ST (t * Heap) unit :=
  do! _ <- _add_each objects;
  do! _ <- _sort_objects;
  do! _ <- _update_id_to_pos;
  _update_sequence_to_pos.

(** [self.objects[self.id_to_pos[id]]]. *)
Definition get_object_by_id (self : t) (h : Heap) (id : Z)
    : Exc CompositeObject.t :=
  match id_to_pos self with
  | None => Raise AttributeError
  | Some m => try! pos <- py_dict_get m id;
              py_getitem (contents self h) (Z.of_nat pos)
  end.

Definition get_object_by_sequence (self : t) (h : Heap) (sequence : Z)
    : Exc CompositeObject.t :=
  match sequence_to_pos self with
  | None => Raise AttributeError
  | Some m => try! pos <- py_dict_get m sequence;
              py_getitem (contents self h) (Z.of_nat pos)
  end.

(** [get_objects] returns the list itself, not a copy. *)
Definition get_objects (self : t) : nat := objects self.

Definition get_count (self : t) (h : Heap) : nat :=
  length (contents self h).

End CatalogBase.

(** ** Catalog *)

Module Catalog.

Record t : Type := mk {
  base : CatalogBase.t;
  catalog_filter : CatalogFilter.t;
  filtered_objects : nat;
  last_filtered : Q
}.

Definition catalog_code (self : t) : string :=
  CatalogBase.catalog_code (base self).
Definition max_sequence (self : t) : Z :=
  CatalogBase.max_sequence (base self).

(** [Catalog(catalog_code, max_sequence, desc)]: [filtered_objects] is
    bound to the list that [get_objects] returns. *)
Definition init (catalog_code : string) (max_sequence : Z) (desc : string)
    : ST Heap t :=
  do! b <- CatalogBase.init catalog_code max_sequence desc
             catalog_base_sequence_sort;
  st_ret (mk b CatalogFilter.init (CatalogBase.get_objects b) 0%Q).

(** A method of [CatalogBase] called on a [Catalog]. *)
Definition inherited {A : Type} (m : ST (CatalogBase.t * Heap) A)
    : ST (t * Heap) A :=
  fun '(self, h) =>
    let '(r, (b, h')) := m (base self, h) in
    (r, (mk b (catalog_filter self) (filtered_objects self)
            (last_filtered self), h')).

Definition add_object (obj : CompositeObject.t) : ST (t * Heap) unit :=
  inherited (CatalogBase.add_object obj).

Definition add_objects (objects : list CompositeObject.t)
    : ST (t * Heap) unit :=
  inherited (CatalogBase.add_objects objects).

Definition get_objects (self : t) : nat := CatalogBase.get_objects (base self).

Definition get_object_by_id (self : t) (h : Heap) (id : Z)
    : Exc CompositeObject.t :=
  CatalogBase.get_object_by_id (base self) h id.

Definition get_object_by_sequence (self : t) (h : Heap) (sequence : Z)
    : Exc CompositeObject.t :=
  CatalogBase.get_object_by_sequence (base self) h sequence.

(** The list currently named by [filtered_objects]. *)
Definition filtered (self : t) (h : Heap) : list CompositeObject.t :=
  heap_read h (filtered_objects self).

Definition get_filtered_count (self : t) (h : Heap) : nat :=
  length (filtered self h).

Section Collaborators.

Variable parse_float : string -> option Q.
Variable radec_to_altaz : CatalogFilter.FastAltAz -> Q -> Q -> Q.

(** [filter_objects(shared_state)]; [now] is the reading of
    [time.time()].  The filter builds a new list, which is stored
    apart from the object list. *)
Definition filter_objects (shared_state : SharedState.t) (now : Q)
    : ST (t * Heap) nat :=
  fun '(self, h) =>
    let '(r, f) :=
      CatalogFilter.apply parse_float radec_to_altaz shared_state
        (heap_read h (get_objects self)) (catalog_filter self) in
    match r with
    | Ok l =>
        let '(ref, h') := heap_alloc h l in
        (Ok ref, (mk (base self) f ref now, h'))
    | Raise e =>
        (Raise e,
         (mk (base self) f (filtered_objects self) (last_filtered self), h))
    end.

End Collaborators.

End Catalog.

(** ** Catalogs *)

(** A Python [dict] keyed by catalog code, in insertion order: assigning
    to a key that is present replaces the value in place, a new key goes
    to the end. *)
Fixpoint dict_set {V : Type} (d : list (string * V)) (k : string) (v : V)
    : list (string * V) :=
  match d with
  | [] => [(k, v)]
  | (k', v') :: r => if decide (k' = k) then (k, v) :: r
                     else (k', v') :: dict_set r k v
  end.

Fixpoint dict_lookup {V : Type} (d : list (string * V)) (k : string)
    : option V :=
  match d with
  | [] => None
  | (k', v') :: r => if decide (k' = k) then Some v' else dict_lookup r k
  end.

Definition dict_keys {V : Type} (d : list (string * V)) : list string :=
  d.*1.

Definition dict_getitem {V : Type} (d : list (string * V)) (k : string)
    : Exc V :=
  match dict_lookup d k with
  | Some v => Ok v
  | None => Raise KeyError
  end.

Module Catalogs.

Record t : Type := mk {
  catalogs : list Catalog.t;
  catalog_dict : list (string * Catalog.t)
}.

(** [Catalogs(catalogs)]: [catalog_dict] is the class attribute, the
    empty dict. *)
Definition init (catalogs : list Catalog.t) : t := mk catalogs [].

Definition set (catalogs : list Catalog.t) (self : t) : t := mk catalogs [].

(** [{catalog.catalog_code: catalog for catalog in catalogs}]. *)
Definition build_dict (catalogs : list Catalog.t)
    : list (string * Catalog.t) :=
  fold_left (fun d catalog => dict_set d (Catalog.catalog_code catalog) catalog)
            catalogs [].

Definition get_dict : ST t (list (string * Catalog.t)) :=
  fun self =>
    match catalog_dict self with
    | [] => let d := build_dict (catalogs self) in
            (Ok d, mk (catalogs self) d)
    | d => (Ok d, self)
    end.

Definition add (catalog : Catalog.t) : ST t unit :=
  do! cd <- get_dict;
  if bool_decide (Catalog.catalog_code catalog ∈ dict_keys cd)
  then st_ret tt
  else st_modify (fun self => mk (catalogs self ++ [catalog]) []).

Definition get_names : ST t (list string) :=
  do! d <- get_dict;
  st_ret (dict_keys d).

(** The class defines no attribute [get]: evaluating
    [self.catalogs.get] raises [AttributeError]. *)
Definition get (self : t) (key : string) : Exc Catalog.t :=
  Raise AttributeError.

End Catalogs.

(** ** CatalogBuilder *)

Module CatalogBuilder.

(** One entry of [catalogs_info], a dict keyed by catalog code:
    [_get_catalogs] reads its items "max_sequence" and "desc".  The
    dict is held as the list of its items in insertion order. *)
Record CatalogInfo : Type := mkInfo {
  info_max_sequence : Z;
  info_desc : string
}.

(** [composite_dict.setdefault(obj.catalog_code, []).append(obj)]. *)
Definition _group_step (composite_dict : gmap string (list CompositeObject.t))
    (obj : CompositeObject.t) : gmap string (list CompositeObject.t) :=
  <[CompositeObject.catalog_code obj :=
      default [] (composite_dict !! CompositeObject.catalog_code obj) ++ [obj]]>
    composite_dict.

Definition _group (composite_objects : list CompositeObject.t)
    : gmap string (list CompositeObject.t) :=
  fold_left _group_step composite_objects ∅.

(** The loop of [_get_catalogs] over the metadata, a dict given by its
    items in order: a catalog is constructed, filled with its group
    ([composite_dict.get(catalog_code, [])]) and appended. *)
Fixpoint _build_catalogs (catalogs_info : list (string * CatalogInfo))
    (composite_dict : gmap string (list CompositeObject.t))
    : ST Heap (list Catalog.t) :=
  match catalogs_info with
  | [] => st_ret []
  | (catalog_code, catalog_info) :: rest =>
      do! catalog <- Catalog.init catalog_code
                       (info_max_sequence catalog_info)
                       (info_desc catalog_info);
      do! catalog <-
        (fun h =>
           let '(r, (c, h')) :=
             Catalog.add_objects
               (default [] (composite_dict !! catalog_code)) (catalog, h) in
           (try! _ <- r; Ok c, h'));
      do! catalog_list <- _build_catalogs rest composite_dict;
      st_ret (catalog :: catalog_list)
  end.

Definition _get_catalogs (composite_objects : list CompositeObject.t)
    (catalogs_info : list (string * CatalogInfo)) : ST Heap Catalogs.t :=
  do! catalog_list <- _build_catalogs catalogs_info (_group composite_objects);
  st_ret (Catalogs.init catalog_list).

End CatalogBuilder.

(** ** CatalogTracker *)

(** A positional argument of a call. *)
Inductive PyArg : Type :=
  | ArgText (s : string)
  | ArgInt (n : Z)
  | ArgDict (d : list (Z * CompositeObject.t)).

(** Binding of positional arguments: a call with a number of arguments
    other than the number of parameters raises [TypeError]. *)
Definition check_positional (params : nat) (args : list PyArg) : Exc unit :=
  if (length args =? params)%nat then Ok tt else Raise TypeError.

(** [l.values()] on a list: lists have no attribute [values]. *)
Definition py_list_values {A : Type} (l : list A) : Exc (list A) :=
  Raise AttributeError.

(** [next(i for i, x in enumerate(l) if p x)]. *)
Fixpoint py_next_index {A : Type} (p : A -> bool) (l : list A) : Exc nat :=
  match l with
  | [] => Raise StopIteration
  | x :: r => if p x then Ok 0%nat
              else try! i <- py_next_index p r; Ok (S i)
  end.

Fixpoint exc_map {A B : Type} (f : A -> Exc B) (l : list A) : Exc (list B) :=
  match l with
  | [] => Ok []
  | x :: r => try! y <- f x; try! ys <- exc_map f r; Ok (y :: ys)
  end.

(** [l.index(x)]: the first position of [x]; [ValueError] when [x] is not
    in the list. *)
Fixpoint py_index_of {A : Type} `{EqDecision A} (l : list A) (x : A)
    : Exc nat :=
  match l with
  | [] => Raise ValueError
  | y :: r => if decide (y = x) then Ok 0%nat
              else try! i <- py_index_of r x; Ok (S i)
  end.

Module CatalogTracker.

Record ConfigOptions : Type := mkConfig {
  cfg_magnitude : CatalogFilter.Threshold;
  cfg_obj_types : option (list string);
  cfg_alt_limit : CatalogFilter.Threshold;
  cfg_observed : option string
}.

(** The tracker after [__init__], together with the store of the
    object lists of its catalogs. *)
Record t : Type := mk {
  shared_state : SharedState.t;
  config_options : ConfigOptions;
  catalogs : Catalogs.t;
  designator_tracker : gmap string CatalogDesignator.t;
  object_tracker : gmap string (option Z);
  current_catalog : Catalog.t;
  current_catalog_name : string;
  heap : Heap
}.

Definition with_catalogs (self : t) (c : Catalogs.t) : t :=
  mk (shared_state self) (config_options self) c (designator_tracker self)
     (object_tracker self) (current_catalog self)
     (current_catalog_name self) (heap self).

Definition with_designators (self : t)
    (d : gmap string CatalogDesignator.t) : t :=
  mk (shared_state self) (config_options self) (catalogs self) d
     (object_tracker self) (current_catalog self)
     (current_catalog_name self) (heap self).

Definition with_objects (self : t) (o : gmap string (option Z)) : t :=
  mk (shared_state self) (config_options self) (catalogs self)
     (designator_tracker self) o (current_catalog self)
     (current_catalog_name self) (heap self).

Definition with_current (self : t) (c : Catalog.t) (name : string) : t :=
  mk (shared_state self) (config_options self) (catalogs self)
     (designator_tracker self) (object_tracker self) c name (heap self).

Definition with_heap (self : t) (h : Heap) : t :=
  mk (shared_state self) (config_options self) (catalogs self)
     (designator_tracker self) (object_tracker self) (current_catalog self)
     (current_catalog_name self) h.

(** A method of the registry called on [self.catalogs]. *)
Definition on_catalogs {A : Type} (m : ST Catalogs.t A) : ST t A :=
  fun self =>
    let '(r, c) := m (catalogs self) in (r, with_catalogs self c).

(** An allocation in the store. *)
Definition on_heap {A : Type} (m : ST Heap A) : ST t A :=
  fun self =>
    let '(r, h) := m (heap self) in (r, with_heap self h).

Definition names : ST t (list string) := on_catalogs Catalogs.get_names.

Definition dict : ST t (list (string * Catalog.t)) :=
  on_catalogs Catalogs.get_dict.

(** [get_designator(catalog_name=None)]: the empty text counts as
    absent in [catalog_name or self.current_catalog_name]. *)
Definition get_designator (catalog_name : option string)
    : ST t CatalogDesignator.t :=
  fun self =>
    let catalog_name :=
      match catalog_name with
      | Some EmptyString | None => current_catalog_name self
      | Some n => n
      end in
    (py_dict_get (designator_tracker self) catalog_name, self).

(** [self.designator_tracker[name].set_number(number)]: the designator
    is updated in place. *)
Definition designator_set_number (name : string) (number : Z) : ST t unit :=
  fun self =>
    match designator_tracker self !! name with
    | Some d =>
        (Ok tt,
         with_designators self
           (<[name := CatalogDesignator.set_number d number]>
              (designator_tracker self)))
    | None => (Raise KeyError, self)
    end.

Definition get_current_object : ST t (option CompositeObject.t) :=
  fun self =>
    match py_dict_get (object_tracker self) (current_catalog_name self) with
    | Raise e => (Raise e, self)
    | Ok None => (Ok None, self)
    | Ok (Some object_key) =>
        (try! obj <- Catalog.get_object_by_sequence (current_catalog self)
                       (heap self) object_key;
         Ok (Some obj), self)
    end.

(** [Catalog.__init__] takes three positional arguments besides
    [self]; the call below passes four. *)
Definition add_foreign_catalog (catalog_name : string) : ST t unit :=
  do! ui_target <- (fun self => (Ok (SharedState.ui_target (shared_state self)), self));
  do! _ <- names;
  do! _ <- get_current_object;
  do! _ <- get_designator None;
  do! _ <- st_lift (check_positional 3
                      [ArgText "PUSH"; ArgInt 1; ArgText "Skysafari push";
                       ArgDict [(1, ui_target)]]);
  do! catalog <- on_heap (Catalog.init "PUSH" 1 "Skysafari push");
  do! _ <- on_catalogs (Catalogs.add catalog);
  do! _ <- st_modify (fun self =>
             with_designators self
               (<[catalog_name := CatalogDesignator.init catalog_name 1]>
                  (designator_tracker self)));
  st_modify (fun self =>
    with_objects self (<[catalog_name := None]> (object_tracker self))).

Definition set_current_catalog (catalog_name : string) : ST t unit :=
  do! d <- dict;
  do! _ <- (if bool_decide (catalog_name ∈ dict_keys d) then st_ret tt
            else add_foreign_catalog catalog_name);
  do! d <- dict;
  do! _ <- (if bool_decide (catalog_name ∈ dict_keys d) then st_ret tt
            else st_raise AssertionError);
  do! d <- dict;
  do! c <- st_lift (dict_getitem d catalog_name);
  st_modify (fun self => with_current self c catalog_name).

(** [set_current_object(object_number, catalog_name=None)]. *)
Definition set_current_object (object_number : option Z)
    (catalog_name : option string) : ST t unit :=
  fun self =>
    let store (catalog_name : string) : ST t unit :=
      do! _ <- st_modify (fun self =>
                 with_objects self
                   (<[catalog_name := object_number]> (object_tracker self)));
      designator_set_number catalog_name
        (match object_number with
         | Some n => if n =? 0 then 0 else n
         | None => 0
         end) in
    match catalog_name with
    | Some name =>
        match set_current_catalog name self with
        | (Ok _, self') => store name self'
        | (Raise AssertionError, self') =>
            designator_set_number (current_catalog_name self') 0 self'
        | (Raise e, self') => (Raise e, self')
        end
    | None => store (current_catalog_name self) self
    end.

Definition next_object (direction : Z) (filtered : bool)
    : ST t (option CompositeObject.t) :=
  do! self <- st_get;
  let objects :=
    if filtered
    then Catalog.filtered (current_catalog self) (heap self)
    else heap_read (heap self) (Catalog.get_objects (current_catalog self)) in
  let object_ids := map CompositeObject.sequence objects in
  do! current_key <- st_lift (py_dict_get (object_tracker self)
                                (current_catalog_name self));
  do! _ <- get_designator None;
  let name := current_catalog_name self in
  let first_or_last :=
    let next_index :=
      if direction =? 1 then 0 else Z.of_nat (length object_ids) - 1 in
    do! next_key <- st_lift (py_getitem object_ids next_index);
    do! _ <- designator_set_number name next_key;
    st_ret (Some next_key) in
  do! next_key <-
    match current_key with
    | None => first_or_last
    | Some current_key =>
        if bool_decide (current_key ∈ object_ids) then
          do! current_index <- st_lift (py_list_index object_ids current_key);
          let next_index := Z.of_nat current_index + direction in
          if (next_index =? -1) || (Z.of_nat (length object_ids) <=? next_index)
          then
            do! _ <- designator_set_number name 0;
            st_ret None
          else
            do! next_key <-
              st_lift (py_getitem object_ids
                         (next_index mod Z.of_nat (length object_ids)));
            do! _ <- designator_set_number name next_key;
            st_ret (Some next_key)
        else first_or_last
    end;
  do! _ <- set_current_object next_key None;
  get_current_object.

Definition previous_object : ST t (option CompositeObject.t) :=
  next_object (-1) true.

Definition _select_catalogs (catalogs : option (list string))
    : ST t (list Catalog.t) :=
  fun self =>
    match catalogs with
    | None => (Ok [current_catalog self], self)
    | Some keys =>
        (exc_map (Catalogs.get (CatalogTracker.catalogs self)) keys, self)
    end.

(** The precedence test of [_deduplicate]: does [obj] replace
    [existing_obj]? *)
Definition takes_precedence (obj existing_obj : CompositeObject.t) : bool :=
  (bool_decide (CompositeObject.catalog_code obj = "M")
     && negb (bool_decide (CompositeObject.catalog_code existing_obj = "M")))
  || (bool_decide (CompositeObject.catalog_code obj = "NGC")
        && negb (bool_decide
                   (CompositeObject.catalog_code existing_obj ∈ ["M"; "NGC"]))).

(** One turn of the loop of [_deduplicate]. *)
Definition _deduplicate_step
    (acc : list CompositeObject.t * gset Z) (obj : CompositeObject.t)
    : Exc (list CompositeObject.t * gset Z) :=
  let '(deduplicated_results, seen_ids) := acc in
  if bool_decide (CompositeObject.object_id obj ∈ seen_ids) then
    try! existing_obj_index <-
      py_next_index
        (fun existing_obj =>
           bool_decide (CompositeObject.object_id existing_obj
                        = CompositeObject.object_id obj))
        deduplicated_results;
    try! existing_obj <-
      py_getitem deduplicated_results (Z.of_nat existing_obj_index);
    if takes_precedence obj existing_obj
    then Ok (<[existing_obj_index := obj]> deduplicated_results, seen_ids)
    else Ok (deduplicated_results, seen_ids)
  else
    Ok (deduplicated_results ++ [obj],
        {[CompositeObject.object_id obj]} ∪ seen_ids).

Fixpoint _deduplicate_loop (unfiltered_results : list CompositeObject.t)
    (acc : list CompositeObject.t * gset Z)
    : Exc (list CompositeObject.t * gset Z) :=
  match unfiltered_results with
  | [] => Ok acc
  | obj :: rest =>
      try! acc' <- _deduplicate_step acc obj;
      _deduplicate_loop rest acc'
  end.

Definition _deduplicate (unfiltered_results : list CompositeObject.t)
    : Exc (list CompositeObject.t) :=
  try! acc <- _deduplicate_loop unfiltered_results ([], ∅);
  Ok acc.1.

Section SpatialIndex.

(** [np.deg2rad]. *)
Variable deg2rad : Q -> Q.

(** [BallTree(points, leaf_size=4, metric="haversine").query(query, k=n)]:
    the positions of the [n] nearest points. *)
Variable ball_tree_query : list (Q * Q) -> Q * Q -> Z -> Exc (list Z).

Definition get_closest_objects (ra dec : Q) (n : Z)
    (catalogs : option (list string))
    : ST t (list CompositeObject.t) :=
  do! catalog_list <- _select_catalogs catalogs;
  do! self <- st_get;
  do! per_catalog <-
    st_lift (exc_map (fun catalog =>
                        py_list_values (Catalog.filtered catalog (heap self)))
                     catalog_list);
  let catalog_list_flat := concat per_catalog in
  let n := if Z.of_nat (length catalog_list_flat) <? n
           then Z.of_nat (length catalog_list_flat) else n in
  let object_radecs :=
    map (fun x => (deg2rad (CompositeObject.ra x),
                   deg2rad (CompositeObject.dec x))) catalog_list_flat in
  do! obj_ind <- st_lift (ball_tree_query object_radecs
                            (deg2rad ra, deg2rad dec) n);
  do! results <- st_lift (exc_map (py_getitem catalog_list_flat) obj_ind);
  st_lift (_deduplicate results).

End SpatialIndex.

(** The dict comprehension of the designators in [__init__]:
    [{c: CatalogDesignator(c, self.dict()[c].max_sequence) for c in names}]. *)
Fixpoint _init_designators (names : list string)
    (acc : gmap string CatalogDesignator.t)
    : ST Catalogs.t (gmap string CatalogDesignator.t) :=
  match names with
  | [] => st_ret acc
  | c :: rest =>
      do! d <- Catalogs.get_dict;
      do! catalog <- st_lift (dict_getitem d c);
      _init_designators rest
        (<[c := CatalogDesignator.init c (Catalog.max_sequence catalog)]> acc)
  end.

(** [{c: None for c in names}]. *)
Definition _init_objects (names : list string) : gmap string (option Z) :=
  fold_left (fun m c => <[c := None]> m) names ∅.

(** [CatalogTracker(catalogs, shared_state, config_options)] over the
    store [h].  [set_current_catalog] runs here on the object under
    construction, so its steps are spelled out: should the first name not
    be a key of the dict, [add_foreign_catalog] reads
    [self.current_catalog_name], which is not set yet, and raises
    [AttributeError]. *)
Definition init (catalogs : Catalogs.t) (shared_state : SharedState.t)
    (config_options : ConfigOptions) (h : Heap) : Exc t :=
  (st_bind Catalogs.get_names (fun ns =>
   st_bind (_init_designators ns ∅) (fun designator_tracker =>
   st_bind Catalogs.get_names (fun ns0 =>
   st_bind (st_lift (py_getitem ns0 0)) (fun first =>
   st_bind Catalogs.get_dict (fun d =>
   st_bind (if bool_decide (first ∈ dict_keys d) then st_ret tt
            else st_raise AttributeError) (fun _ =>
   st_bind Catalogs.get_dict (fun d =>
   st_bind (if bool_decide (first ∈ dict_keys d) then st_ret tt
            else st_raise AssertionError) (fun _ =>
   st_bind Catalogs.get_dict (fun d =>
   st_bind (st_lift (dict_getitem d first)) (fun current =>
   st_bind Catalogs.get_names (fun ns1 =>
   st_bind st_get (fun registry =>
   st_ret (mk shared_state config_options registry designator_tracker
             (_init_objects ns1) current first h)))))))))))))
    catalogs).1.

(** [next_catalog(direction=1)].  The modulus is the length of the list
    in which [index] has just found the current name. *)
Definition next_catalog (direction : Z) : ST t unit :=
  do! ns <- names;
  do! self <- st_get;
  do! current_index <- st_lift (py_index_of ns (current_catalog_name self));
  do! ns' <- names;
  let next_index :=
    (Z.of_nat current_index + direction) mod Z.of_nat (length ns') in
  do! ns'' <- names;
  do! name <- st_lift (py_getitem ns'' next_index);
  set_current_catalog name.

Definition previous_catalog : ST t unit := next_catalog (-1).

End CatalogTracker.

(** * Vocabulary of the properties *)

(** ** Decimal text *)

Definition is_digit (d : Z) : Prop := 0 <= d <= 9.

(** The number a list of decimal digits denotes, continuing from [acc]. *)
Definition digits_value (acc : Z) (l : list Z) : Z :=
  fold_left (fun a d => 10 * a + d) l acc.

(** [k] is the number of decimal digits of the natural number [m]. *)
Definition decimal_digit_count (m : Z) (k : nat) : Prop :=
  (m = 0 /\ k = 1%nat) \/ (0 < m /\ 10 ^ (Z.of_nat k - 1) <= m < 10 ^ Z.of_nat k).

(** ** Filters *)

(** The magnitude cannot be coerced to a number: [float] raises
    [TypeError] or [ValueError]. *)
Definition uncoercible (parse_float : string -> option Q) (v : PyVal) : Prop :=
  CatalogFilter.py_float parse_float v = Raise TypeError
  \/ CatalogFilter.py_float parse_float v = Raise ValueError.

(** The filter options hold values or the texts that switch a check off,
    not the [None] defaults of the constructor. *)
Definition configured (f : CatalogFilter.t) : Prop :=
  CatalogFilter.altitude_filter f <> CatalogFilter.ThUnset
  /\ CatalogFilter.magnitude_filter f <> CatalogFilter.ThUnset
  /\ CatalogFilter.type_filter f <> None.

(** The altitude comparison can be evaluated. *)
Definition altitude_comparable (f : CatalogFilter.t) : Prop :=
  CatalogFilter.altitude_filter f <> CatalogFilter.ThUnset
  \/ CatalogFilter.fast_aa f = None.

Definition with_mag (obj : CompositeObject.t) (v : PyVal) : CompositeObject.t :=
  CompositeObject.mk (CompositeObject.object_id obj) (CompositeObject.id obj)
    (CompositeObject.sequence obj) (CompositeObject.ra obj)
    (CompositeObject.dec obj) v (CompositeObject.obj_type obj)
    (CompositeObject.catalog_code obj) (CompositeObject.logged obj)
    (CompositeObject.names obj).

(** ** Catalogs and their indices *)

Definition key_le (key : CompositeObject.t -> Z) (a b : CompositeObject.t) : Prop :=
  key a <= key b.

(** The catalog after a rebuild of both indices over the list [l]. *)
Definition reindexed (c : CatalogBase.t) (l : list CompositeObject.t)
    : CatalogBase.t :=
  CatalogBase.mk (CatalogBase.catalog_code c) (CatalogBase.max_sequence c)
    (CatalogBase.desc c) (CatalogBase.sort c) (CatalogBase.objects c)
    (Some (index_by CompositeObject.id l))
    (Some (index_by CompositeObject.sequence l)).

(** The objects of a list have pairwise distinct ids and pairwise
    distinct sequences. *)
Definition distinct_keys (l : list CompositeObject.t) : Prop :=
  NoDup (map CompositeObject.id l) /\ NoDup (map CompositeObject.sequence l).

(** Every object of the catalog is found under its id and under its
    sequence. *)
Definition lookups_consistent (c : CatalogBase.t) (h : Heap) : Prop :=
  forall x, x ∈ CatalogBase.contents c h ->
    CatalogBase.get_object_by_id c h (CompositeObject.id x) = Ok x
    /\ CatalogBase.get_object_by_sequence c h (CompositeObject.sequence x) = Ok x.

(** The calls that add objects to a catalog. *)
Inductive AddCall : Type :=
  | CallAddObject (obj : CompositeObject.t)
  | CallAddObjects (objs : list CompositeObject.t).

Definition run_call (call : AddCall) : ST (Catalog.t * Heap) unit :=
  match call with
  | CallAddObject obj => Catalog.add_object obj
  | CallAddObjects objs => Catalog.add_objects objs
  end.

(** The state after a run of calls. *)
Fixpoint run_calls (calls : list AddCall) (s : Catalog.t * Heap)
    : Catalog.t * Heap :=
  match calls with
  | [] => s
  | call :: rest => run_calls rest (run_call call s).2
  end.

Definition objects_added (calls : list AddCall) : list CompositeObject.t :=
  flat_map (fun call => match call with
                        | CallAddObject obj => [obj]
                        | CallAddObjects objs => objs
                        end) calls.

(** [filtered_objects] and [objects] name the same list of the store. *)
Definition filtered_is_object_list (s : Catalog.t * Heap) : Prop :=
  Catalog.filtered_objects s.1 = Catalog.get_objects s.1
  /\ (Catalog.get_objects s.1 < length s.2)%nat.

(** ** The registry *)

(** The cached map is cleared or is the map of the current list. *)
Definition cache_ok (r : Catalogs.t) : Prop :=
  Catalogs.catalog_dict r = []
  \/ Catalogs.catalog_dict r = Catalogs.build_dict (Catalogs.catalogs r).

(** The registries that the methods of the class produce. *)
Inductive reachable : Catalogs.t -> Prop :=
  | reach_init (l : list Catalog.t) : reachable (Catalogs.init l)
  | reach_set (r : Catalogs.t) (l : list Catalog.t) :
      reachable r -> reachable (Catalogs.set l r)
  | reach_add (r : Catalogs.t) (c : Catalog.t) :
      reachable r -> reachable (Catalogs.add c r).2
  | reach_get_dict (r : Catalogs.t) :
      reachable r -> reachable (Catalogs.get_dict r).2
  | reach_get_names (r : Catalogs.t) :
      reachable r -> reachable (Catalogs.get_names r).2.

Definition codes (l : list Catalog.t) : list string :=
  map Catalog.catalog_code l.

(** ** Deduplication *)

(** The precedence rule in the words of the specification: a later
    duplicate under "M" replaces a kept entry that is not under "M"; a
    later duplicate under "NGC" replaces a kept entry that is under
    neither "M" nor "NGC". *)
Definition replaces (later kept : CompositeObject.t) : Prop :=
  (CompositeObject.catalog_code later = "M"
   /\ CompositeObject.catalog_code kept <> "M")
  \/ (CompositeObject.catalog_code later = "NGC"
      /\ CompositeObject.catalog_code kept <> "M"
      /\ CompositeObject.catalog_code kept <> "NGC").

#[local] Instance replaces_dec (later kept : CompositeObject.t) :
  Decision (replaces later kept).
Proof. unfold replaces. apply _. Defined.

(** The entry kept for an object after a later duplicate has been seen;
    any other later duplicate is discarded. *)
Definition prefer (kept later : CompositeObject.t) : CompositeObject.t :=
  if bool_decide (replaces later kept) then later else kept.

(** The ids of a ranked list, each at the position of its first
    occurrence. *)
Fixpoint first_occurrences (ids : list Z) : list Z :=
  match ids with
  | [] => []
  | k :: r => k :: filter (fun j => j <> k) (first_occurrences r)
  end.

(** The entry that represents the object [k] in the result for the
    ranked list [l]: the first entry of the object, after every later
    duplicate has been weighed against it in turn. *)
Definition representative (k : Z) (l : list CompositeObject.t)
    : option CompositeObject.t :=
  match filter (fun o => CompositeObject.object_id o = k) l with
  | [] => None
  | o :: r => Some (fold_left prefer r o)
  end.

(** The state of the loop of [_deduplicate] after the prefix [p] of the
    ranked list. *)
Definition dedup_state (p : list CompositeObject.t)
    (acc : list CompositeObject.t * gset Z) : Prop :=
  (forall k, k ∈ acc.2 <-> k ∈ map CompositeObject.object_id p)
  /\ map CompositeObject.object_id acc.1
     = first_occurrences (map CompositeObject.object_id p)
  /\ forall i e, acc.1 !! i = Some e ->
       representative (CompositeObject.object_id e) p = Some e.

(** ** Navigation *)

(** The objects of the current catalog, and the list that [next_object]
    steps through. *)
Definition catalog_objects (t : CatalogTracker.t) : list CompositeObject.t :=
  heap_read (CatalogTracker.heap t)
    (Catalog.get_objects (CatalogTracker.current_catalog t)).

Definition active_list (t : CatalogTracker.t) (filtered : bool)
    : list CompositeObject.t :=
  if filtered
  then Catalog.filtered (CatalogTracker.current_catalog t) (CatalogTracker.heap t)
  else catalog_objects t.

Definition active_ids (t : CatalogTracker.t) (filtered : bool) : list Z :=
  map CompositeObject.sequence (active_list t filtered).

(** The tracker has a designator for the current catalog, the sequence
    index of the current catalog is the one built from its object list,
    and the active list is drawn from that object list. *)
Definition tracker_ready (t : CatalogTracker.t) (filtered : bool) : Prop :=
  is_Some (CatalogTracker.designator_tracker t
             !! CatalogTracker.current_catalog_name t)
  /\ CatalogBase.sequence_to_pos
       (Catalog.base (CatalogTracker.current_catalog t))
     = Some (index_by CompositeObject.sequence (catalog_objects t))
  /\ active_list t filtered ⊆ catalog_objects t.

(** What a caller observes after a navigation step from [t]. *)
Definition tracked_key (t : CatalogTracker.t) : option (option Z) :=
  CatalogTracker.object_tracker t !! CatalogTracker.current_catalog_name t.

Definition designator_number (t : CatalogTracker.t) : option Z :=
  CatalogDesignator.object_number
    <$> (CatalogTracker.designator_tracker t
           !! CatalogTracker.current_catalog_name t).

(** The step sets and returns the object with sequence [k]. *)
Definition lands_on (t : CatalogTracker.t)
    (res : Exc (option CompositeObject.t) * CatalogTracker.t) (k : Z) : Prop :=
  exists o,
    res.1 = Ok (Some o)
    /\ CompositeObject.sequence o = k
    /\ o ∈ catalog_objects t
    /\ (NoDup (map CompositeObject.sequence (catalog_objects t)) ->
        forall x, x ∈ catalog_objects t -> CompositeObject.sequence x = k -> x = o)
    /\ tracked_key res.2 = Some (Some k)
    /\ designator_number res.2 = Some k.

(** The step clears the tracked object and returns none. *)
Definition cleared (res : Exc (option CompositeObject.t) * CatalogTracker.t)
    : Prop :=
  res.1 = Ok None
  /\ tracked_key res.2 = Some None
  /\ designator_number res.2 = Some 0.

Ltac step_next_object t f :=
  unfold CatalogTracker.next_object;
  cbv beta iota zeta delta [st_bind st_get st_lift st_ret
    CatalogTracker.get_designator py_dict_get];
  change (map CompositeObject.sequence
            (if f then Catalog.filtered (CatalogTracker.current_catalog t)
                         (CatalogTracker.heap t)
             else heap_read (CatalogTracker.heap t)
                    (Catalog.get_objects (CatalogTracker.current_catalog t))))
    with (active_ids t f).

(** ** Sample data *)

(** An object 5 degrees below the horizon for every observer, and a
    filter that only has the altitude floor of 10 degrees switched on. *)
Definition sunken_object : CompositeObject.t :=
  CompositeObject.mk 1 1 1 (10 # 1) (-80 # 1) (PyNum (8 # 1)) "Gx" "NGC" false [].

Definition altitude_only_filter : CatalogFilter.t :=
  CatalogFilter.mk CatalogFilter.ThSentinel (Some ["None"])
    (CatalogFilter.ThNum (10 # 1)) (Some "Any") None.

Definition complete_context : SharedState.t :=
  SharedState.mk (Some (10 # 1, 20 # 1)%Q)
    (Some (SharedState.mkLocation (52 # 1) (5 # 1))) (Some 1700000000)
    sunken_object.

Definition messier_13 : CompositeObject.t :=
  CompositeObject.mk 4013 13 13 (250 # 1) (36 # 1) (PyNum (58 # 10)) "Gb" "M"
    false ["Hercules Cluster"].

Definition messier_31 : CompositeObject.t :=
  CompositeObject.mk 4031 31 31 (10 # 1) (41 # 1) (PyNum (34 # 10)) "Gx" "M"
    true ["Andromeda Galaxy"].

Definition messier_base : CatalogBase.t :=
  CatalogBase.mk "M" 110 "Messier" catalog_base_sequence_sort 0 None None.

Definition messier_catalog : Catalog.t :=
  Catalog.mk messier_base CatalogFilter.init 0 0%Q.

(** The examples of the specification: "NGC" is retained against "IC"
    whichever was nearer, and "M" wins over both. *)
Definition entry (object_id : Z) (code : string) : CompositeObject.t :=
  CompositeObject.mk object_id object_id object_id 0%Q 0%Q PyNone "Gx" code false [].

(** The example of the specification: a filtered list with the
    sequences 5, 12 and 47. *)
Definition ngc (sequence : Z) : CompositeObject.t :=
  CompositeObject.mk (1000 + sequence) (2000 + sequence) sequence 0%Q 0%Q
    (PyNum (9 # 1)) "Gx" "NGC" false [].

Definition ngc_objects : list CompositeObject.t := [ngc 5; ngc 12; ngc 47].

Definition ngc_catalog : Catalog.t :=
  Catalog.mk
    (CatalogBase.mk "NGC" 7840 "New General Catalogue"
       catalog_base_sequence_sort 0
       (Some (index_by CompositeObject.id ngc_objects))
       (Some (index_by CompositeObject.sequence ngc_objects)))
    CatalogFilter.init 0 0%Q.

Definition ngc_tracker (current : option Z) : CatalogTracker.t :=
  CatalogTracker.mk complete_context
    (CatalogTracker.mkConfig CatalogFilter.ThSentinel (Some ["None"])
       CatalogFilter.ThSentinel (Some "Any"))
    (Catalogs.init [ngc_catalog])
    {["NGC" := CatalogDesignator.init "NGC" 7840]}
    {["NGC" := current]}
    ngc_catalog "NGC" [ngc_objects].

(** ** Designator calls *)

(** The calls that change a designator. *)
Inductive DesignatorCall : Type :=
  | CallSetNumber (number : Z)
  | CallAppendNumber (number : Z)
  | CallResetNumber
  | CallIncrementNumber
  | CallDecrementNumber
  | CallSetTarget (catalog_index number : Z).

(** The designator after a call; a call that raises does so before it
    assigns, and leaves the designator as it was. *)
Definition after_call (self : CatalogDesignator.t) (call : DesignatorCall)
    : CatalogDesignator.t :=
  match call with
  | CallSetNumber n => CatalogDesignator.set_number self n
  | CallAppendNumber d =>
      match CatalogDesignator.append_number self d with
      | Ok self' => self'
      | Raise _ => self
      end
  | CallResetNumber => CatalogDesignator.reset_number self
  | CallIncrementNumber => CatalogDesignator.increment_number self
  | CallDecrementNumber => CatalogDesignator.decrement_number self
  | CallSetTarget i n =>
      match CatalogDesignator.set_target self i n with
      | Ok self' => self'
      | Raise _ => self
      end
  end.

Definition after_calls (self : CatalogDesignator.t) (calls : list DesignatorCall)
    : CatalogDesignator.t :=
  fold_left after_call calls self.

(** The number fits the text width of the designator, sign included. *)
Definition fits_width (w : nat) (n : Z) : Prop :=
  (0 <= n < 10 ^ Z.of_nat w) \/ (n < 0 /\ - n < 10 ^ (Z.of_nat w - 1)).

(** ** Filters: what is kept *)


(** [apply_filter] answers [True] for the object. *)
Definition keeps (parse_float : string -> option Q)
    (radec_to_altaz : CatalogFilter.FastAltAz -> Q -> Q -> Q)
    (f : CatalogFilter.t) (obj : CompositeObject.t) : bool :=
  match CatalogFilter.apply_filter parse_float radec_to_altaz f obj with
  | Ok true => true
  | _ => false
  end.

(** ** Sample filters *)

Definition no_float : string -> option Q := fun _ => None.

Definition level_horizon : CatalogFilter.FastAltAz -> Q -> Q -> Q :=
  fun _ _ _ => 0%Q.


Definition bright_filter : CatalogFilter.t :=
  CatalogFilter.mk (CatalogFilter.ThNum (5 # 1)) (Some ["None"])
    CatalogFilter.ThSentinel (Some "Any") None.


(** ** Sorting: the place of the object added last *)

(** Insertion behind every object whose key is not greater. *)
Fixpoint insert_last (key : CompositeObject.t -> Z) (x : CompositeObject.t)
    (l : list CompositeObject.t) : list CompositeObject.t :=
  match l with
  | [] => [x]
  | y :: r => if key x <? key y then x :: y :: r
              else y :: insert_last key x r
  end.

(** A second entry with the sequence of [messier_31]. *)
Definition messier_31_again : CompositeObject.t :=
  CompositeObject.mk 5031 531 31 (10 # 1) (41 # 1) (PyNum (34 # 10)) "Gx" "M"
    false ["NGC 224"].

(** ** The registry: names and repeated adds *)

(** The codes of a list, each at its first place. *)
Fixpoint first_codes (l : list string) : list string :=
  match l with
  | [] => []
  | k :: r => k :: filter (fun j => j <> k) (first_codes r)
  end.

(** The registry after adding the catalogs one after the other. *)
Definition add_all (cs : list Catalog.t) (r : Catalogs.t) : Catalogs.t :=
  fold_left (fun r c => (Catalogs.add c r).2) cs r.

Definition configured_messier : Catalog.t :=
  Catalog.mk messier_base bright_filter 0 0%Q.

(** ** Built catalogs *)

(** The catalog [c] is the one built for [code] and [info] over the list
    [l], which it holds at the place [ref] of the store [h]. *)
Definition catalog_built (c : Catalog.t) (h : Heap) (ref : nat) (code : string)
    (info : CatalogBuilder.CatalogInfo) (l : list CompositeObject.t) : Prop :=
  Catalog.catalog_code c = code
  /\ Catalog.max_sequence c = CatalogBuilder.info_max_sequence info
  /\ CatalogBase.desc (Catalog.base c) = CatalogBuilder.info_desc info
  /\ Catalog.get_objects c = ref
  /\ Catalog.filtered_objects c = ref
  /\ heap_read h ref = l
  /\ CatalogBase.id_to_pos (Catalog.base c)
     = Some (index_by CompositeObject.id l)
  /\ CatalogBase.sequence_to_pos (Catalog.base c)
     = Some (index_by CompositeObject.sequence l)
  /\ Catalog.catalog_filter c = CatalogFilter.init.

(** ** Walking through a catalog *)

(** The results of [n] calls of [next_object] in a row. *)
Fixpoint walk (direction : Z) (filtered : bool) (n : nat) (t : CatalogTracker.t)
    : list (Exc (option CompositeObject.t)) :=
  match n with
  | O => []
  | S n' =>
      let res := CatalogTracker.next_object direction filtered t in
      res.1 :: walk direction filtered n' res.2
  end.

(** The call returned the object of the catalog with sequence [k]. *)
Definition returned_sequence (r : Exc (option CompositeObject.t)) (k : Z)
    : Prop :=
  exists o, r = Ok (Some o) /\ CompositeObject.sequence o = k.

(** ** Trackers over several catalogs *)

(** The registry of a tracker once its map has been read. *)
Definition registry_read (r : Catalogs.t) : Catalogs.t :=
  Catalogs.mk (Catalogs.catalogs r) (Catalogs.build_dict (Catalogs.catalogs r)).

(** The catalog registered under a code. *)
Definition registered (r : Catalogs.t) (name : string) : option Catalog.t :=
  dict_lookup (Catalogs.build_dict (Catalogs.catalogs r)) name.

Definition messier_shelf : Catalog.t :=
  Catalog.mk
    (CatalogBase.mk "M" 110 "Messier" catalog_base_sequence_sort 1
       (Some (index_by CompositeObject.id [messier_13; messier_31]))
       (Some (index_by CompositeObject.sequence [messier_13; messier_31])))
    CatalogFilter.init 1 0%Q.

(** A tracker over "NGC" and "M", on "NGC". *)
Definition survey_tracker : CatalogTracker.t :=
  CatalogTracker.mk complete_context
    (CatalogTracker.mkConfig CatalogFilter.ThSentinel (Some ["None"])
       CatalogFilter.ThSentinel (Some "Any"))
    (Catalogs.init [ngc_catalog; messier_shelf])
    (<["M" := CatalogDesignator.init "M" 110]>
       {["NGC" := CatalogDesignator.init "NGC" 7840]})
    (<["M" := None]> {["NGC" := Some 12]})
    ngc_catalog "NGC" [ngc_objects; [messier_13; messier_31]].

(** A tracker on a catalog without objects. *)
Definition vacant_tracker (current : option Z) : CatalogTracker.t :=
  CatalogTracker.mk complete_context
    (CatalogTracker.mkConfig CatalogFilter.ThSentinel (Some ["None"])
       CatalogFilter.ThSentinel (Some "Any"))
    (Catalogs.init [messier_catalog])
    {["M" := CatalogDesignator.init "M" 110]}
    {["M" := current]}
    messier_catalog "M" [[]].

(** * Properties *)

(** ** Decimal text *)

Lemma digits_fuel_acc (f : nat) : forall n acc,
  digits_fuel (S f) n acc = digits_fuel (S f) n [] ++ acc.
Proof.
  induction f as [|f IH]; intros n acc.
  - simpl. destruct (n <? 10); reflexivity.
  - change (digits_fuel (S (S f)) n acc)
      with (if n <? 10 then n :: acc
            else digits_fuel (S f) (n / 10) (n mod 10 :: acc)).
    change (digits_fuel (S (S f)) n [])
      with (if n <? 10 then [n]
            else digits_fuel (S f) (n / 10) [n mod 10]).
    destruct (n <? 10); [reflexivity|].
    rewrite (IH (n / 10) (n mod 10 :: acc)), (IH (n / 10) [n mod 10]).
    rewrite <- app_assoc. reflexivity.
Qed.

Lemma digits_fuel_indep (f1 : nat) : forall f2 n,
  0 <= n -> n < 10 ^ Z.of_nat (S f1) -> n < 10 ^ Z.of_nat (S f2) ->
  digits_fuel (S f1) n [] = digits_fuel (S f2) n [].
Proof.
  induction f1 as [|f1 IH]; intros f2 n Hn H1 H2.
  - simpl in H1. simpl. destruct (Z.ltb_spec n 10); [reflexivity|lia].
  - change (digits_fuel (S (S f1)) n [])
      with (if n <? 10 then [n] else digits_fuel (S f1) (n / 10) [n mod 10]).
    destruct f2 as [|f2].
    + simpl in H2. simpl. destruct (Z.ltb_spec n 10); [reflexivity|lia].
    + change (digits_fuel (S (S f2)) n [])
        with (if n <? 10 then [n] else digits_fuel (S f2) (n / 10) [n mod 10]).
      destruct (Z.ltb_spec n 10); [reflexivity|].
      rewrite (digits_fuel_acc f1), (digits_fuel_acc f2).
      f_equal. apply IH.
      * apply Z.div_pos; lia.
      * apply Z.div_lt_upper_bound; [lia|].
        rewrite (Nat2Z.inj_succ (S f1)), Z.pow_succ_r in H1 by lia. exact H1.
      * apply Z.div_lt_upper_bound; [lia|].
        rewrite (Nat2Z.inj_succ (S f2)), Z.pow_succ_r in H2 by lia. exact H2.
Qed.

Lemma log2_fuel_enough (n : Z) :
  0 <= n -> n < 10 ^ Z.of_nat (S (Z.to_nat (Z.log2 n))).
Proof.
  intros Hn.
  rewrite Nat2Z.inj_succ, Z2Nat.id by apply Z.log2_nonneg.
  destruct (Z.eq_dec n 0) as [->|Hne].
  - simpl. lia.
  - pose proof (Z.log2_spec n ltac:(lia)) as [_ Hlt].
    pose proof (Z.log2_nonneg n).
    eapply Z.lt_le_trans; [exact Hlt|].
    apply Z.pow_le_mono_l. lia.
Qed.

Lemma digits_of_small (n : Z) : 0 <= n < 10 -> digits_of n = [n].
Proof.
  intros Hn. unfold digits_of. simpl.
  destruct (Z.ltb_spec n 10); [reflexivity|lia].
Qed.

Lemma digits_of_step (n : Z) :
  10 <= n -> digits_of n = digits_of (n / 10) ++ [n mod 10].
Proof.
  intros Hn. unfold digits_of.
  assert (Hq : 0 <= n / 10) by (apply Z.div_pos; lia).
  pose proof (log2_fuel_enough n ltac:(lia)) as Hf.
  pose proof (log2_fuel_enough (n / 10) Hq) as Hfq.
  rewrite (digits_fuel_indep _ (S (Z.to_nat (Z.log2 n))) n); [|lia|exact Hf|].
  2:{ eapply Z.lt_le_trans; [exact Hf|].
      apply Z.pow_le_mono_r; lia. }
  change (digits_fuel (S (S (Z.to_nat (Z.log2 n)))) n [])
    with (if n <? 10 then [n]
          else digits_fuel (S (Z.to_nat (Z.log2 n))) (n / 10) [n mod 10]).
  destruct (Z.ltb_spec n 10); [lia|].
  rewrite digits_fuel_acc. f_equal.
  apply digits_fuel_indep; [exact Hq| |exact Hfq].
  apply Z.div_lt_upper_bound; [lia|].
  assert (0 < 10 ^ Z.of_nat (S (Z.to_nat (Z.log2 n))))
    by (apply Z.pow_pos_nonneg; lia).
  lia.
Qed.

Lemma digits_value_app (l1 l2 : list Z) (acc : Z) :
  digits_value acc (l1 ++ l2) = digits_value (digits_value acc l1) l2.
Proof. unfold digits_value. apply fold_left_app. Qed.

Lemma digits_value_shift (l : list Z) : forall acc,
  digits_value acc l = acc * 10 ^ Z.of_nat (length l) + digits_value 0 l.
Proof.
  induction l as [|d l IH]; intros acc.
  - simpl. lia.
  - change (digits_value acc (d :: l)) with (digits_value (10 * acc + d) l).
    change (digits_value 0 (d :: l)) with (digits_value (10 * 0 + d) l).
    rewrite (IH (10 * acc + d)), (IH (10 * 0 + d)).
    change (length (d :: l)) with (S (length l)).
    rewrite Nat2Z.inj_succ, Z.pow_succ_r by lia. lia.
Qed.

Lemma digits_value_bound (l : list Z) :
  Forall is_digit l -> 0 <= digits_value 0 l < 10 ^ Z.of_nat (length l).
Proof.
  induction l as [|d l IH] using rev_ind; intros Hl.
  - simpl. lia.
  - apply Forall_app in Hl as [Hl Hd].
    apply (proj1 (Forall_singleton _ _)) in Hd.
    specialize (IH Hl). unfold is_digit in Hd.
    rewrite digits_value_app.
    rewrite length_app, Nat2Z.inj_add. cbn [length].
    rewrite Z.pow_add_r, Z.pow_1_r by lia.
    set (p := 10 ^ Z.of_nat (length l)) in *.
    set (v := digits_value 0 l) in *.
    change (digits_value v [d]) with (10 * v + d). lia.
Qed.

(** The digits of a natural number: each is a decimal digit, they denote
    the number, and there are as many as the number has decimal
    digits. *)
Lemma digits_of_spec (n : Z) :
  0 <= n ->
  Forall is_digit (digits_of n)
  /\ digits_value 0 (digits_of n) = n
  /\ decimal_digit_count n (length (digits_of n)).
Proof.
  revert n. apply (Zlt_0_ind (fun n =>
    Forall is_digit (digits_of n)
    /\ digits_value 0 (digits_of n) = n
    /\ decimal_digit_count n (length (digits_of n)))).
  intros n IH Hn.
  destruct (Z_lt_le_dec n 10) as [Hs|Hb].
  - rewrite digits_of_small by lia. split; [|split].
    + apply Forall_singleton. unfold is_digit. lia.
    + simpl. lia.
    + unfold decimal_digit_count. simpl. lia.
  - rewrite digits_of_step by lia.
    assert (Hq : 0 <= n / 10 < n).
    { split; [apply Z.div_pos; lia|apply Z.div_lt; lia]. }
    destruct (IH (n / 10) Hq) as (Hd & Hv & Hc).
    pose proof (Z.mod_pos_bound n 10 ltac:(lia)) as Hm.
    pose proof (Z.div_mod n 10 ltac:(lia)) as Hdm.
    split; [|split].
    + apply Forall_app. split; [exact Hd|].
      apply Forall_singleton. unfold is_digit. lia.
    + rewrite digits_value_app, Hv. simpl. lia.
    + unfold decimal_digit_count in *. right.
      rewrite length_app, Nat2Z.inj_add. simpl.
      destruct Hc as [[H0 _]|[Hpos [Hlo Hhi]]]; [lia|].
      split; [lia|].
      assert (1 <= Z.of_nat (length (digits_of (n / 10)))).
      { destruct (length (digits_of (n / 10))); [simpl in Hhi; lia|lia]. }
      set (k := Z.of_nat (length (digits_of (n / 10)))) in *.
      replace (k + Z.of_nat 1 - 1) with (Z.succ (k - 1)) by lia.
      replace (k + Z.of_nat 1) with (Z.succ k) by lia.
      rewrite !Z.pow_succ_r by lia. lia.
Qed.

Lemma digits_of_nonempty (n : Z) : 0 <= n -> digits_of n <> [].
Proof.
  intros Hn. destruct (digits_of_spec n Hn) as (_ & _ & Hc).
  intros E. rewrite E in Hc. unfold decimal_digit_count in Hc. simpl in Hc.
  lia.
Qed.

Lemma is_digit_cases (d : Z) :
  is_digit d ->
  d = 0 \/ d = 1 \/ d = 2 \/ d = 3 \/ d = 4 \/ d = 5 \/ d = 6 \/ d = 7
  \/ d = 8 \/ d = 9.
Proof. unfold is_digit. lia. Qed.

Lemma digit_of_char_digit_char (d : Z) :
  is_digit d -> digit_of_char (digit_char d) = Some d.
Proof.
  intros H. apply is_digit_cases in H.
  repeat (destruct H as [->|H]; [reflexivity|]). subst. reflexivity.
Qed.

Lemma length_show_digits (l : list Z) :
  String.length (show_digits l) = length l.
Proof. induction l as [|d l IH]; simpl; [reflexivity|]. now rewrite IH. Qed.

Lemma show_digits_app (l1 l2 : list Z) :
  show_digits (l1 ++ l2) = show_digits l1 +:+ show_digits l2.
Proof. induction l1 as [|d l1 IH]; simpl; [reflexivity|]. now rewrite IH. Qed.

Lemma parse_show_digits (l : list Z) : forall acc,
  Forall is_digit l ->
  parse_digits (show_digits l) acc = Some (digits_value acc l).
Proof.
  induction l as [|d l IH]; intros acc Hl; [reflexivity|].
  apply Forall_cons in Hl as [Hd Hl].
  change (show_digits (d :: l)) with (String (digit_char d) (show_digits l)).
  cbn [parse_digits].
  rewrite digit_of_char_digit_char by exact Hd. now apply IH.
Qed.

Lemma py_int_digit_head (d : Z) (s : string) :
  is_digit d ->
  py_int (String (digit_char d) s) = parse_nat_text (String (digit_char d) s).
Proof.
  intros H. apply is_digit_cases in H.
  repeat (destruct H as [->|H]; [reflexivity|]). subst. reflexivity.
Qed.

Lemma py_int_show_digits (l : list Z) :
  l <> [] -> Forall is_digit l ->
  py_int (show_digits l) = Ok (digits_value 0 l).
Proof.
  intros Hne Hl. destruct l as [|d l]; [congruence|].
  pose proof (parse_show_digits (d :: l) 0 Hl) as Hp.
  apply Forall_cons in Hl as [Hd Hl].
  change (show_digits (d :: l)) with (String (digit_char d) (show_digits l)) in *.
  rewrite py_int_digit_head by exact Hd.
  unfold parse_nat_text. rewrite Hp. reflexivity.
Qed.

Lemma py_str_nonneg (n : Z) : 0 <= n -> py_str n = show_digits (digits_of n).
Proof.
  intros Hn. unfold py_str. destruct (Z.ltb_spec n 0); [lia|reflexivity].
Qed.

Lemma length_py_str (n : Z) :
  0 <= n -> decimal_digit_count n (String.length (py_str n)).
Proof.
  intros Hn. rewrite py_str_nonneg, length_show_digits by exact Hn.
  now apply digits_of_spec.
Qed.

Lemma digit_count_bound (n : Z) (k w : nat) :
  decimal_digit_count n k -> (1 <= w)%nat -> n < 10 ^ Z.of_nat w -> (k <= w)%nat.
Proof.
  intros [[-> ->]|[Hpos [Hlo Hhi]]] Hw Hn; [exact Hw|].
  destruct (le_lt_dec k w) as [|Hgt]; [assumption|exfalso].
  assert (10 ^ Z.of_nat w <= 10 ^ (Z.of_nat k - 1)).
  { apply Z.pow_le_mono_r; lia. }
  lia.
Qed.

(** ** CatalogDesignator: width and keypad entry *)

(** One keypad entry on a designator whose number fits its width: the
    new number is the old one with the digit appended, cut to the last
    [width] digits. *)
Lemma append_number_spec (self : CatalogDesignator.t) (d : Z) :
  (1 <= CatalogDesignator.width self)%nat ->
  0 <= CatalogDesignator.object_number self
     < 10 ^ Z.of_nat (CatalogDesignator.width self) ->
  is_digit d ->
  CatalogDesignator.append_number self d
  = Ok (CatalogDesignator.refresh_field
          (CatalogDesignator.with_number self
             ((10 * CatalogDesignator.object_number self + d)
                mod 10 ^ Z.of_nat (CatalogDesignator.width self)))).
Proof.
  intros Hw [Hn0 Hn] Hd.
  unfold CatalogDesignator.append_number, CatalogDesignator.get_catalog_width.
  set (n := CatalogDesignator.object_number self) in *.
  set (w := CatalogDesignator.width self) in *.
  destruct (digits_of_spec n Hn0) as (Hdig & Hval & Hcount).
  assert (Hlen : (length (digits_of n) <= w)%nat)
    by (eapply digit_count_bound; eauto).
  assert (Hd' : 0 <= d < 10) by (unfold is_digit in Hd; lia).
  rewrite (py_str_nonneg n), (py_str_nonneg d) by lia.
  rewrite (digits_of_small d), <- show_digits_app by lia.
  rewrite length_show_digits, length_app. cbn [length].
  assert (Hall : Forall is_digit (digits_of n ++ [d])).
  { apply Forall_app. split; [exact Hdig|]. now apply Forall_singleton. }
  assert (Hp : 0 < 10 ^ Z.of_nat w) by (apply Z.pow_pos_nonneg; lia).
  destruct (Nat.ltb_spec w (length (digits_of n) + 1)) as [Hover|Hfit].
  - (* the text is one digit too long: the leading digit goes *)
    destruct (digits_of n) as [|x r] eqn:E.
    { exfalso. now apply (digits_of_nonempty n Hn0). }
    cbn [length] in Hlen, Hover.
    assert (Hr : length r = (w - 1)%nat) by lia.
    change (show_digits ((x :: r) ++ [d]))
      with (String (digit_char x) (show_digits (r ++ [d]))).
    cbn [py_tail].
    apply Forall_cons in Hall as [Hx Hrd].
    rewrite py_int_show_digits; [|now destruct r|exact Hrd].
    cbn [exc_bind]. do 3 f_equal.
    rewrite digits_value_app.
    change (digits_value (digits_value 0 r) [d])
      with (10 * digits_value 0 r + d).
    apply Forall_app in Hrd as [Hrr _].
    pose proof (digits_value_bound r Hrr) as Hb.
    change (digits_value 0 (x :: r)) with (digits_value (10 * 0 + x) r) in Hval.
    rewrite digits_value_shift in Hval.
    rewrite Hr in Hb, Hval.
    set (v := digits_value 0 r) in *.
    assert (Hpw : 10 ^ Z.of_nat w = 10 * 10 ^ Z.of_nat (w - 1)).
    { replace (Z.of_nat w) with (Z.succ (Z.of_nat (w - 1))) by lia.
      rewrite Z.pow_succ_r by lia. reflexivity. }
    apply (Z.mod_unique _ _ x); [lia|].
    rewrite Hpw. lia.
  - (* the text fits *)
    rewrite py_int_show_digits; [|now destruct (digits_of n)|exact Hall].
    cbn [exc_bind]. do 3 f_equal.
    rewrite digits_value_app, Hval.
    change (digits_value n [d]) with (10 * n + d).
    symmetry. apply Z.mod_small.
    split; [lia|].
    destruct Hcount as [[Hz _]|[Hpos [_ Hhi]]].
    + rewrite Hz.
      assert (10 ^ 1 <= 10 ^ Z.of_nat w) by (apply Z.pow_le_mono_r; lia).
      lia.
    + assert (10 ^ Z.succ (Z.of_nat (length (digits_of n))) <= 10 ^ Z.of_nat w)
        by (apply Z.pow_le_mono_r; lia).
      rewrite Z.pow_succ_r in * by lia. lia.
Qed.

Lemma refresh_field_number (self : CatalogDesignator.t) :
  CatalogDesignator.object_number (CatalogDesignator.refresh_field self)
  = CatalogDesignator.object_number self
  /\ CatalogDesignator.width (CatalogDesignator.refresh_field self)
     = CatalogDesignator.width self.
Proof. split; reflexivity. Qed.

(** A run of keypad entries keeps the number within the width: it is the
    number typed so far, cut to its last [width] digits. *)
Lemma append_numbers_spec (ds : list Z) : forall (self : CatalogDesignator.t),
  (1 <= CatalogDesignator.width self)%nat ->
  0 <= CatalogDesignator.object_number self
     < 10 ^ Z.of_nat (CatalogDesignator.width self) ->
  Forall is_digit ds ->
  exists self',
    CatalogDesignator.append_numbers self ds = Ok self'
    /\ CatalogDesignator.width self' = CatalogDesignator.width self
    /\ CatalogDesignator.catalog_name self' = CatalogDesignator.catalog_name self
    /\ CatalogDesignator.object_number self'
       = digits_value (CatalogDesignator.object_number self) ds
           mod 10 ^ Z.of_nat (CatalogDesignator.width self).
Proof.
  induction ds as [|d ds IH]; intros self Hw Hn Hds.
  - exists self. repeat split; try reflexivity.
    cbn [digits_value fold_left]. unfold digits_value. simpl.
    symmetry. apply Z.mod_small. exact Hn.
  - apply Forall_cons in Hds as [Hd Hds].
    cbn [CatalogDesignator.append_numbers].
    rewrite append_number_spec by assumption. cbn [exc_bind].
    set (self1 := CatalogDesignator.refresh_field _).
    assert (Hp : 0 < 10 ^ Z.of_nat (CatalogDesignator.width self))
      by (apply Z.pow_pos_nonneg; lia).
    destruct (IH self1) as (self' & Hrun & Hw' & Hname & Hnum).
    + exact Hw.
    + apply Z.mod_pos_bound. exact Hp.
    + exact Hds.
    + exists self'. repeat split; try assumption.
      rewrite Hnum.
      change (CatalogDesignator.width self1) with (CatalogDesignator.width self).
      change (CatalogDesignator.object_number self1)
        with ((10 * CatalogDesignator.object_number self + d)
                mod 10 ^ Z.of_nat (CatalogDesignator.width self)).
      change (digits_value (CatalogDesignator.object_number self) (d :: ds))
        with (digits_value (10 * CatalogDesignator.object_number self + d) ds).
      set (m := 10 ^ Z.of_nat (CatalogDesignator.width self)) in *.
      set (a := 10 * CatalogDesignator.object_number self + d).
      rewrite (digits_value_shift ds (a mod m)), (digits_value_shift ds a).
      rewrite Z.add_mod, Z.mul_mod, Z.mod_mod by lia.
      rewrite <- Z.mul_mod, <- Z.add_mod by lia. reflexivity.
Qed.

(** C6. A designator built for a catalog with maximal sequence [m] has as
    width the number of decimal digits of [m] (4 for 9999); after any run
    of single-digit keypad entries the entry succeeds, the stored number
    has at most [width] decimal digits, and it is the typed number cut to
    its last [width] digits: the oldest digits are dropped, so that
    1,2,3,4,5 at width 4 leaves 2345. *)
Theorem designator_width_and_sliding_window
    (name : string) (m : Z) (ds : list Z) :
  0 <= m ->
  Forall (fun d => 0 <= d <= 9) ds ->
  let d0 := CatalogDesignator.init name m in
  decimal_digit_count m (CatalogDesignator.width d0)
  /\ (m = 9999 -> CatalogDesignator.width d0 = 4%nat)
  /\ exists d',
       CatalogDesignator.append_numbers d0 ds = Ok d'
       /\ CatalogDesignator.width d' = CatalogDesignator.width d0
       /\ 0 <= CatalogDesignator.object_number d'
            < 10 ^ Z.of_nat (CatalogDesignator.width d0)
       /\ (String.length (py_str (CatalogDesignator.object_number d'))
           <= CatalogDesignator.width d0)%nat
       /\ CatalogDesignator.object_number d'
          = digits_value 0 ds mod 10 ^ Z.of_nat (CatalogDesignator.width d0)
       /\ (ds = [1; 2; 3; 4; 5] -> CatalogDesignator.width d0 = 4%nat ->
           CatalogDesignator.object_number d' = 2345).
Proof.
  intros Hm Hds d0.
  assert (Hwidth : CatalogDesignator.width d0 = String.length (py_str m))
    by reflexivity.
  assert (Hcount : decimal_digit_count m (CatalogDesignator.width d0)).
  { rewrite Hwidth. now apply length_py_str. }
  assert (Hw1 : (1 <= CatalogDesignator.width d0)%nat).
  { destruct Hcount as [[_ ->]|[Hpos [_ Hhi]]]; [lia|].
    destruct (CatalogDesignator.width d0); [simpl in Hhi; lia|lia]. }
  assert (Hp : 1 < 10 ^ Z.of_nat (CatalogDesignator.width d0)).
  { apply Z.pow_gt_1; lia. }
  split; [exact Hcount|]. split.
  { intros ->. rewrite Hwidth. vm_compute. reflexivity. }
  destruct (append_numbers_spec ds d0 Hw1) as (d' & Hrun & Hw' & _ & Hnum).
  { change (CatalogDesignator.object_number d0) with 0. lia. }
  { exact Hds. }
  change (CatalogDesignator.object_number d0) with 0 in Hnum.
  assert (Hrange : 0 <= CatalogDesignator.object_number d'
                   < 10 ^ Z.of_nat (CatalogDesignator.width d0)).
  { rewrite Hnum. apply Z.mod_pos_bound. lia. }
  exists d'. repeat split; try assumption; try apply Hrange.
  - eapply digit_count_bound; [apply length_py_str| |]; [apply Hrange|exact Hw1|apply Hrange].
  - intros -> Hw4. rewrite Hnum, Hw4. reflexivity.
Qed.

Lemma designator_width_and_sliding_window_witness :
  0 <= 9999
  /\ Forall (fun d => 0 <= d <= 9) [1; 2; 3; 4; 5]
  /\ exists d',
       CatalogDesignator.append_numbers (CatalogDesignator.init "NGC" 9999)
         [1; 2; 3; 4; 5] = Ok d'
       /\ CatalogDesignator.object_number d' = 2345.
Proof.
  assert (H1 : 0 <= 9999) by lia.
  assert (H2 : Forall (fun d => 0 <= d <= 9) [1; 2; 3; 4; 5])
    by (repeat constructor; lia).
  split; [exact H1|]. split; [exact H2|].
  destruct (designator_width_and_sliding_window "NGC" 9999 [1; 2; 3; 4; 5] H1 H2)
    as (_ & Hw & d' & Hrun & _ & _ & _ & _ & Hex).
  exists d'. split; [exact Hrun|]. apply Hex; [reflexivity|]. now apply Hw.
Defined.

(** ** CatalogFilter *)

Section FilterProperties.

Variable parse_float : string -> option Q.
Variable radec_to_altaz : CatalogFilter.FastAltAz -> Q -> Q -> Q.

Abbreviation py_float := (CatalogFilter.py_float parse_float).
Abbreviation coerce_mag := (CatalogFilter.coerce_mag parse_float).
Abbreviation altitude_rejects := (CatalogFilter.altitude_rejects radec_to_altaz).
Abbreviation magnitude_rejects := (CatalogFilter.magnitude_rejects parse_float).
Abbreviation apply_filter :=
  (CatalogFilter.apply_filter parse_float radec_to_altaz).
Abbreviation select := (CatalogFilter.select parse_float radec_to_altaz).
Abbreviation apply := (CatalogFilter.apply parse_float radec_to_altaz).

Lemma coerce_mag_uncoercible (v : PyVal) :
  uncoercible parse_float v -> coerce_mag v = Ok (99 # 1)%Q.
Proof.
  unfold CatalogFilter.coerce_mag. intros [H|H]; rewrite H; reflexivity.
Qed.

Lemma altitude_rejects_total (f : CatalogFilter.t) (obj : CompositeObject.t) :
  altitude_comparable f -> exists b, altitude_rejects f obj = Ok b.
Proof.
  unfold CatalogFilter.altitude_rejects. intros Hc.
  destruct (CatalogFilter.altitude_filter f) eqn:Ea; cbn [CatalogFilter.enabled].
  - eauto.
  - destruct (CatalogFilter.fast_aa f); cbn [CatalogFilter.num_lt]; eauto.
  - destruct Hc as [Hc|Hc]; [congruence|]. rewrite Hc. eauto.
Qed.

Lemma altitude_rejects_without_transform
    (f : CatalogFilter.t) (obj : CompositeObject.t) :
  CatalogFilter.fast_aa f = None -> altitude_rejects f obj = Ok false.
Proof.
  unfold CatalogFilter.altitude_rejects. intros ->.
  destruct (CatalogFilter.enabled _); reflexivity.
Qed.

(** C8. For an object whose magnitude cannot be coerced, the coercion
    error stays inside [apply_filter]: the magnitude is taken to be 99,
    the filter answers exactly as for the same object with magnitude 99,
    a filter with configured options answers without raising, and a
    magnitude ceiling below 99 rejects the object. *)
Theorem malformed_magnitude_is_maximally_faint
    (f : CatalogFilter.t) (obj : CompositeObject.t) :
  uncoercible parse_float (CompositeObject.mag obj) ->
  coerce_mag (CompositeObject.mag obj) = Ok (99 # 1)%Q
  /\ apply_filter f obj = apply_filter f (with_mag obj (PyNum (99 # 1)))
  /\ (configured f -> exists b, apply_filter f obj = Ok b)
  /\ (forall m, CatalogFilter.magnitude_filter f = CatalogFilter.ThNum m ->
        (m < 99 # 1)%Q ->
        magnitude_rejects f obj = Ok true
        /\ (altitude_comparable f -> apply_filter f obj = Ok false)).
Proof.
  intros Hbad.
  pose proof (coerce_mag_uncoercible _ Hbad) as H99.
  split; [exact H99|]. split; [|split].
  - unfold CatalogFilter.apply_filter, CatalogFilter.magnitude_rejects.
    rewrite H99. reflexivity.
  - intros (Ha & Hm & Ht).
    destruct (altitude_rejects_total f obj (or_introl Ha)) as [low Hlow].
    unfold CatalogFilter.apply_filter. rewrite Hlow. cbn [exc_bind].
    destruct low; [eauto|].
    unfold CatalogFilter.magnitude_rejects. rewrite H99. cbn [exc_bind].
    destruct (CatalogFilter.magnitude_filter f) eqn:Em;
      cbn [CatalogFilter.enabled CatalogFilter.num_ge exc_bind];
      [|destruct (Qle_bool q (99 # 1)); [eauto|]|congruence];
      (unfold CatalogFilter.type_rejects;
       destruct (CatalogFilter.type_filter f) as [tf|]; [|congruence];
       destruct (decide (tf = ["None"])); cbn [exc_bind];
       [|destruct (bool_decide _); [eauto|]];
       destruct (negb _); eauto).
  - intros m Em Hlt.
    assert (Hrej : magnitude_rejects f obj = Ok true).
    { unfold CatalogFilter.magnitude_rejects. rewrite H99, Em.
      cbn [exc_bind CatalogFilter.enabled CatalogFilter.num_ge].
      f_equal. apply Qle_bool_iff. apply Qlt_le_weak. exact Hlt. }
    split; [exact Hrej|].
    intros Hc. destruct (altitude_rejects_total f obj Hc) as [low Hlow].
    unfold CatalogFilter.apply_filter. rewrite Hlow. cbn [exc_bind].
    destruct low; [reflexivity|]. rewrite Hrej. reflexivity.
Qed.

(** Within [apply] the transform is always absent: the value of
    [calc_fast_aa], [None], overwrites the transform it has just
    stored, and the altitude check passes every object. *)
Lemma apply_discards_transform (shared_state : SharedState.t)
    (objects : list CompositeObject.t) (f : CatalogFilter.t) :
  apply shared_state objects f
  = (select (CatalogFilter.set_fast_aa f None) objects,
     CatalogFilter.set_fast_aa f None).
Proof.
  unfold CatalogFilter.apply, CatalogFilter.calc_fast_aa, st_bind, st_modify,
    st_get, st_lift.
  destruct (SharedState.location shared_state),
           (SharedState.datetime shared_state),
           (SharedState.solution shared_state); reflexivity.
Qed.

End FilterProperties.

(** C4. With the altitude floor enabled and a complete sky-position
    context, [apply] still evaluates no altitude: for every transform,
    context and filter the result is that of a filter without transform,
    and an object whose altitude of -5 lies below the floor of 10 is
    kept, although [apply_filter] with the transform in place rejects
    it. *)
Theorem apply_keeps_object_below_altitude_floor
    (parse_float : string -> option Q) :
  let aa := fun (_ : CatalogFilter.FastAltAz) (_ _ : Q) => (-5 # 1)%Q in
  (forall radec_to_altaz shared_state objects f,
     CatalogFilter.apply parse_float radec_to_altaz shared_state objects f
     = (CatalogFilter.select parse_float radec_to_altaz
          (CatalogFilter.set_fast_aa f None) objects,
        CatalogFilter.set_fast_aa f None))
  /\ (CatalogFilter.apply parse_float aa complete_context [sunken_object]
        altitude_only_filter).1 = Ok [sunken_object]
  /\ CatalogFilter.apply_filter parse_float aa
       (CatalogFilter.calc_fast_aa complete_context altitude_only_filter).2
       sunken_object = Ok false.
Proof.
  intros aa. split; [|split].
  - intros. apply apply_discards_transform.
  - reflexivity.
  - reflexivity.
Qed.

(** When a part of the context is missing, [apply] skips the altitude
    check as well and does not raise on its account. *)
Lemma apply_without_context_skips_altitude
    (parse_float : string -> option Q)
    (radec_to_altaz : CatalogFilter.FastAltAz -> Q -> Q -> Q)
    (shared_state : SharedState.t) (objects : list CompositeObject.t)
    (f : CatalogFilter.t) (obj : CompositeObject.t) :
  CatalogFilter.altitude_rejects radec_to_altaz
    (CatalogFilter.apply parse_float radec_to_altaz shared_state objects f).2 obj
  = Ok false.
Proof.
  rewrite apply_discards_transform. cbn [snd].
  now apply altitude_rejects_without_transform.
Qed.

Lemma malformed_magnitude_is_maximally_faint_witness :
  uncoercible (fun _ => None) PyNone
  /\ CatalogFilter.apply_filter (fun _ => None) (fun _ _ _ => 0%Q)
       (CatalogFilter.mk (CatalogFilter.ThNum (12 # 1)) (Some ["None"])
          CatalogFilter.ThSentinel (Some "Any") None)
       (CompositeObject.mk 7 7 7 0%Q 0%Q PyNone "Gx" "NGC" false [])
     = Ok false.
Proof.
  assert (H : uncoercible (fun _ => None) PyNone) by (left; reflexivity).
  split; [exact H|].
  destruct (malformed_magnitude_is_maximally_faint (fun _ => None)
              (fun _ _ _ => 0%Q)
              (CatalogFilter.mk (CatalogFilter.ThNum (12 # 1)) (Some ["None"])
                 CatalogFilter.ThSentinel (Some "Any") None)
              (CompositeObject.mk 7 7 7 0%Q 0%Q PyNone "Gx" "NGC" false [])
              H) as (_ & _ & _ & Hm).
  destruct (Hm (12 # 1)%Q) as [_ Hr]; [reflexivity|reflexivity|].
  apply Hr. right. reflexivity.
Defined.

(** ** The store of lists *)

Lemma heap_read_write_eq (h : Heap) (r : nat) (l : list CompositeObject.t) :
  (r < length h)%nat -> heap_read (heap_write h r l) r = l.
Proof.
  intros Hr. unfold heap_read, heap_write.
  now rewrite list_lookup_insert_eq.
Qed.

Lemma heap_read_write_ne (h : Heap) (r r' : nat) (l : list CompositeObject.t) :
  r <> r' -> heap_read (heap_write h r l) r' = heap_read h r'.
Proof.
  intros Hr. unfold heap_read, heap_write.
  now rewrite list_lookup_insert_ne.
Qed.

Lemma heap_write_write (h : Heap) (r : nat) (l1 l2 : list CompositeObject.t) :
  heap_write (heap_write h r l1) r l2 = heap_write h r l2.
Proof. unfold heap_write. apply list_insert_insert_eq. Qed.

Lemma length_heap_write (h : Heap) (r : nat) (l : list CompositeObject.t) :
  length (heap_write h r l) = length h.
Proof. unfold heap_write. apply length_insert. Qed.

Lemma heap_write_read (h : Heap) (r : nat) :
  (r < length h)%nat -> heap_write h r (heap_read h r) = h.
Proof.
  intros Hr. unfold heap_write, heap_read.
  destruct (lookup_lt_is_Some_2 h r Hr) as [l Hl].
  rewrite Hl. cbn [default]. now apply list_insert_id.
Qed.

Lemma py_getitem_lookup {A : Type} (l : list A) (i : nat) (x : A) :
  l !! i = Some x -> py_getitem l (Z.of_nat i) = Ok x.
Proof.
  intros Hx. pose proof (lookup_lt_Some _ _ _ Hx) as Hlt.
  unfold py_getitem.
  destruct (Z.ltb_spec (Z.of_nat i) 0); [lia|].
  destruct (Z.leb_spec 0 (Z.of_nat i)); [|lia].
  destruct (Z.ltb_spec (Z.of_nat i) (Z.of_nat (length l))); [|lia].
  cbn [andb]. rewrite Nat2Z.id, Hx. reflexivity.
Qed.

(** ** CatalogBase: sorting and the two indices *)

Lemma insert_by_Permutation (key : CompositeObject.t -> Z)
    (x : CompositeObject.t) (l : list CompositeObject.t) :
  Permutation (insert_by key x l) (x :: l).
Proof.
  induction l as [|y r IH]; cbn [insert_by]; [reflexivity|].
  destruct (key x <=? key y); [reflexivity|].
  rewrite IH. apply perm_swap.
Qed.

Lemma sort_by_Permutation (key : CompositeObject.t -> Z)
    (l : list CompositeObject.t) :
  Permutation (sort_by key l) l.
Proof.
  induction l as [|x l IH]; [reflexivity|].
  change (sort_by key (x :: l)) with (insert_by key x (sort_by key l)).
  rewrite insert_by_Permutation. now constructor.
Qed.

Lemma insert_by_sorted (key : CompositeObject.t -> Z)
    (x : CompositeObject.t) (l : list CompositeObject.t) :
  StronglySorted (key_le key) l -> StronglySorted (key_le key) (insert_by key x l).
Proof.
  induction l as [|y r IH]; intros Hs; cbn [insert_by].
  - repeat constructor.
  - apply StronglySorted_inv in Hs as [Hr Hy].
    destruct (Z.leb_spec (key x) (key y)) as [Hle|Hgt].
    + constructor; [now constructor|].
      constructor; [exact Hle|].
      eapply Forall_impl; [exact Hy|]. unfold key_le. intros; lia.
    + constructor; [now apply IH|].
      rewrite insert_by_Permutation. constructor; [|exact Hy].
      unfold key_le. lia.
Qed.

Lemma sort_by_sorted (key : CompositeObject.t -> Z)
    (l : list CompositeObject.t) :
  StronglySorted (key_le key) (sort_by key l).
Proof.
  induction l as [|x l IH]; [constructor|].
  change (sort_by key (x :: l)) with (insert_by key x (sort_by key l)).
  now apply insert_by_sorted.
Qed.

Lemma index_from_absent (key : CompositeObject.t -> Z)
    (l : list CompositeObject.t) : forall (i : nat) (m : gmap Z nat) (k : Z),
  k ∉ map key l -> index_from key i l m !! k = m !! k.
Proof.
  induction l as [|o r IH]; intros i m k Hk; [reflexivity|].
  cbn [index_from]. cbn [map] in Hk.
  apply not_elem_of_cons in Hk as [Hne Hk].
  rewrite IH by exact Hk. now apply lookup_insert_ne.
Qed.

Lemma index_from_present (key : CompositeObject.t -> Z)
    (l : list CompositeObject.t) :
  forall (i : nat) (m : gmap Z nat) (j : nat) (x : CompositeObject.t),
  NoDup (map key l) -> l !! j = Some x ->
  index_from key i l m !! key x = Some (i + j)%nat.
Proof.
  induction l as [|o r IH]; intros i m j x Hnd Hx; [discriminate|].
  cbn [map] in Hnd. apply NoDup_cons in Hnd as [Ho Hnd].
  cbn [index_from]. destruct j as [|j].
  - injection Hx as ->. rewrite index_from_absent by exact Ho.
    rewrite lookup_insert_eq. f_equal. lia.
  - rewrite (IH (S i) _ j x Hnd Hx). f_equal. lia.
Qed.

Lemma index_by_present (key : CompositeObject.t -> Z)
    (l : list CompositeObject.t) (j : nat) (x : CompositeObject.t) :
  NoDup (map key l) -> l !! j = Some x -> index_by key l !! key x = Some j.
Proof. intros Hnd Hx. unfold index_by. now rewrite (index_from_present key l 0 ∅ j x). Qed.

Lemma add_each_eq (objs : list CompositeObject.t) :
  forall (c : CatalogBase.t) (h : Heap),
  (CatalogBase.objects c < length h)%nat ->
  CatalogBase._add_each objs (c, h)
  = (Ok tt, (c, heap_write h (CatalogBase.objects c)
                  (CatalogBase.contents c h ++ objs))).
Proof.
  induction objs as [|o objs IH]; intros c h Hr.
  - cbn [CatalogBase._add_each]. unfold st_ret, CatalogBase.contents.
    rewrite app_nil_r, heap_write_read by exact Hr. reflexivity.
  - cbn [CatalogBase._add_each]. unfold st_bind, CatalogBase._add_object, st_modify.
    rewrite IH by (rewrite length_heap_write; exact Hr).
    unfold CatalogBase.contents.
    rewrite heap_read_write_eq, heap_write_write, <- app_assoc by exact Hr.
    reflexivity.
Qed.

Lemma add_objects_eq (objs : list CompositeObject.t) (c : CatalogBase.t) (h : Heap) :
  (CatalogBase.objects c < length h)%nat ->
  let l := sort_by (CatalogBase.sort c) (CatalogBase.contents c h ++ objs) in
  CatalogBase.add_objects objs (c, h)
  = (Ok tt, (reindexed c l, heap_write h (CatalogBase.objects c) l)).
Proof.
  intros Hr l. unfold CatalogBase.add_objects, st_bind.
  rewrite add_each_eq by exact Hr.
  unfold CatalogBase._sort_objects, CatalogBase._update_id_to_pos,
    CatalogBase._update_sequence_to_pos, st_modify, CatalogBase.contents.
  rewrite ?heap_read_write_eq, ?heap_write_write
    by (rewrite ?length_heap_write; exact Hr).
  cbn [CatalogBase.set_id_to_pos CatalogBase.set_sequence_to_pos
       CatalogBase.objects].
  rewrite ?heap_read_write_eq, ?heap_write_write
    by (rewrite ?length_heap_write; exact Hr).
  reflexivity.
Qed.

Lemma add_object_eq (obj : CompositeObject.t) (c : CatalogBase.t) (h : Heap) :
  (CatalogBase.objects c < length h)%nat ->
  let l := sort_by (CatalogBase.sort c) (CatalogBase.contents c h ++ [obj]) in
  CatalogBase.add_object obj (c, h)
  = (Ok tt, (reindexed c l, heap_write h (CatalogBase.objects c) l)).
Proof.
  intros Hr l. unfold CatalogBase.add_object, st_bind,
    CatalogBase._add_object, CatalogBase._sort_objects,
    CatalogBase._update_id_to_pos, CatalogBase._update_sequence_to_pos,
    st_modify, CatalogBase.contents.
  rewrite ?heap_read_write_eq, ?heap_write_write
    by (rewrite ?length_heap_write; exact Hr).
  cbn [CatalogBase.set_id_to_pos CatalogBase.set_sequence_to_pos
       CatalogBase.objects].
  rewrite ?heap_read_write_eq, ?heap_write_write
    by (rewrite ?length_heap_write; exact Hr).
  reflexivity.
Qed.

Lemma contents_reindexed (c : CatalogBase.t) (h : Heap)
    (l : list CompositeObject.t) :
  (CatalogBase.objects c < length h)%nat ->
  CatalogBase.contents (reindexed c l) (heap_write h (CatalogBase.objects c) l)
  = l.
Proof. intros Hr. unfold CatalogBase.contents. now apply heap_read_write_eq. Qed.

Lemma reindexed_consistent (c : CatalogBase.t) (h : Heap)
    (l : list CompositeObject.t) :
  (CatalogBase.objects c < length h)%nat ->
  distinct_keys l ->
  lookups_consistent (reindexed c l) (heap_write h (CatalogBase.objects c) l).
Proof.
  intros Hr [Hid Hseq] x Hx.
  unfold CatalogBase.contents in Hx. cbn [reindexed CatalogBase.objects] in Hx.
  rewrite heap_read_write_eq in Hx by exact Hr.
  apply list_elem_of_lookup in Hx as [j Hj].
  unfold CatalogBase.get_object_by_id, CatalogBase.get_object_by_sequence,
    CatalogBase.contents, py_dict_get.
  cbn [reindexed CatalogBase.id_to_pos CatalogBase.sequence_to_pos
       CatalogBase.objects].
  rewrite heap_read_write_eq by exact Hr.
  rewrite (index_by_present _ l j x Hid Hj), (index_by_present _ l j x Hseq Hj).
  cbn [exc_bind]. split; now apply py_getitem_lookup.
Qed.

Lemma distinct_keys_Permutation (l1 l2 : list CompositeObject.t) :
  Permutation l1 l2 -> distinct_keys l2 -> distinct_keys l1.
Proof.
  intros Hp [H1 H2]. split.
  - now rewrite (Permutation_map CompositeObject.id Hp).
  - now rewrite (Permutation_map CompositeObject.sequence Hp).
Qed.

(** C7. In a catalog whose objects, after an [add_object] or an
    [add_objects] call, have pairwise distinct ids and pairwise distinct
    sequences, the call succeeds, the list holds the old and the added
    objects sorted by the sort key, and every object of the list is
    returned by [get_object_by_id] for its id and by
    [get_object_by_sequence] for its sequence. *)
Theorem indices_consistent_after_add (c : CatalogBase.t) (h : Heap)
    (objs : list CompositeObject.t) (obj : CompositeObject.t) :
  (CatalogBase.objects c < length h)%nat ->
  (distinct_keys (CatalogBase.contents c h ++ [obj]) ->
   let s := CatalogBase.add_object obj (c, h) in
   s.1 = Ok tt
   /\ Permutation (CatalogBase.contents s.2.1 s.2.2)
        (CatalogBase.contents c h ++ [obj])
   /\ StronglySorted (key_le (CatalogBase.sort c))
        (CatalogBase.contents s.2.1 s.2.2)
   /\ lookups_consistent s.2.1 s.2.2)
  /\ (distinct_keys (CatalogBase.contents c h ++ objs) ->
      let s := CatalogBase.add_objects objs (c, h) in
      s.1 = Ok tt
      /\ Permutation (CatalogBase.contents s.2.1 s.2.2)
           (CatalogBase.contents c h ++ objs)
      /\ StronglySorted (key_le (CatalogBase.sort c))
           (CatalogBase.contents s.2.1 s.2.2)
      /\ lookups_consistent s.2.1 s.2.2).
Proof.
  intros Hr. split; intros Hd s; subst s.
  - rewrite add_object_eq by exact Hr. cbn [fst snd].
    rewrite !contents_reindexed by exact Hr.
    split; [reflexivity|]. split; [apply sort_by_Permutation|].
    split; [apply sort_by_sorted|].
    apply reindexed_consistent; [exact Hr|].
    eapply distinct_keys_Permutation; [apply sort_by_Permutation|exact Hd].
  - rewrite add_objects_eq by exact Hr. cbn [fst snd].
    rewrite !contents_reindexed by exact Hr.
    split; [reflexivity|]. split; [apply sort_by_Permutation|].
    split; [apply sort_by_sorted|].
    apply reindexed_consistent; [exact Hr|].
    eapply distinct_keys_Permutation; [apply sort_by_Permutation|exact Hd].
Qed.

Lemma indices_consistent_after_add_witness :
  (CatalogBase.objects messier_base < length [[messier_31]])%nat
  /\ distinct_keys (CatalogBase.contents messier_base [[messier_31]] ++ [messier_13])
  /\ CatalogBase.get_object_by_sequence
       (CatalogBase.add_object messier_13 (messier_base, [[messier_31]])).2.1
       (CatalogBase.add_object messier_13 (messier_base, [[messier_31]])).2.2
       31
     = Ok messier_31.
Proof.
  assert (Hr : (CatalogBase.objects messier_base < length [[messier_31]])%nat)
    by (cbn; lia).
  assert (Hd : distinct_keys
                 (CatalogBase.contents messier_base [[messier_31]] ++ [messier_13])).
  { split; apply (bool_decide_unpack _); vm_compute; exact I. }
  split; [exact Hr|]. split; [exact Hd|].
  destruct (indices_consistent_after_add messier_base [[messier_31]] []
              messier_13 Hr) as [Hone _].
  destruct (Hone Hd) as (_ & Hperm & _ & Hcons).
  apply (Hcons messier_31).
  rewrite Hperm. cbn. constructor.
Defined.

(** ** Catalog: [filtered_objects] before the first filtering *)

Lemma run_call_state (call : AddCall) (c : Catalog.t) (h : Heap) :
  filtered_is_object_list (c, h) ->
  let added := match call with
               | CallAddObject obj => [obj]
               | CallAddObjects objs => objs
               end in
  (run_call call (c, h)).1 = Ok tt
  /\ filtered_is_object_list (run_call call (c, h)).2
  /\ Permutation
       (heap_read (run_call call (c, h)).2.2
          (Catalog.get_objects (run_call call (c, h)).2.1))
       (heap_read h (Catalog.get_objects c) ++ added).
Proof.
  intros [Halias Hr] added. unfold Catalog.get_objects, CatalogBase.get_objects in *.
  cbn [fst snd] in Halias, Hr.
  destruct call as [obj|objs]; cbn [run_call];
    unfold Catalog.add_object, Catalog.add_objects, Catalog.inherited;
    [rewrite add_object_eq by exact Hr|rewrite add_objects_eq by exact Hr];
    cbn [fst snd Catalog.base reindexed CatalogBase.objects];
    (split; [reflexivity|]); (split; [split|]);
    cbn [fst snd Catalog.base Catalog.filtered_objects reindexed
         CatalogBase.objects];
    rewrite ?length_heap_write, ?heap_read_write_eq by exact Hr;
    try assumption; apply sort_by_Permutation.
Qed.

Lemma run_calls_state (calls : list AddCall) : forall (c : Catalog.t) (h : Heap),
  filtered_is_object_list (c, h) ->
  filtered_is_object_list (run_calls calls (c, h))
  /\ Permutation
       (heap_read (run_calls calls (c, h)).2
          (Catalog.get_objects (run_calls calls (c, h)).1))
       (heap_read h (Catalog.get_objects c) ++ objects_added calls).
Proof.
  induction calls as [|call rest IH]; intros c h Hinv.
  - cbn [run_calls objects_added flat_map fst snd].
    rewrite app_nil_r. split; [exact Hinv|reflexivity].
  - cbn [run_calls].
    destruct (run_call_state call c h Hinv) as (_ & Hinv' & Hperm).
    destruct (run_call call (c, h)) as [r [c' h']]. cbn [fst snd] in *.
    destruct (IH c' h' Hinv') as [Hfin Hp]. split; [exact Hfin|].
    rewrite Hp, Hperm. cbn [objects_added flat_map].
    rewrite <- app_assoc. reflexivity.
Qed.

(** C10. Right after construction [filtered_objects] is the object list
    of the catalog itself, and it stays so through any run of
    [add_object] and [add_objects] calls: the list read through
    [filtered_objects] is the list read through [get_objects] and holds
    every object added, although no filter has been applied. *)
Theorem filtered_objects_alias_object_list
    (catalog_code : string) (max_sequence : Z) (desc : string) (h : Heap)
    (calls : list AddCall) :
  exists c0 h0,
    Catalog.init catalog_code max_sequence desc h = (Ok c0, h0)
    /\ Catalog.filtered_objects c0 = Catalog.get_objects c0
    /\ Catalog.filtered c0 h0 = []
    /\ let s := run_calls calls (c0, h0) in
       Catalog.filtered_objects s.1 = Catalog.get_objects s.1
       /\ Catalog.filtered s.1 s.2 = heap_read s.2 (Catalog.get_objects s.1)
       /\ Permutation (Catalog.filtered s.1 s.2) (objects_added calls)
       /\ (forall obj, obj ∈ objects_added calls -> obj ∈ Catalog.filtered s.1 s.2).
Proof.
  eexists _, _. split; [reflexivity|].
  set (c0 := Catalog.mk _ _ _ _). set (h0 := h ++ [[]]).
  assert (Hinv : filtered_is_object_list (c0, h0)).
  { split; [reflexivity|]. cbn. unfold h0. rewrite length_app. cbn. lia. }
  assert (Hempty : heap_read h0 (Catalog.get_objects c0) = []).
  { unfold heap_read, h0. cbn.
    rewrite lookup_app_r, Nat.sub_diag by lia. reflexivity. }
  split; [reflexivity|]. split; [exact Hempty|].
  destruct (run_calls_state calls c0 h0 Hinv) as [[Halias Hr] Hperm].
  rewrite Hempty in Hperm. cbn [app] in Hperm.
  cbn zeta. unfold Catalog.filtered. rewrite Halias.
  repeat split; try assumption.
  intros obj Hobj. now rewrite Hperm.
Qed.

(** After [filter_objects] the two attributes name different lists: an
    object added later is missing from [filtered_objects]. *)
Example filtered_objects_after_filtering :
  let pf := fun _ : string => None in
  let aa := fun (_ : CatalogFilter.FastAltAz) (_ _ : Q) => 0%Q in
  let s0 := (Catalog.init "M" 110 "Messier" []) in
  match s0 with
  | (Ok c0, h0) =>
      let configure c :=
        Catalog.mk (Catalog.base c)
          (CatalogFilter.set_values CatalogFilter.ThSentinel (Some ["None"])
             CatalogFilter.ThSentinel (Some "Any") (Catalog.catalog_filter c))
          (Catalog.filtered_objects c) (Catalog.last_filtered c) in
      let s1 := (Catalog.add_object messier_31 (configure c0, h0)).2 in
      let s2 := (Catalog.filter_objects pf aa complete_context 1%Q s1).2 in
      let s3 := (Catalog.add_object messier_13 s2).2 in
      Catalog.filtered s1.1 s1.2 = [messier_31]
      /\ Catalog.filtered s3.1 s3.2 = [messier_31]
      /\ heap_read s3.2 (Catalog.get_objects s3.1) = [messier_13; messier_31]
  | _ => False
  end.
Proof. vm_compute. repeat split. Qed.

(** ** Catalogs: the registry and its cached map *)

Lemma dict_keys_set {V : Type} (d : list (string * V)) (k k' : string) (v : V) :
  k' ∈ dict_keys (dict_set d k v) <-> k' = k \/ k' ∈ dict_keys d.
Proof.
  unfold dict_keys. induction d as [|[k0 v0] d IH]; cbn [dict_set fmap list_fmap].
  - cbn. rewrite list_elem_of_singleton, elem_of_nil. tauto.
  - destruct (decide (k0 = k)) as [->|Hne]; cbn [fmap list_fmap fst].
    + rewrite !elem_of_cons. tauto.
    + rewrite !elem_of_cons. fold (@fmap list _ _ _ (@fst string V) (dict_set d k v)).
      rewrite IH. tauto.
Qed.

Lemma dict_lookup_set_eq {V : Type} (d : list (string * V)) (k : string) (v : V) :
  dict_lookup (dict_set d k v) k = Some v.
Proof.
  induction d as [|[k0 v0] d IH]; cbn [dict_set dict_lookup].
  - now rewrite decide_True.
  - destruct (decide (k0 = k)) as [->|Hne]; cbn [dict_lookup].
    + now rewrite decide_True.
    + now rewrite decide_False.
Qed.

Lemma dict_lookup_set_ne {V : Type} (d : list (string * V)) (k k' : string) (v : V) :
  k <> k' -> dict_lookup (dict_set d k v) k' = dict_lookup d k'.
Proof.
  intros Hne. induction d as [|[k0 v0] d IH]; cbn [dict_set dict_lookup].
  - now rewrite decide_False.
  - destruct (decide (k0 = k)) as [->|Hne0]; cbn [dict_lookup].
    + now rewrite !decide_False.
    + destruct (decide (k0 = k')); [reflexivity|exact IH].
Qed.

Lemma build_dict_snoc (l : list Catalog.t) (c : Catalog.t) :
  Catalogs.build_dict (l ++ [c])
  = dict_set (Catalogs.build_dict l) (Catalog.catalog_code c) c.
Proof. unfold Catalogs.build_dict. now rewrite fold_left_app. Qed.

Lemma dict_keys_build_dict (l : list Catalog.t) (k : string) :
  k ∈ dict_keys (Catalogs.build_dict l) <-> k ∈ codes l.
Proof.
  induction l as [|c l IH] using rev_ind.
  - reflexivity.
  - rewrite build_dict_snoc, dict_keys_set, IH.
    unfold codes. rewrite map_app, elem_of_app. cbn.
    rewrite list_elem_of_singleton. tauto.
Qed.

(** Reading the map of a registry with a sound cache yields the map of
    its list and leaves the list alone. *)
Lemma get_dict_cache_ok (r : Catalogs.t) :
  cache_ok r ->
  Catalogs.get_dict r
  = (Ok (Catalogs.build_dict (Catalogs.catalogs r)),
     Catalogs.mk (Catalogs.catalogs r) (Catalogs.build_dict (Catalogs.catalogs r))).
Proof.
  destruct r as [l d]. unfold cache_ok, Catalogs.get_dict.
  cbn [Catalogs.catalogs Catalogs.catalog_dict].
  intros [->| ->]; [reflexivity|].
  destruct (Catalogs.build_dict l); reflexivity.
Qed.

Lemma add_cache_ok (r : Catalogs.t) (c : Catalog.t) :
  cache_ok r ->
  Catalogs.add c r
  = (Ok tt,
     if bool_decide (Catalog.catalog_code c ∈ codes (Catalogs.catalogs r))
     then Catalogs.mk (Catalogs.catalogs r)
            (Catalogs.build_dict (Catalogs.catalogs r))
     else Catalogs.mk (Catalogs.catalogs r ++ [c]) []).
Proof.
  intros Hok. unfold Catalogs.add, st_bind. rewrite get_dict_cache_ok by exact Hok.
  rewrite (bool_decide_ext _ _ (dict_keys_build_dict _ _)).
  destruct (bool_decide _); reflexivity.
Qed.

Lemma reachable_cache_ok (r : Catalogs.t) : reachable r -> cache_ok r.
Proof.
  induction 1 as [l|r l _ _|r c _ IH|r _ IH|r _ IH].
  - left. reflexivity.
  - left. reflexivity.
  - rewrite add_cache_ok by exact IH. cbn [snd].
    destruct (bool_decide _); [right|left]; reflexivity.
  - rewrite get_dict_cache_ok by exact IH. right. reflexivity.
  - unfold Catalogs.get_names, st_bind.
    rewrite get_dict_cache_ok by exact IH. right. reflexivity.
Qed.

(** C9. On a registry produced by the methods of the class, adding a
    catalog whose code is already registered succeeds without effect on
    the list and on the code-to-catalog map; adding a catalog with a new
    code appends it and clears the cached map, so that the next read
    rebuilds the map with the new catalog under its code and the old
    entries as they were. *)
Theorem add_duplicate_is_noop_and_new_invalidates
    (r : Catalogs.t) (c : Catalog.t) :
  reachable r ->
  let r' := (Catalogs.add c r).2 in
  (Catalogs.add c r).1 = Ok tt
  /\ (Catalog.catalog_code c ∈ codes (Catalogs.catalogs r) ->
      Catalogs.catalogs r' = Catalogs.catalogs r
      /\ (Catalogs.get_dict r').1 = (Catalogs.get_dict r).1)
  /\ (Catalog.catalog_code c ∉ codes (Catalogs.catalogs r) ->
      Catalogs.catalogs r' = Catalogs.catalogs r ++ [c]
      /\ Catalogs.catalog_dict r' = []
      /\ (Catalogs.get_dict r').1
         = Ok (Catalogs.build_dict (Catalogs.catalogs r ++ [c]))
      /\ dict_lookup (Catalogs.build_dict (Catalogs.catalogs r ++ [c]))
           (Catalog.catalog_code c) = Some c
      /\ forall k, k <> Catalog.catalog_code c ->
           dict_lookup (Catalogs.build_dict (Catalogs.catalogs r ++ [c])) k
           = dict_lookup (Catalogs.build_dict (Catalogs.catalogs r)) k).
Proof.
  intros Hreach r'. subst r'.
  pose proof (reachable_cache_ok r Hreach) as Hok.
  rewrite add_cache_ok by exact Hok. cbn [fst snd].
  split; [reflexivity|]. split; intros Hin.
  - rewrite bool_decide_eq_true_2 by exact Hin.
    split; [reflexivity|].
    rewrite (get_dict_cache_ok r Hok).
    rewrite get_dict_cache_ok by (right; reflexivity). reflexivity.
  - rewrite bool_decide_eq_false_2 by exact Hin.
    split; [reflexivity|]. split; [reflexivity|]. split; [reflexivity|].
    rewrite build_dict_snoc. split.
    + apply dict_lookup_set_eq.
    + intros k Hk. apply dict_lookup_set_ne. congruence.
Qed.

Lemma add_duplicate_is_noop_and_new_invalidates_witness :
  reachable (Catalogs.init [messier_catalog])
  /\ Catalogs.catalogs
       (Catalogs.add messier_catalog (Catalogs.init [messier_catalog])).2
     = [messier_catalog].
Proof.
  assert (H : reachable (Catalogs.init [messier_catalog])) by constructor.
  split; [exact H|].
  destruct (add_duplicate_is_noop_and_new_invalidates
              (Catalogs.init [messier_catalog]) messier_catalog H)
    as (_ & Hdup & _).
  apply Hdup. cbn. constructor.
Defined.

(** ** CatalogTracker: deduplication of a ranked result list *)

Lemma takes_precedence_replaces (obj existing : CompositeObject.t) :
  CatalogTracker.takes_precedence obj existing = bool_decide (replaces obj existing).
Proof.
  unfold CatalogTracker.takes_precedence, replaces.
  set (cn := CompositeObject.catalog_code obj).
  set (ck := CompositeObject.catalog_code existing).
  assert (Hin : ck ∈ ["M"; "NGC"] <-> ck = "M" \/ ck = "NGC").
  { rewrite !elem_of_cons, elem_of_nil. tauto. }
  destruct (decide (cn = "M")) as [Hn1|Hn1];
    destruct (decide (cn = "NGC")) as [Hn2|Hn2];
    destruct (decide (ck = "M")) as [Hk1|Hk1];
    destruct (decide (ck = "NGC")) as [Hk2|Hk2];
    try (exfalso; congruence);
    rewrite ?(bool_decide_eq_true_2 (cn = "M")),
            ?(bool_decide_eq_false_2 (cn = "M")),
            ?(bool_decide_eq_true_2 (cn = "NGC")),
            ?(bool_decide_eq_false_2 (cn = "NGC")),
            ?(bool_decide_eq_true_2 (ck = "M")),
            ?(bool_decide_eq_false_2 (ck = "M")) by assumption;
    cbn [andb orb negb];
    first [ rewrite (bool_decide_eq_true_2 (ck ∈ ["M"; "NGC"])) by tauto
          | rewrite (bool_decide_eq_false_2 (ck ∈ ["M"; "NGC"])) by tauto
          | idtac ];
    cbn [andb orb negb];
    symmetry;
    first [ apply bool_decide_eq_true_2; tauto
          | apply bool_decide_eq_false_2; intros [[? ?]|[? [? ?]]]; congruence ].
Qed.

Lemma prefer_object_id (kept later : CompositeObject.t) :
  CompositeObject.object_id later = CompositeObject.object_id kept ->
  CompositeObject.object_id (prefer kept later) = CompositeObject.object_id kept.
Proof. unfold prefer. destruct (bool_decide _); congruence. Qed.

Lemma elem_of_first_occurrences (ids : list Z) (k : Z) :
  k ∈ first_occurrences ids <-> k ∈ ids.
Proof.
  induction ids as [|x r IH]; cbn [first_occurrences]; [reflexivity|].
  rewrite !elem_of_cons, list_elem_of_filter, IH.
  destruct (decide (k = x)); tauto.
Qed.

Lemma NoDup_first_occurrences (ids : list Z) : NoDup (first_occurrences ids).
Proof.
  induction ids as [|x r IH]; cbn [first_occurrences]; [constructor|].
  constructor.
  - rewrite list_elem_of_filter. tauto.
  - now apply NoDup_filter.
Qed.

Lemma first_occurrences_sublist (ids : list Z) :
  sublist (first_occurrences ids) ids.
Proof.
  induction ids as [|x r IH]; cbn [first_occurrences]; [constructor|].
  constructor. etransitivity; [apply sublist_filter; apply _|exact IH].
Qed.

Lemma first_occurrences_snoc (ids : list Z) (k : Z) :
  first_occurrences (ids ++ [k])
  = if decide (k ∈ ids) then first_occurrences ids
    else first_occurrences ids ++ [k].
Proof.
  induction ids as [|x r IH].
  - cbn. rewrite decide_False by apply not_elem_of_nil. reflexivity.
  - cbn [app first_occurrences]. rewrite IH.
    destruct (decide (k ∈ r)) as [Hr|Hr].
    + rewrite decide_True by (apply elem_of_cons; tauto). reflexivity.
    + rewrite filter_app.
      destruct (decide (k = x)) as [->|Hne].
      * rewrite decide_True by (apply elem_of_cons; tauto).
        rewrite filter_cons_False, filter_nil, app_nil_r by tauto. reflexivity.
      * rewrite decide_False by (rewrite elem_of_cons; tauto).
        rewrite filter_cons_True, filter_nil by exact Hne. reflexivity.
Qed.

Lemma representative_snoc_ne (k : Z) (l : list CompositeObject.t)
    (o : CompositeObject.t) :
  CompositeObject.object_id o <> k ->
  representative k (l ++ [o]) = representative k l.
Proof.
  intros Hne. unfold representative.
  rewrite filter_app, filter_cons_False, filter_nil, app_nil_r by exact Hne.
  reflexivity.
Qed.

Lemma representative_snoc_eq (l : list CompositeObject.t) (o : CompositeObject.t) :
  representative (CompositeObject.object_id o) (l ++ [o])
  = Some (match representative (CompositeObject.object_id o) l with
          | Some kept => prefer kept o
          | None => o
          end).
Proof.
  unfold representative.
  rewrite filter_app, filter_cons_True, filter_nil by reflexivity.
  destruct (filter _ l) as [|x r]; [reflexivity|].
  cbn [app]. now rewrite fold_left_app.
Qed.

Lemma representative_None (k : Z) (l : list CompositeObject.t) :
  k ∉ map CompositeObject.object_id l -> representative k l = None.
Proof.
  intros Hk. unfold representative.
  destruct (filter _ l) as [|x r] eqn:E; [reflexivity|exfalso].
  assert (Hx : x ∈ filter (fun o => CompositeObject.object_id o = k) l)
    by (rewrite E; constructor).
  apply list_elem_of_filter in Hx as [<- Hx]. apply Hk.
  change (map CompositeObject.object_id l) with (CompositeObject.object_id <$> l).
  now apply list_elem_of_fmap_2.
Qed.

Lemma py_next_index_found {A : Type} (p : A -> bool) (l : list A) (x : A) :
  x ∈ l -> p x = true ->
  exists i y, py_next_index p l = Ok i /\ l !! i = Some y /\ p y = true.
Proof.
  induction l as [|z r IH]; intros Hx Hp; [now apply elem_of_nil in Hx|].
  cbn [py_next_index]. destruct (p z) eqn:Ez.
  - exists 0%nat, z. auto.
  - apply elem_of_cons in Hx as [->|Hx]; [congruence|].
    destruct (IH Hx Hp) as (i & y & Hi & Hy & Hpy).
    exists (S i), y. rewrite Hi. auto.
Qed.

Lemma dedup_step_state (p : list CompositeObject.t)
    (acc : list CompositeObject.t * gset Z) (o : CompositeObject.t) :
  dedup_state p acc ->
  exists acc', CatalogTracker._deduplicate_step acc o = Ok acc'
               /\ dedup_state (p ++ [o]) acc'.
Proof.
  destruct acc as [res seen]. intros (Hseen & Hids & Hrep). cbn [fst snd] in *.
  unfold CatalogTracker._deduplicate_step.
  set (k := CompositeObject.object_id o).
  assert (Hids' : map CompositeObject.object_id (p ++ [o])
                  = map CompositeObject.object_id p ++ [k]) by apply map_app.
  destruct (decide (k ∈ seen)) as [Hin|Hout].
  - (* a duplicate of a kept entry *)
    rewrite bool_decide_eq_true_2 by exact Hin.
    assert (Hkp : k ∈ map CompositeObject.object_id p) by now apply Hseen.
    assert (Hkr : k ∈ map CompositeObject.object_id res).
    { rewrite Hids. now apply elem_of_first_occurrences. }
    change (map CompositeObject.object_id res)
      with (CompositeObject.object_id <$> res) in Hkr.
    apply list_elem_of_fmap in Hkr as (x & Hxk & Hx).
    destruct (py_next_index_found
                (fun e => bool_decide (CompositeObject.object_id e = k)) res x Hx)
      as (i & existing & Hi & Hex & Hpe).
    { now apply bool_decide_eq_true_2. }
    apply bool_decide_eq_true_1 in Hpe.
    rewrite Hi. cbn [exc_bind].
    rewrite (py_getitem_lookup res i existing Hex). cbn [exc_bind].
    rewrite takes_precedence_replaces.
    pose proof (lookup_lt_Some _ _ _ Hex) as Hlt.
    assert (Hnd : NoDup (CompositeObject.object_id <$> res)).
    { change (NoDup (map CompositeObject.object_id res)).
      rewrite Hids. apply NoDup_first_occurrences. }
    assert (Hother : forall j e, j <> i -> res !! j = Some e ->
                                 CompositeObject.object_id e <> k).
    { intros j e Hj He Hek. apply Hj.
      apply (NoDup_lookup _ j i k Hnd); rewrite list_lookup_fmap.
      - now rewrite He, <- Hek.
      - now rewrite Hex, <- Hpe. }
    assert (Hnew : representative k (p ++ [o]) = Some (prefer existing o)).
    { unfold k. rewrite representative_snoc_eq. fold k.
      rewrite <- Hpe, (Hrep i existing Hex). reflexivity. }
    unfold prefer in Hnew.
    destruct (bool_decide (replaces o existing));
      (eexists; split; [reflexivity|]); cbn [fst snd];
      (split; [intros k'; rewrite Hseen, Hids', elem_of_app,
                 list_elem_of_singleton;
               split; [tauto|intros [?| ->]; assumption]|]);
      (split;
       [rewrite Hids', first_occurrences_snoc, decide_True by exact Hkp|]).
    + cbn [fst snd]. change (map CompositeObject.object_id (<[i:=o]> res))
        with (CompositeObject.object_id <$> <[i:=o]> res).
      rewrite list_fmap_insert. fold k. rewrite <- Hpe.
      rewrite list_insert_id; [exact Hids|].
      rewrite list_lookup_fmap, Hex. reflexivity.
    + cbn [fst snd]. intros j e He. destruct (decide (j = i)) as [->|Hj].
      * rewrite list_lookup_insert_eq in He by exact Hlt.
        injection He as <-. exact Hnew.
      * rewrite list_lookup_insert_ne in He by congruence.
        rewrite representative_snoc_ne by (fold k; intros E; symmetry in E;
                                           now apply (Hother j e Hj He)).
        now apply (Hrep j).
    + cbn [fst snd]. exact Hids.
    + cbn [fst snd]. intros j e He. destruct (decide (j = i)) as [->|Hj].
      * rewrite Hex in He. injection He as <-. rewrite Hpe. exact Hnew.
      * rewrite representative_snoc_ne by (fold k; intros E; symmetry in E;
                                           now apply (Hother j e Hj He)).
        now apply (Hrep j).
  - (* the first entry of an object *)
    rewrite bool_decide_eq_false_2 by exact Hout.
    assert (Hkp : k ∉ map CompositeObject.object_id p) by now rewrite <- Hseen.
    eexists. split; [reflexivity|]. split; [|split]; cbn [fst snd].
    + intros k'. rewrite elem_of_union, elem_of_singleton, Hseen, Hids',
        elem_of_app, list_elem_of_singleton. tauto.
    + rewrite map_app, Hids', first_occurrences_snoc, decide_False, Hids
        by exact Hkp. reflexivity.
    + intros j e He. apply lookup_app_Some in He as [He|[_ He]].
      * assert (H : CompositeObject.object_id e <> k).
        { intros E. apply Hkp. rewrite <- E.
          apply elem_of_first_occurrences. rewrite <- Hids.
          change (map CompositeObject.object_id res)
            with (CompositeObject.object_id <$> res).
          apply list_elem_of_fmap_2.
          apply list_elem_of_lookup. eauto. }
        rewrite representative_snoc_ne
          by (intros E; apply H; symmetry; exact E).
        now apply (Hrep j).
      * apply list_lookup_singleton_Some in He as [_ <-].
        rewrite representative_snoc_eq. fold k.
        now rewrite representative_None.
Qed.

Lemma dedup_loop_state (rest : list CompositeObject.t) :
  forall (p : list CompositeObject.t) (acc : list CompositeObject.t * gset Z),
  dedup_state p acc ->
  exists acc', CatalogTracker._deduplicate_loop rest acc = Ok acc'
               /\ dedup_state (p ++ rest) acc'.
Proof.
  induction rest as [|o rest IH]; intros p acc Hst.
  - exists acc. rewrite app_nil_r. split; [reflexivity|exact Hst].
  - cbn [CatalogTracker._deduplicate_loop].
    destruct (dedup_step_state p acc o Hst) as (acc1 & Hstep & Hst1).
    rewrite Hstep. cbn [exc_bind].
    destruct (IH (p ++ [o]) acc1 Hst1) as (acc' & Hloop & Hst').
    exists acc'. rewrite <- app_assoc in Hst'. split; assumption.
Qed.

(** C2. Deduplication never raises and keeps one entry per [object_id],
    at the position of the first occurrence of the id in the ranked
    list, so the ids come out in their ranked order; the entry kept for
    an id is its first entry unless later duplicates replace it by the
    precedence of "M" over the rest and of "NGC" over all but "M". *)
Theorem deduplicate_first_position_with_precedence
    (l : list CompositeObject.t) :
  exists out,
    CatalogTracker._deduplicate l = Ok out
    /\ NoDup (map CompositeObject.object_id out)
    /\ map CompositeObject.object_id out
       = first_occurrences (map CompositeObject.object_id l)
    /\ sublist (map CompositeObject.object_id out)
         (map CompositeObject.object_id l)
    /\ forall i e, out !! i = Some e ->
         representative (CompositeObject.object_id e) l = Some e.
Proof.
  destruct (dedup_loop_state l [] ([], ∅)) as ([out seen] & Hloop & _ & Hids & Hrep).
  { split; [|split].
    - intros k. cbn. rewrite elem_of_empty, elem_of_nil. tauto.
    - reflexivity.
    - intros i e He. discriminate. }
  cbn [app fst snd] in *.
  exists out. unfold CatalogTracker._deduplicate. rewrite Hloop. cbn [exc_bind fst].
  split; [reflexivity|]. rewrite Hids.
  split; [apply NoDup_first_occurrences|].
  split; [reflexivity|].
  split; [apply first_occurrences_sublist|exact Hrep].
Qed.

Example deduplicate_precedence_examples :
  CatalogTracker._deduplicate [entry 7 "IC"; entry 9 "Cal"; entry 7 "NGC"]
  = Ok [entry 7 "NGC"; entry 9 "Cal"]
  /\ CatalogTracker._deduplicate [entry 7 "NGC"; entry 9 "Cal"; entry 7 "IC"]
     = Ok [entry 7 "NGC"; entry 9 "Cal"]
  /\ CatalogTracker._deduplicate
       [entry 7 "NGC"; entry 7 "IC"; entry 9 "Cal"; entry 7 "M"; entry 7 "NGC"]
     = Ok [entry 7 "M"; entry 9 "Cal"].
Proof. vm_compute. repeat split. Qed.

(** ** CatalogTracker: navigation *)

Lemma index_from_cases (key : CompositeObject.t -> Z)
    (l : list CompositeObject.t) : forall (i : nat) (m : gmap Z nat) (k : Z),
  ((k ∉ map key l) /\ index_from key i l m !! k = m !! k)
  \/ (exists j x, l !! j = Some x /\ key x = k
                  /\ index_from key i l m !! k = Some (i + j)%nat).
Proof.
  induction l as [|o r IH]; intros i m k.
  - left. split; [apply not_elem_of_nil|reflexivity].
  - cbn [index_from].
    destruct (IH (S i) (<[key o := i]> m) k) as [[Hk Hm]|(j & x & Hj & Hx & Hm)].
    + destruct (decide (key o = k)) as [Hok|Hok].
      * right. exists 0%nat, o. rewrite Hm, <- Hok, lookup_insert_eq.
        repeat split. f_equal. lia.
      * left. rewrite Hm, lookup_insert_ne by exact Hok.
        split; [|reflexivity]. cbn [map]. rewrite not_elem_of_cons.
        split; [congruence|exact Hk].
    + right. exists (S j), x. rewrite Hm. repeat split; try assumption.
      f_equal. lia.
Qed.

Lemma get_object_by_sequence_indexed (c : CatalogBase.t) (h : Heap) (k : Z) :
  CatalogBase.sequence_to_pos c
  = Some (index_by CompositeObject.sequence (CatalogBase.contents c h)) ->
  k ∈ map CompositeObject.sequence (CatalogBase.contents c h) ->
  exists o, CatalogBase.get_object_by_sequence c h k = Ok o
            /\ CompositeObject.sequence o = k
            /\ o ∈ CatalogBase.contents c h.
Proof.
  intros Hidx Hk. unfold CatalogBase.get_object_by_sequence. rewrite Hidx.
  unfold index_by, py_dict_get.
  destruct (index_from_cases CompositeObject.sequence
              (CatalogBase.contents c h) 0 ∅ k)
    as [[Hno _]|(j & x & Hj & Hx & Hm)]; [contradiction|].
  rewrite Hm. cbn [exc_bind Nat.add].
  exists x. rewrite (py_getitem_lookup _ j x Hj).
  repeat split; [exact Hx|]. apply list_elem_of_lookup. eauto.
Qed.

Lemma unique_by_sequence (l : list CompositeObject.t) (x o : CompositeObject.t) :
  NoDup (map CompositeObject.sequence l) ->
  x ∈ l -> o ∈ l -> CompositeObject.sequence x = CompositeObject.sequence o ->
  x = o.
Proof.
  intros Hnd Hx Ho Heq.
  apply list_elem_of_lookup in Hx as [i Hi].
  apply list_elem_of_lookup in Ho as [j Hj].
  change (map CompositeObject.sequence l)
    with (CompositeObject.sequence <$> l) in Hnd.
  assert (i = j).
  { apply (NoDup_lookup _ i j (CompositeObject.sequence x) Hnd);
      rewrite list_lookup_fmap.
    - now rewrite Hi.
    - now rewrite Hj, Heq. }
  subst j. congruence.
Qed.

Lemma py_getitem_head {A : Type} (l : list A) (x : A) :
  head l = Some x -> py_getitem l 0 = Ok x.
Proof.
  intros H. apply (py_getitem_lookup l 0 x). now rewrite <- head_lookup.
Qed.

Lemma py_getitem_last {A : Type} (l : list A) (x : A) :
  last l = Some x -> py_getitem l (Z.of_nat (length l) - 1) = Ok x.
Proof.
  intros H. rewrite last_lookup in H.
  assert (length l <> 0)%nat by (intros E; rewrite E in H; destruct l; discriminate).
  replace (Z.of_nat (length l) - 1) with (Z.of_nat (pred (length l))) by lia.
  now apply py_getitem_lookup.
Qed.

Lemma py_list_index_last (pre : list Z) (k : Z) :
  k ∉ pre -> py_list_index (pre ++ [k]) k = Ok (length pre).
Proof.
  induction pre as [|y r IH]; intros Hk; cbn [app py_list_index length].
  - now rewrite decide_True.
  - apply not_elem_of_cons in Hk as [Hne Hk].
    rewrite decide_False by congruence. now rewrite IH.
Qed.

Lemma designator_set_number_some (t : CatalogTracker.t) (name : string)
    (d : CatalogDesignator.t) (k : Z) :
  CatalogTracker.designator_tracker t !! name = Some d ->
  CatalogTracker.designator_set_number name k t
  = (Ok tt,
     CatalogTracker.with_designators t
       (<[name := CatalogDesignator.set_number d k]>
          (CatalogTracker.designator_tracker t))).
Proof.
  intros H. unfold CatalogTracker.designator_set_number. now rewrite H.
Qed.

Lemma set_current_object_here (t : CatalogTracker.t) (next_key : option Z)
    (d : CatalogDesignator.t) :
  CatalogTracker.designator_tracker t !! CatalogTracker.current_catalog_name t
  = Some d ->
  CatalogTracker.set_current_object next_key None t
  = (Ok tt,
     CatalogTracker.with_designators
       (CatalogTracker.with_objects t
          (<[CatalogTracker.current_catalog_name t := next_key]>
             (CatalogTracker.object_tracker t)))
       (<[CatalogTracker.current_catalog_name t :=
            CatalogDesignator.set_number d (default 0 next_key)]>
          (CatalogTracker.designator_tracker t))).
Proof.
  intros Hd.
  cbv beta iota zeta delta [CatalogTracker.set_current_object st_bind
    st_modify CatalogTracker.designator_set_number].
  cbn [CatalogTracker.with_objects CatalogTracker.designator_tracker].
  rewrite Hd.
  destruct next_key as [k|]; cbn [default]; [|reflexivity].
  destruct (Z.eqb_spec k 0); subst; reflexivity.
Qed.

(** The end of [next_object]: storing the new key and reading the
    current object back. *)
Lemma store_and_read_back (t : CatalogTracker.t) (next_key : option Z) :
  is_Some (CatalogTracker.designator_tracker t
             !! CatalogTracker.current_catalog_name t) ->
  let res := st_bind (CatalogTracker.set_current_object next_key None)
               (fun _ => CatalogTracker.get_current_object) t in
  tracked_key res.2 = Some next_key
  /\ designator_number res.2 = Some (default 0 next_key)
  /\ res.1 = match next_key with
             | None => Ok None
             | Some k =>
                 try! o <- Catalog.get_object_by_sequence
                             (CatalogTracker.current_catalog t)
                             (CatalogTracker.heap t) k;
                 Ok (Some o)
             end.
Proof.
  intros [d Hd] res. subst res.
  unfold st_bind. rewrite (set_current_object_here t next_key d Hd).
  unfold CatalogTracker.get_current_object, py_dict_get, tracked_key,
    designator_number.
  cbn [CatalogTracker.with_designators CatalogTracker.with_objects
       CatalogTracker.object_tracker CatalogTracker.current_catalog_name
       CatalogTracker.designator_tracker
       CatalogTracker.current_catalog CatalogTracker.heap].
  rewrite lookup_insert_eq.
  destruct next_key as [k|]; cbn [fst snd default];
    cbn [CatalogTracker.with_designators CatalogTracker.with_objects
         CatalogTracker.object_tracker CatalogTracker.current_catalog_name
         CatalogTracker.designator_tracker];
    rewrite !lookup_insert_eq; repeat split; reflexivity.
Qed.

(** Without a usable current key the step jumps to an end of the active
    list. *)
Lemma next_object_jump (t : CatalogTracker.t) (direction : Z) (filtered : bool)
    (ck : option Z) (d : CatalogDesignator.t) (key : Z) :
  tracked_key t = Some ck ->
  CatalogTracker.designator_tracker t !! CatalogTracker.current_catalog_name t
  = Some d ->
  (ck = None \/ exists k, ck = Some k /\ k ∉ active_ids t filtered) ->
  py_getitem (active_ids t filtered)
    (if direction =? 1 then 0
     else Z.of_nat (length (active_ids t filtered)) - 1) = Ok key ->
  CatalogTracker.next_object direction filtered t
  = st_bind (CatalogTracker.set_current_object (Some key) None)
      (fun _ => CatalogTracker.get_current_object)
      (CatalogTracker.with_designators t
         (<[CatalogTracker.current_catalog_name t :=
              CatalogDesignator.set_number d key]>
            (CatalogTracker.designator_tracker t))).
Proof.
  unfold tracked_key. intros Hck Hd Hcase Hget.
  step_next_object t filtered. rewrite Hck, Hd.
  destruct Hcase as [->|(k & -> & Hk)].
  - rewrite Hget, (designator_set_number_some _ _ d) by exact Hd. reflexivity.
  - rewrite bool_decide_eq_false_2 by exact Hk.
    rewrite Hget, (designator_set_number_some _ _ d) by exact Hd. reflexivity.
Qed.

(** Stepping off an end of the active list clears the current key. *)
Lemma next_object_off_end (t : CatalogTracker.t) (direction : Z)
    (filtered : bool) (k : Z) (d : CatalogDesignator.t) (i : nat) :
  tracked_key t = Some (Some k) ->
  CatalogTracker.designator_tracker t !! CatalogTracker.current_catalog_name t
  = Some d ->
  k ∈ active_ids t filtered ->
  py_list_index (active_ids t filtered) k = Ok i ->
  (Z.of_nat i + direction =? -1)
  || (Z.of_nat (length (active_ids t filtered)) <=? Z.of_nat i + direction)
  = true ->
  CatalogTracker.next_object direction filtered t
  = st_bind (CatalogTracker.set_current_object None None)
      (fun _ => CatalogTracker.get_current_object)
      (CatalogTracker.with_designators t
         (<[CatalogTracker.current_catalog_name t :=
              CatalogDesignator.set_number d 0]>
            (CatalogTracker.designator_tracker t))).
Proof.
  unfold tracked_key. intros Hck Hd Hk Hidx Hend.
  step_next_object t filtered. rewrite Hck, Hd.
  rewrite bool_decide_eq_true_2 by exact Hk.
  rewrite Hidx, Hend, (designator_set_number_some _ _ d) by exact Hd.
  reflexivity.
Qed.

Lemma jump_lands (t : CatalogTracker.t) (direction : Z) (filtered : bool)
    (ck : option Z) (key : Z) :
  tracker_ready t filtered ->
  tracked_key t = Some ck ->
  (ck = None \/ exists k, ck = Some k /\ k ∉ active_ids t filtered) ->
  key ∈ active_ids t filtered ->
  py_getitem (active_ids t filtered)
    (if direction =? 1 then 0
     else Z.of_nat (length (active_ids t filtered)) - 1) = Ok key ->
  lands_on t (CatalogTracker.next_object direction filtered t) key.
Proof.
  intros ([d Hd] & Hidx & Hsub) Hck Hcase Hkey Hget.
  rewrite (next_object_jump t direction filtered ck d key Hck Hd Hcase Hget).
  set (t1 := CatalogTracker.with_designators t _).
  destruct (store_and_read_back t1 (Some key)) as (Htk & Hdn & Hres).
  { unfold t1. cbn [CatalogTracker.with_designators
                     CatalogTracker.designator_tracker
                     CatalogTracker.current_catalog_name].
    rewrite lookup_insert_eq. eauto. }
  assert (Hin : key ∈ map CompositeObject.sequence (catalog_objects t)).
  { unfold active_ids in Hkey.
    change (map CompositeObject.sequence (active_list t filtered))
      with (CompositeObject.sequence <$> active_list t filtered) in Hkey.
    apply list_elem_of_fmap in Hkey as (x & -> & Hx).
    change (map CompositeObject.sequence (catalog_objects t))
      with (CompositeObject.sequence <$> catalog_objects t).
    apply list_elem_of_fmap_2. now apply Hsub. }
  destruct (get_object_by_sequence_indexed
              (Catalog.base (CatalogTracker.current_catalog t))
              (CatalogTracker.heap t) key Hidx Hin) as (o & Hget_o & Hseq & Ho).
  exists o. rewrite Hres.
  change (Catalog.get_object_by_sequence (CatalogTracker.current_catalog t1)
            (CatalogTracker.heap t1) key)
    with (CatalogBase.get_object_by_sequence
            (Catalog.base (CatalogTracker.current_catalog t))
            (CatalogTracker.heap t) key).
  rewrite Hget_o. cbn [exc_bind].
  repeat split; try assumption.
  intros Hnd x Hx Hxs. apply (unique_by_sequence (catalog_objects t));
    [exact Hnd|exact Hx|exact Ho|congruence].
Qed.

Lemma off_end_cleared (t : CatalogTracker.t) (direction : Z) (filtered : bool)
    (k : Z) (i : nat) :
  tracker_ready t filtered ->
  tracked_key t = Some (Some k) ->
  k ∈ active_ids t filtered ->
  py_list_index (active_ids t filtered) k = Ok i ->
  (Z.of_nat i + direction =? -1)
  || (Z.of_nat (length (active_ids t filtered)) <=? Z.of_nat i + direction)
  = true ->
  cleared (CatalogTracker.next_object direction filtered t).
Proof.
  intros ([d Hd] & _ & _) Hck Hk Hidx Hend.
  rewrite (next_object_off_end t direction filtered k d i Hck Hd Hk Hidx Hend).
  set (t1 := CatalogTracker.with_designators t _).
  destruct (store_and_read_back t1 None) as (Htk & Hdn & Hres).
  { unfold t1. cbn [CatalogTracker.with_designators
                     CatalogTracker.designator_tracker
                     CatalogTracker.current_catalog_name].
    rewrite lookup_insert_eq. eauto. }
  repeat split; assumption.
Qed.

(** C1. On a tracker whose active list (the filtered list, or the full
    list when [filtered] is false) is not empty: without a tracked
    object, or with a tracked sequence that is not in the active list,
    [next_object 1] sets and returns the object with the first sequence
    of the active list and [next_object (-1)] the one with the last;
    from the last position [next_object 1], and from the first position
    [next_object (-1)], clears the tracked object, sets the designator
    number to 0 and returns none instead of wrapping around. *)
Theorem next_object_ends_and_boundaries
    (t : CatalogTracker.t) (filtered : bool) (ck : option Z) :
  tracker_ready t filtered ->
  active_list t filtered <> [] ->
  tracked_key t = Some ck ->
  ((ck = None \/ exists k, ck = Some k /\ k ∉ active_ids t filtered) ->
   exists first lst,
     head (active_ids t filtered) = Some first
     /\ last (active_ids t filtered) = Some lst
     /\ lands_on t (CatalogTracker.next_object 1 filtered t) first
     /\ lands_on t (CatalogTracker.next_object (-1) filtered t) lst)
  /\ (forall k pre,
        ck = Some k -> active_ids t filtered = pre ++ [k] -> k ∉ pre ->
        cleared (CatalogTracker.next_object 1 filtered t))
  /\ (forall k rest,
        ck = Some k -> active_ids t filtered = k :: rest ->
        cleared (CatalogTracker.next_object (-1) filtered t)).
Proof.
  intros Hready Hne Hck. split; [|split].
  - intros Hcase.
    assert (Hids : active_ids t filtered <> []).
    { unfold active_ids. destruct (active_list t filtered); [congruence|discriminate]. }
    destruct (active_ids t filtered) as [|first ids] eqn:E; [congruence|].
    destruct (last (first :: ids)) as [lst|] eqn:El.
    2:{ apply last_None in El. discriminate. }
    exists first, lst. split; [reflexivity|]. split; [reflexivity|].
    split.
    + apply (jump_lands t 1 filtered ck first Hready Hck).
      * rewrite E. exact Hcase.
      * rewrite E. constructor.
      * rewrite E. reflexivity.
    + apply (jump_lands t (-1) filtered ck lst Hready Hck).
      * rewrite E. exact Hcase.
      * rewrite E. apply list_elem_of_lookup. rewrite last_lookup in El. eauto.
      * rewrite E. change (-1 =? 1) with false. cbv iota.
        now apply py_getitem_last.
  - intros k pre -> E Hk.
    apply (off_end_cleared t 1 filtered k (length pre) Hready Hck).
    + rewrite E, elem_of_app, list_elem_of_singleton. tauto.
    + rewrite E. now apply py_list_index_last.
    + rewrite E, length_app. cbn [length].
      apply orb_true_intro. right. apply Z.leb_le. lia.
  - intros k rest -> E.
    apply (off_end_cleared t (-1) filtered k 0 Hready Hck).
    + rewrite E. constructor.
    + rewrite E. cbn [py_list_index]. now rewrite decide_True.
    + reflexivity.
Qed.

Lemma ngc_tracker_ready (current : option Z) (filtered : bool) :
  tracker_ready (ngc_tracker current) filtered.
Proof.
  split; [|split].
  - eexists. apply lookup_singleton_eq.
  - reflexivity.
  - destruct filtered; intros x Hx; exact Hx.
Qed.

Lemma next_object_ends_and_boundaries_witness :
  tracker_ready (ngc_tracker None) true
  /\ active_list (ngc_tracker None) true <> []
  /\ tracked_key (ngc_tracker None) = Some None
  /\ exists o, (CatalogTracker.next_object 1 true (ngc_tracker None)).1
               = Ok (Some o)
               /\ CompositeObject.sequence o = 5.
Proof.
  pose proof (ngc_tracker_ready None true) as Hready.
  assert (Hne : active_list (ngc_tracker None) true <> []) by discriminate.
  assert (Hck : tracked_key (ngc_tracker None) = Some None)
    by apply lookup_singleton_eq.
  split; [exact Hready|]. split; [exact Hne|]. split; [exact Hck|].
  destruct (next_object_ends_and_boundaries (ngc_tracker None) true None
              Hready Hne Hck) as [Hjump _].
  destruct (Hjump (or_introl eq_refl))
    as (first & lst & Hfirst & _ & (o & Hres & Hseq & _) & _).
  exists o. split; [exact Hres|].
  rewrite Hseq. injection Hfirst as <-. reflexivity.
Defined.

Example next_object_specification_example :
  (CatalogTracker.next_object 1 true (ngc_tracker None)).1 = Ok (Some (ngc 5))
  /\ (CatalogTracker.next_object 1 true (ngc_tracker (Some 5))).1
     = Ok (Some (ngc 12))
  /\ (CatalogTracker.next_object 1 true (ngc_tracker (Some 47))).1 = Ok None
  /\ tracked_key (CatalogTracker.next_object 1 true (ngc_tracker (Some 47))).2
     = Some None
  /\ (CatalogTracker.next_object (-1) true (ngc_tracker (Some 5))).1 = Ok None
  /\ (CatalogTracker.next_object (-1) true (ngc_tracker (Some 30))).1
     = Ok (Some (ngc 47)).
Proof. vm_compute. repeat split. Qed.

(** ** CatalogTracker: pushed targets and the closest objects *)

Lemma get_current_object_frame (t : CatalogTracker.t) (c : Catalogs.t) :
  CatalogTracker.get_current_object (CatalogTracker.with_catalogs t c)
  = ((CatalogTracker.get_current_object t).1, CatalogTracker.with_catalogs t c).
Proof.
  unfold CatalogTracker.get_current_object.
  cbn [CatalogTracker.with_catalogs CatalogTracker.object_tracker
       CatalogTracker.current_catalog_name CatalogTracker.current_catalog
       CatalogTracker.heap].
  destruct (py_dict_get _ _) as [[k|]|e]; reflexivity.
Qed.

(** C5. On a tracker whose registry has no catalog "PUSH",
    [set_current_catalog "PUSH"] raises: the registry keeps its list of
    catalogs, so no catalog with the code "PUSH" is registered, and the
    designators, the tracked objects and the current catalog stay as they
    were.  When the current object and the current designator can be
    read, the exception is the [TypeError] of the call of the [Catalog]
    constructor with four arguments. *)
Theorem set_current_catalog_push_raises (t : CatalogTracker.t) :
  reachable (CatalogTracker.catalogs t) ->
  "PUSH" ∉ codes (Catalogs.catalogs (CatalogTracker.catalogs t)) ->
  let res := CatalogTracker.set_current_catalog "PUSH" t in
  (exists e, res.1 = Raise e)
  /\ Catalogs.catalogs (CatalogTracker.catalogs res.2)
     = Catalogs.catalogs (CatalogTracker.catalogs t)
  /\ CatalogTracker.designator_tracker res.2 = CatalogTracker.designator_tracker t
  /\ CatalogTracker.object_tracker res.2 = CatalogTracker.object_tracker t
  /\ CatalogTracker.current_catalog_name res.2
     = CatalogTracker.current_catalog_name t
  /\ CatalogTracker.heap res.2 = CatalogTracker.heap t
  /\ ((exists o, (CatalogTracker.get_current_object t).1 = Ok o) ->
      is_Some (CatalogTracker.designator_tracker t
                 !! CatalogTracker.current_catalog_name t) ->
      res.1 = Raise TypeError).
Proof.
  intros Hreach Habsent res. subst res.
  pose proof (reachable_cache_ok _ Hreach) as Hok.
  assert (Hkeys : bool_decide
            ("PUSH" ∈ dict_keys
               (Catalogs.build_dict
                  (Catalogs.catalogs (CatalogTracker.catalogs t)))) = false).
  { apply bool_decide_eq_false_2. now rewrite dict_keys_build_dict. }
  set (c1 := Catalogs.mk (Catalogs.catalogs (CatalogTracker.catalogs t))
               (Catalogs.build_dict
                  (Catalogs.catalogs (CatalogTracker.catalogs t)))).
  assert (Hok1 : cache_ok c1) by (right; reflexivity).
  unfold CatalogTracker.set_current_catalog, CatalogTracker.dict,
    CatalogTracker.on_catalogs.
  cbv beta iota zeta delta [st_bind].
  rewrite (get_dict_cache_ok _ Hok). fold c1. rewrite Hkeys.
  unfold CatalogTracker.add_foreign_catalog, CatalogTracker.names,
    CatalogTracker.on_catalogs, Catalogs.get_names.
  cbv beta iota zeta delta [st_bind st_ret st_lift].
  cbn [CatalogTracker.with_catalogs CatalogTracker.catalogs].
  rewrite (get_dict_cache_ok _ Hok1).
  cbn [Catalogs.catalogs c1]. fold c1.
  cbn [CatalogTracker.with_catalogs CatalogTracker.shared_state
       CatalogTracker.config_options CatalogTracker.designator_tracker
       CatalogTracker.object_tracker CatalogTracker.current_catalog
       CatalogTracker.current_catalog_name CatalogTracker.heap].
  change (CatalogTracker.mk (CatalogTracker.shared_state t)
            (CatalogTracker.config_options t) c1
            (CatalogTracker.designator_tracker t)
            (CatalogTracker.object_tracker t)
            (CatalogTracker.current_catalog t)
            (CatalogTracker.current_catalog_name t) (CatalogTracker.heap t))
    with (CatalogTracker.with_catalogs t c1).
  repeat (rewrite get_current_object_frame; cbn [fst snd]).
  destruct ((CatalogTracker.get_current_object t).1) as [o|e] eqn:Hcur.
  - unfold CatalogTracker.get_designator, py_dict_get.
    cbn [CatalogTracker.with_catalogs CatalogTracker.designator_tracker
         CatalogTracker.current_catalog_name].
    destruct (CatalogTracker.designator_tracker t
                !! CatalogTracker.current_catalog_name t) as [d|] eqn:Hd.
    + cbn. repeat split; eauto.
    + cbn. repeat split; eauto.
      intros _ [d Hd']. discriminate.
  - cbn. repeat split; eauto.
    intros [o Ho]. discriminate.
Qed.

Lemma set_current_catalog_push_raises_witness :
  reachable (CatalogTracker.catalogs (ngc_tracker None))
  /\ ("PUSH" ∉ codes (Catalogs.catalogs
                         (CatalogTracker.catalogs (ngc_tracker None))))
  /\ (CatalogTracker.set_current_catalog "PUSH" (ngc_tracker None)).1
     = Raise TypeError.
Proof.
  assert (Hreach : reachable (CatalogTracker.catalogs (ngc_tracker None)))
    by constructor.
  assert (Habsent : "PUSH" ∉ codes (Catalogs.catalogs
                                      (CatalogTracker.catalogs (ngc_tracker None)))).
  { apply (bool_decide_unpack _). vm_compute. exact I. }
  split; [exact Hreach|]. split; [exact Habsent|].
  destruct (set_current_catalog_push_raises (ngc_tracker None) Hreach Habsent)
    as (_ & _ & _ & _ & _ & _ & Htype).
  apply Htype.
  - exists None. vm_compute. reflexivity.
  - eexists. apply lookup_singleton_eq.
Defined.

(** Once a catalog "PUSH" is registered, [set_current_catalog "PUSH"]
    selects it and registers nothing. *)
Lemma set_current_catalog_registered (t : CatalogTracker.t) (name : string)
    (c : Catalog.t) :
  reachable (CatalogTracker.catalogs t) ->
  dict_lookup (Catalogs.build_dict (Catalogs.catalogs (CatalogTracker.catalogs t)))
    name = Some c ->
  let res := CatalogTracker.set_current_catalog name t in
  res.1 = Ok tt
  /\ Catalogs.catalogs (CatalogTracker.catalogs res.2)
     = Catalogs.catalogs (CatalogTracker.catalogs t)
  /\ CatalogTracker.current_catalog res.2 = c
  /\ CatalogTracker.current_catalog_name res.2 = name.
Proof.
  intros Hreach Hc res. subst res.
  pose proof (reachable_cache_ok _ Hreach) as Hok.
  set (c1 := Catalogs.mk (Catalogs.catalogs (CatalogTracker.catalogs t))
               (Catalogs.build_dict
                  (Catalogs.catalogs (CatalogTracker.catalogs t)))).
  assert (Hok1 : cache_ok c1) by (right; reflexivity).
  assert (Hkeys : bool_decide
            (name ∈ dict_keys
               (Catalogs.build_dict
                  (Catalogs.catalogs (CatalogTracker.catalogs t)))) = true).
  { apply bool_decide_eq_true_2. unfold dict_keys.
    revert Hc. generalize (Catalogs.build_dict
                             (Catalogs.catalogs (CatalogTracker.catalogs t))).
    induction l as [|[k v] l IH]; cbn [dict_lookup]; [discriminate|].
    destruct (decide (k = name)) as [->|Hne]; intros H.
    - cbn. constructor.
    - cbn. constructor. now apply IH. }
  unfold CatalogTracker.set_current_catalog, CatalogTracker.dict,
    CatalogTracker.on_catalogs.
  cbv beta iota zeta delta [st_bind st_ret st_lift st_modify].
  rewrite (get_dict_cache_ok _ Hok). fold c1. rewrite Hkeys.
  cbn [CatalogTracker.with_catalogs CatalogTracker.catalogs].
  rewrite (get_dict_cache_ok _ Hok1).
  cbn [Catalogs.catalogs c1]. fold c1. rewrite Hkeys.
  cbn [CatalogTracker.with_catalogs CatalogTracker.catalogs].
  rewrite (get_dict_cache_ok _ Hok1).
  cbn [Catalogs.catalogs c1]. unfold dict_getitem. rewrite Hc.
  repeat split.
Qed.

(** C3. [get_closest_objects] raises [AttributeError] for the current
    catalog and for every non-empty choice of catalogs, whatever the
    position, the number of objects asked for and the spatial index: the
    filtered objects of a catalog are a list, which has no [values], and
    the registry has no [get].  No object is returned. *)
Theorem get_closest_objects_raises
    (deg2rad : Q -> Q)
    (ball_tree_query : list (Q * Q) -> Q * Q -> Z -> Exc (list Z))
    (t : CatalogTracker.t) (ra dec : Q) (n : Z) :
  CatalogTracker.get_closest_objects deg2rad ball_tree_query ra dec n None t
  = (Raise AttributeError, t)
  /\ (forall key keys,
        CatalogTracker.get_closest_objects deg2rad ball_tree_query ra dec n
          (Some (key :: keys)) t
        = (Raise AttributeError, t))
  /\ (CatalogTracker.get_closest_objects deg2rad ball_tree_query 0%Q 0%Q 1 None
        (ngc_tracker None)).1
     <> Ok [ngc 5].
Proof.
  split; [reflexivity|]. split; [reflexivity|]. discriminate.
Qed.

(** * Further properties *)

(** ** CatalogDesignator: rendering, targets, keypad entry beyond the width *)





Lemma digit_count_le_iff (n : Z) (k w : nat) :
  decimal_digit_count n k -> (1 <= w)%nat ->
  (k <= w)%nat <-> n < 10 ^ Z.of_nat w.
Proof.
  intros Hc Hw. split.
  - intros Hk.
    assert (10 ^ Z.of_nat k <= 10 ^ Z.of_nat w) by (apply Z.pow_le_mono_r; lia).
    destruct Hc as [[-> ->]|[_ [_ Hhi]]]; [|lia].
    assert (0 < 10 ^ Z.of_nat w) by (apply Z.pow_pos_nonneg; lia). lia.
  - intros Hn. eapply digit_count_bound; eauto.
Qed.

Lemma refresh_field_synced (self : CatalogDesignator.t) :
  CatalogDesignator.field (CatalogDesignator.refresh_field self)
  = CatalogDesignator.get_designator (CatalogDesignator.refresh_field self).
Proof. reflexivity. Qed.

(** X1. Starting from the constructor, after any run of designator calls
    (also ones that raise) the stored field is the rendering of the
    current state, and the catalog name and the width are those of the
    constructor. *)
Theorem designator_field_follows_state
    (name : string) (max_sequence : Z) (calls : list DesignatorCall) :
  let d := after_calls (CatalogDesignator.init name max_sequence) calls in
  CatalogDesignator.field d = CatalogDesignator.get_designator d
  /\ CatalogDesignator.catalog_name d = name
  /\ CatalogDesignator.width d = String.length (py_str max_sequence).
Proof.
  cbv zeta. unfold after_calls.
  assert (Hinit : let d := CatalogDesignator.init name max_sequence in
                  CatalogDesignator.field d = CatalogDesignator.get_designator d
                  /\ CatalogDesignator.catalog_name d = name
                  /\ CatalogDesignator.width d = String.length (py_str max_sequence))
    by (repeat split).
  revert Hinit. generalize (CatalogDesignator.init name max_sequence).
  induction calls as [|call calls IH]; intros d Hd; [exact Hd|].
  cbn [fold_left]. apply IH. cbv zeta in *.
  destruct Hd as (Hf & Hn & Hw).
  destruct call as [n|n| | | |i n]; cbn [after_call];
    try (repeat split; assumption).
  - unfold CatalogDesignator.append_number.
    destruct (py_int _); cbn [exc_bind]; repeat split; assumption.
  - unfold CatalogDesignator.set_target.
    destruct (_ <=? _)%nat; repeat split; assumption.
Qed.



(** X3. [set_target] on a designator of width at least one accepts a
    number exactly when its text, sign included, fits the width: it then
    stores the catalog index and the number and renders the field;
    otherwise it raises [AssertionError]. *)
Theorem set_target_accepts_numbers_that_fit
    (self : CatalogDesignator.t) (catalog_index number : Z) :
  (1 <= CatalogDesignator.width self)%nat ->
  (fits_width (CatalogDesignator.width self) number ->
   CatalogDesignator.set_target self catalog_index number
   = Ok (CatalogDesignator.refresh_field
           (CatalogDesignator.mk (CatalogDesignator.catalog_name self) number
              (CatalogDesignator.width self) (CatalogDesignator.field self)
              (Some catalog_index))))
  /\ (~ fits_width (CatalogDesignator.width self) number ->
      CatalogDesignator.set_target self catalog_index number
      = Raise AssertionError).
Proof.
  intros Hw. unfold CatalogDesignator.set_target,
    CatalogDesignator.get_catalog_width, fits_width.
  set (w := CatalogDesignator.width self) in *.
  assert (Hiff : (String.length (py_str number) <= w)%nat
                 <-> (0 <= number < 10 ^ Z.of_nat w)
                     \/ (number < 0 /\ - number < 10 ^ (Z.of_nat w - 1))).
  { destruct (Z_lt_le_dec number 0) as [Hneg|Hpos].
    - unfold py_str. destruct (Z.ltb_spec number 0); [|lia].
      cbn [String.length]. rewrite length_show_digits.
      destruct (digits_of_spec (- number) ltac:(lia)) as (_ & _ & Hc).
      destruct (Nat.eq_dec w 1%nat) as [Hw1|Hw1].
      + rewrite Hw1. change (Z.of_nat 1 - 1) with 0. rewrite Z.pow_0_r.
        destruct Hc as [[? ?]|[_ [_ Hhi]]]; [lia|].
        destruct (length (digits_of (- number))); [simpl in Hhi; lia|].
        split; [lia|]. intros [?|[_ ?]]; lia.
      + replace (Z.of_nat w - 1) with (Z.of_nat (w - 1)) by lia.
        pose proof (digit_count_le_iff _ _ (w - 1) Hc ltac:(lia)) as Hd.
        split.
        * intros Hle. right. split; [lia|]. apply Hd. lia.
        * intros [?|[_ Hlt]]; [lia|]. apply Hd in Hlt. lia.
    - pose proof (digit_count_le_iff number _ w
                    (length_py_str number Hpos) Hw) as Hd.
      split.
      + intros Hle. left. split; [lia|]. now apply Hd.
      + intros [[_ Hlt]|[? _]]; [|lia]. now apply Hd. }
  split; intros Hfit.
  - apply Hiff in Hfit. apply Nat.leb_le in Hfit. now rewrite Hfit.
  - destruct (Nat.leb_spec (String.length (py_str number)) w) as [Hle|Hgt];
      [|reflexivity].
    exfalso. apply Hfit. now apply Hiff.
Qed.

Lemma set_target_accepts_numbers_that_fit_witness :
  (1 <= CatalogDesignator.width (CatalogDesignator.init "NGC" 7840))%nat
  /\ CatalogDesignator.set_target (CatalogDesignator.init "NGC" 7840) 2 10000
     = Raise AssertionError.
Proof.
  assert (H : (1 <= CatalogDesignator.width
                       (CatalogDesignator.init "NGC" 7840))%nat)
    by (vm_compute; lia).
  split; [exact H|].
  apply (set_target_accepts_numbers_that_fit _ 2 10000 H).
  unfold fits_width. vm_compute. intros [[_ Hlt]|[Hlt _]]; discriminate.
Defined.

(** X4. [append_number] with a single digit [d] on any number [n >= 0]
    succeeds.  When [n] has fewer digits than the width the result is
    [10 n + d]; otherwise one leading digit is dropped after appending,
    no more: the result is [(10 n + d) mod 10^k] for [n] of [k] digits,
    also when [k] exceeds the width (after [set_number] or
    [increment_number]), so the number is not cut down to the width. *)
Theorem append_number_drops_one_digit (self : CatalogDesignator.t) (d : Z) :
  0 <= CatalogDesignator.object_number self ->
  is_digit d ->
  let n := CatalogDesignator.object_number self in
  let k := String.length (py_str n) in
  CatalogDesignator.append_number self d
  = Ok (CatalogDesignator.refresh_field
          (CatalogDesignator.with_number self
             (if (CatalogDesignator.width self <? k + 1)%nat
              then (10 * n + d) mod 10 ^ Z.of_nat k
              else 10 * n + d))).
Proof.
  intros Hn0 Hd n k. subst k.
  unfold CatalogDesignator.append_number, CatalogDesignator.get_catalog_width.
  fold n. set (w := CatalogDesignator.width self) in *.
  destruct (digits_of_spec n Hn0) as (Hdig & Hval & Hcount).
  assert (Hd' : 0 <= d < 10) by (unfold is_digit in Hd; lia).
  rewrite (py_str_nonneg n), (py_str_nonneg d) by lia.
  rewrite (digits_of_small d), <- show_digits_app by lia.
  rewrite !length_show_digits, length_app. cbn [length].
  assert (Hall : Forall is_digit (digits_of n ++ [d])).
  { apply Forall_app. split; [exact Hdig|]. now apply Forall_singleton. }
  destruct (Nat.ltb_spec w (length (digits_of n) + 1)) as [Hover|Hfit].
  - destruct (digits_of n) as [|x r] eqn:E.
    { exfalso. now apply (digits_of_nonempty n Hn0). }
    change (show_digits ((x :: r) ++ [d]))
      with (String (digit_char x) (show_digits (r ++ [d]))).
    cbn [py_tail].
    apply Forall_cons in Hall as [Hx Hrd].
    rewrite py_int_show_digits; [|now destruct r|exact Hrd].
    cbn [exc_bind]. do 3 f_equal.
    rewrite digits_value_app.
    change (digits_value (digits_value 0 r) [d])
      with (10 * digits_value 0 r + d).
    apply Forall_app in Hrd as [Hrr _].
    pose proof (digits_value_bound r Hrr) as Hb.
    change (digits_value 0 (x :: r)) with (digits_value (10 * 0 + x) r) in Hval.
    rewrite digits_value_shift in Hval.
    set (v := digits_value 0 r) in *.
    cbn [length]. rewrite Nat2Z.inj_succ, Z.pow_succ_r by lia.
    set (p := 10 ^ Z.of_nat (length r)) in *.
    apply (Z.mod_unique _ _ x); [lia|]. lia.
  - rewrite py_int_show_digits; [|now destruct (digits_of n)|exact Hall].
    cbn [exc_bind]. do 3 f_equal.
    rewrite digits_value_app, Hval. reflexivity.
Qed.

Lemma append_number_drops_one_digit_witness :
  0 <= CatalogDesignator.object_number
         (CatalogDesignator.set_number (CatalogDesignator.init "NGC" 7840) 123456)
  /\ is_digit 7
  /\ exists d',
       CatalogDesignator.append_number
         (CatalogDesignator.set_number (CatalogDesignator.init "NGC" 7840) 123456)
         7 = Ok d'
       /\ CatalogDesignator.object_number d' = 234567
       /\ CatalogDesignator.width d' = 4%nat.
Proof.
  assert (H1 : 0 <= CatalogDesignator.object_number
                      (CatalogDesignator.set_number
                         (CatalogDesignator.init "NGC" 7840) 123456))
    by (vm_compute; discriminate).
  assert (H2 : is_digit 7) by (unfold is_digit; lia).
  split; [exact H1|]. split; [exact H2|].
  eexists. split; [apply (append_number_drops_one_digit _ 7 H1 H2)|].
  split; vm_compute; reflexivity.
Defined.

(** ** CatalogFilter: what [apply] keeps *)

Section FilterResults.

Variable parse_float : string -> option Q.
Variable radec_to_altaz : CatalogFilter.FastAltAz -> Q -> Q -> Q.


Lemma select_all_pass (f : CatalogFilter.t) (l : list CompositeObject.t) :
  Forall (fun o => CatalogFilter.apply_filter parse_float radec_to_altaz f o
                   = Ok true) l ->
  CatalogFilter.select parse_float radec_to_altaz f l = Ok l.
Proof.
  induction 1 as [|o l Ho _ IH]; [reflexivity|].
  cbn [CatalogFilter.select]. rewrite Ho, IH. reflexivity.
Qed.

Lemma select_is_filter (f : CatalogFilter.t) (l kept : list CompositeObject.t) :
  CatalogFilter.select parse_float radec_to_altaz f l = Ok kept ->
  kept = filter (fun o => keeps parse_float radec_to_altaz f o = true) l.
Proof.
  revert kept. induction l as [|o l IH]; intros kept; cbn [CatalogFilter.select].
  - intros [= <-]. reflexivity.
  - destruct (CatalogFilter.apply_filter parse_float radec_to_altaz f o)
      as [b|e] eqn:Ho; cbn [exc_bind]; [|discriminate].
    destruct (CatalogFilter.select parse_float radec_to_altaz f l)
      as [k|e]; cbn [exc_bind]; [|discriminate].
    intros [= <-]. specialize (IH k eq_refl). subst k.
    destruct b.
    + rewrite filter_cons_True by (unfold keeps; now rewrite Ho). reflexivity.
    + rewrite filter_cons_False by (unfold keeps; rewrite Ho; discriminate).
      reflexivity.
Qed.


Lemma apply_result_sublist
    (shared_state : SharedState.t) (objects kept : list CompositeObject.t)
    (f : CatalogFilter.t) :
  (CatalogFilter.apply parse_float radec_to_altaz shared_state objects f).1
  = Ok kept ->
  sublist kept objects.
Proof.
  rewrite apply_discards_transform. cbn [fst]. intros Hsel.
  rewrite (select_is_filter _ _ _ Hsel). apply sublist_filter.
Qed.


(** X6. When [apply] returns, the result is the list of the objects for
    which [apply_filter] (without altitude transform) answers [True], in
    the order of the input, and applying the filter again to the result
    returns the result. *)
Theorem apply_result_is_stable_sublist
    (shared_state : SharedState.t) (objects kept : list CompositeObject.t)
    (f : CatalogFilter.t) :
  (CatalogFilter.apply parse_float radec_to_altaz shared_state objects f).1
  = Ok kept ->
  kept = filter (fun o => keeps parse_float radec_to_altaz
                            (CatalogFilter.set_fast_aa f None) o = true)
           objects
  /\ sublist kept objects
  /\ (CatalogFilter.apply parse_float radec_to_altaz shared_state kept
        (CatalogFilter.apply parse_float radec_to_altaz shared_state
           objects f).2).1
     = Ok kept.
Proof.
  rewrite !apply_discards_transform. cbn [fst snd]. intros Hsel.
  pose proof (select_is_filter _ _ _ Hsel) as Hk.
  split; [exact Hk|]. split.
  - rewrite Hk. apply sublist_filter.
  - apply select_all_pass. apply Forall_forall. intros o Ho.
    rewrite Hk in Ho. apply list_elem_of_filter in Ho as [Ho _].
    unfold keeps in Ho.
    change (CatalogFilter.set_fast_aa (CatalogFilter.set_fast_aa f None) None)
      with (CatalogFilter.set_fast_aa f None).
    destruct (CatalogFilter.apply_filter parse_float radec_to_altaz
                (CatalogFilter.set_fast_aa f None) o) as [[|]|e];
      [reflexivity|discriminate|discriminate].
Qed.



End FilterResults.


Lemma apply_result_is_stable_sublist_witness :
  (CatalogFilter.apply no_float level_horizon complete_context
     [messier_13; messier_31] bright_filter).1 = Ok [messier_31]
  /\ sublist [messier_31] [messier_13; messier_31].
Proof.
  assert (H : (CatalogFilter.apply no_float level_horizon complete_context
                 [messier_13; messier_31] bright_filter).1 = Ok [messier_31])
    by (vm_compute; reflexivity).
  split; [exact H|].
  apply (apply_result_is_stable_sublist no_float level_horizon
           complete_context [messier_13; messier_31] [messier_31]
           bright_filter H).
Defined.



(** ** CatalogBase and Catalog: lookups, sorting, filtering *)

Lemma index_by_cases (key : CompositeObject.t -> Z)
    (l : list CompositeObject.t) (k : Z) :
  ((k ∉ map key l) /\ index_by key l !! k = None)
  \/ (exists j x, l !! j = Some x /\ key x = k
                  /\ index_by key l !! k = Some j).
Proof.
  unfold index_by.
  destruct (index_from_cases key l 0 ∅ k) as [[Hk Hm]|(j & x & Hj & Hx & Hm)].
  - left. split; [exact Hk|]. now rewrite Hm, lookup_empty.
  - right. exists j, x. now rewrite Hm.
Qed.

Lemma indexed_lookup (key : CompositeObject.t -> Z)
    (l : list CompositeObject.t) (k : Z) :
  (k ∉ map key l ->
   (try! pos <- py_dict_get (index_by key l) k; py_getitem l (Z.of_nat pos))
   = Raise KeyError)
  /\ (k ∈ map key l ->
      exists o,
        (try! pos <- py_dict_get (index_by key l) k; py_getitem l (Z.of_nat pos))
        = Ok o /\ key o = k /\ o ∈ l).
Proof.
  unfold py_dict_get.
  destruct (index_by_cases key l k) as [[Hk Hm]|(j & x & Hj & Hx & Hm)];
    rewrite Hm; cbn [exc_bind]; split; intros Hin.
  - reflexivity.
  - contradiction.
  - exfalso. apply Hin. rewrite <- Hx.
    change (map key l) with (key <$> l). apply list_elem_of_fmap_2.
    apply list_elem_of_lookup. eauto.
  - exists x. rewrite (py_getitem_lookup l j x Hj).
    repeat split; [exact Hx|]. apply list_elem_of_lookup. eauto.
Qed.

(** X9. Before the first add both lookups of a catalog raise
    [AttributeError]; after [add_objects] (also of no objects) a lookup by
    an id or a sequence that no object has raises [KeyError], and a lookup
    by one that occurs returns an object of the catalog with that id or
    sequence, whether or not ids and sequences are distinct. *)
Theorem lookup_misses_raise
    (catalog_code desc : string) (max_sequence : Z)
    (sort : CompositeObject.t -> Z) (h : Heap)
    (objs : list CompositeObject.t) (k : Z) :
  let s0 := CatalogBase.init catalog_code max_sequence desc sort h in
  exists c0, s0.1 = Ok c0
    /\ CatalogBase.get_object_by_id c0 s0.2 k = Raise AttributeError
    /\ CatalogBase.get_object_by_sequence c0 s0.2 k = Raise AttributeError
    /\ let s := (CatalogBase.add_objects objs (c0, s0.2)).2 in
       let l := CatalogBase.contents s.1 s.2 in
       Permutation l objs
       /\ (k ∉ map CompositeObject.id l ->
           CatalogBase.get_object_by_id s.1 s.2 k = Raise KeyError)
       /\ (k ∈ map CompositeObject.id l ->
           exists o, CatalogBase.get_object_by_id s.1 s.2 k = Ok o
                     /\ CompositeObject.id o = k /\ o ∈ l)
       /\ (k ∉ map CompositeObject.sequence l ->
           CatalogBase.get_object_by_sequence s.1 s.2 k = Raise KeyError)
       /\ (k ∈ map CompositeObject.sequence l ->
           exists o, CatalogBase.get_object_by_sequence s.1 s.2 k = Ok o
                     /\ CompositeObject.sequence o = k /\ o ∈ l).
Proof.
  cbv zeta. eexists. split; [reflexivity|]. split; [reflexivity|].
  split; [reflexivity|].
  cbn [fst snd CatalogBase.init heap_alloc].
  set (c0 := CatalogBase.mk _ _ _ _ _ _ _).
  assert (Hr : (CatalogBase.objects c0 < length (h ++ [[]]))%nat).
  { cbn. rewrite length_app. cbn. lia. }
  assert (Hempty : CatalogBase.contents c0 (h ++ [[]]) = []).
  { unfold CatalogBase.contents, heap_read. cbn.
    rewrite lookup_app_r, Nat.sub_diag by lia. reflexivity. }
  rewrite add_objects_eq by exact Hr. cbn [fst snd].
  rewrite contents_reindexed by exact Hr. rewrite Hempty. cbn [app].
  set (l := sort_by _ objs).
  unfold CatalogBase.get_object_by_id, CatalogBase.get_object_by_sequence.
  cbn [reindexed CatalogBase.id_to_pos CatalogBase.sequence_to_pos].
  change (CatalogBase.contents _ _)
    with (CatalogBase.contents (reindexed c0 l)
            (heap_write (h ++ [[]]) (CatalogBase.objects c0) l)).
  rewrite contents_reindexed by exact Hr.
  split; [apply sort_by_Permutation|].
  pose proof (indexed_lookup CompositeObject.id l k) as [H1 H2].
  pose proof (indexed_lookup CompositeObject.sequence l k) as [H3 H4].
  repeat split; assumption.
Qed.

Lemma filter_key_insert_by (key : CompositeObject.t -> Z) (k : Z)
    (x : CompositeObject.t) (s : list CompositeObject.t) :
  filter (fun o => key o = k) (insert_by key x s)
  = filter (fun o => key o = k) (x :: s).
Proof.
  induction s as [|y r IH]; cbn [insert_by]; [reflexivity|].
  destruct (Z.leb_spec (key x) (key y)) as [Hle|Hgt]; [reflexivity|].
  destruct (decide (key y = k)) as [Hy|Hy].
  - rewrite (filter_cons_True _ y) by exact Hy.
    rewrite IH.
    rewrite (filter_cons_False _ x) by lia.
    rewrite (filter_cons_False _ x) by lia.
    rewrite (filter_cons_True _ y) by exact Hy. reflexivity.
  - rewrite (filter_cons_False _ y) by exact Hy. rewrite IH.
    destruct (decide (key x = k)) as [Hx|Hx].
    + rewrite !(filter_cons_True _ x) by exact Hx.
      rewrite (filter_cons_False _ y) by exact Hy. reflexivity.
    + rewrite !(filter_cons_False _ x) by exact Hx.
      rewrite (filter_cons_False _ y) by exact Hy. reflexivity.
Qed.

Lemma sort_by_stable (key : CompositeObject.t -> Z) (k : Z)
    (l : list CompositeObject.t) :
  filter (fun o => key o = k) (sort_by key l) = filter (fun o => key o = k) l.
Proof.
  induction l as [|x l IH]; [reflexivity|].
  change (sort_by key (x :: l)) with (insert_by key x (sort_by key l)).
  rewrite filter_key_insert_by.
  destruct (decide (key x = k)) as [Hx|Hx].
  - rewrite !(filter_cons_True _ x) by exact Hx. now rewrite IH.
  - rewrite !(filter_cons_False _ x) by exact Hx. exact IH.
Qed.

(** X10. [add_objects] sorts stably: the list holds the old and the new
    objects ordered by the sort key, and the objects that share a key
    keep the order in which they were in the list and were added. *)
Theorem add_objects_sorts_stably (c : CatalogBase.t) (h : Heap)
    (objs : list CompositeObject.t) :
  (CatalogBase.objects c < length h)%nat ->
  let s := (CatalogBase.add_objects objs (c, h)).2 in
  let l := CatalogBase.contents s.1 s.2 in
  Permutation l (CatalogBase.contents c h ++ objs)
  /\ StronglySorted (key_le (CatalogBase.sort c)) l
  /\ (forall k, filter (fun o => CatalogBase.sort c o = k) l
                = filter (fun o => CatalogBase.sort c o = k)
                    (CatalogBase.contents c h ++ objs))
  /\ CatalogBase.get_count s.1 s.2
     = (CatalogBase.get_count c h + length objs)%nat.
Proof.
  intros Hr. cbv zeta. rewrite add_objects_eq by exact Hr. cbn [fst snd].
  unfold CatalogBase.get_count at 1.
  rewrite !contents_reindexed by exact Hr.
  split; [apply sort_by_Permutation|]. split; [apply sort_by_sorted|].
  split; [intros k; apply sort_by_stable|].
  rewrite (Permutation_length (sort_by_Permutation _ _)), length_app.
  reflexivity.
Qed.

Lemma add_objects_sorts_stably_witness :
  (CatalogBase.objects messier_base < length [[messier_31]])%nat
  /\ CatalogBase.get_count
       (CatalogBase.add_objects [messier_13] (messier_base, [[messier_31]])).2.1
       (CatalogBase.add_objects [messier_13] (messier_base, [[messier_31]])).2.2
     = (CatalogBase.get_count messier_base [[messier_31]] + 1)%nat.
Proof.
  assert (Hr : (CatalogBase.objects messier_base < length [[messier_31]])%nat)
    by (cbn; lia).
  split; [exact Hr|].
  apply (add_objects_sorts_stably messier_base [[messier_31]] [messier_13] Hr).
Defined.

Lemma insert_by_insert_last (key : CompositeObject.t -> Z)
    (a x : CompositeObject.t) (s : list CompositeObject.t) :
  insert_by key a (insert_last key x s) = insert_last key x (insert_by key a s).
Proof.
  induction s as [|y r IH].
  - cbn [insert_last insert_by].
    destruct (Z.leb_spec (key a) (key x)), (Z.ltb_spec (key x) (key a));
      try lia; reflexivity.
  - cbn [insert_last insert_by].
    destruct (Z.ltb_spec (key x) (key y)) as [Hxy|Hxy];
      destruct (Z.leb_spec (key a) (key y)) as [Hay|Hay];
      cbn [insert_last insert_by];
      destruct (Z.leb_spec (key a) (key x)) as [Hax|Hax];
      destruct (Z.ltb_spec (key x) (key a)) as [Hxa|Hxa];
      destruct (Z.ltb_spec (key x) (key y));
      destruct (Z.leb_spec (key a) (key y));
      try lia; try reflexivity; try (rewrite IH; reflexivity).
Qed.

Lemma sort_by_snoc (key : CompositeObject.t -> Z) (x : CompositeObject.t)
    (l : list CompositeObject.t) :
  sort_by key (l ++ [x]) = insert_last key x (sort_by key l).
Proof.
  induction l as [|a l IH]; [reflexivity|].
  change (sort_by key ((a :: l) ++ [x]))
    with (insert_by key a (sort_by key (l ++ [x]))).
  change (sort_by key (a :: l)) with (insert_by key a (sort_by key l)).
  rewrite IH. apply insert_by_insert_last.
Qed.

Lemma insert_last_split (key : CompositeObject.t -> Z) (x : CompositeObject.t)
    (s : list CompositeObject.t) :
  StronglySorted (key_le key) s ->
  exists l1 l2, insert_last key x s = l1 ++ x :: l2
                /\ Forall (fun y => key x < key y) l2.
Proof.
  induction s as [|y r IH]; intros Hs.
  - exists [], []. split; [reflexivity|constructor].
  - apply StronglySorted_inv in Hs as [Hr Hy]. cbn [insert_last].
    destruct (Z.ltb_spec (key x) (key y)) as [Hlt|Hge].
    + exists [], (y :: r). split; [reflexivity|].
      constructor; [exact Hlt|].
      eapply Forall_impl; [exact Hy|]. unfold key_le. intros; lia.
    + destruct (IH Hr) as (l1 & l2 & E & Hl2).
      exists (y :: l1), l2. rewrite E. split; [reflexivity|exact Hl2].
Qed.

Lemma index_from_app (key : CompositeObject.t -> Z)
    (l1 l2 : list CompositeObject.t) : forall (i : nat) (m : gmap Z nat),
  index_from key i (l1 ++ l2) m
  = index_from key (i + length l1) l2 (index_from key i l1 m).
Proof.
  induction l1 as [|o r IH]; intros i m; cbn [app index_from length].
  - now rewrite Nat.add_0_r.
  - rewrite IH. f_equal. lia.
Qed.

Lemma index_by_last_occurrence (key : CompositeObject.t -> Z)
    (l1 l2 : list CompositeObject.t) (x : CompositeObject.t) :
  Forall (fun y => key x < key y) l2 ->
  index_by key (l1 ++ x :: l2) !! key x = Some (length l1).
Proof.
  intros Hl2. unfold index_by. rewrite index_from_app. cbn [index_from Nat.add].
  rewrite index_from_absent.
  - apply lookup_insert_eq.
  - intros Hin. change (map key l2) with (key <$> l2) in Hin.
    apply list_elem_of_fmap in Hin as (y & Hy & Hyin).
    rewrite Forall_forall in Hl2. specialize (Hl2 y Hyin). lia.
Qed.

(** X11. In a catalog sorted by sequence, the object just added is the one
    that [get_object_by_sequence] returns for its sequence, also when
    older objects have the same sequence: the newest object shadows
    them. *)
Theorem added_object_is_found_by_sequence (c : CatalogBase.t) (h : Heap)
    (obj : CompositeObject.t) :
  (CatalogBase.objects c < length h)%nat ->
  CatalogBase.sort c = catalog_base_sequence_sort ->
  let s := (CatalogBase.add_object obj (c, h)).2 in
  CatalogBase.get_object_by_sequence s.1 s.2 (CompositeObject.sequence obj)
  = Ok obj.
Proof.
  intros Hr Hsort. cbv zeta. rewrite add_object_eq by exact Hr. cbn [fst snd].
  rewrite Hsort, sort_by_snoc.
  destruct (insert_last_split catalog_base_sequence_sort obj
              (sort_by catalog_base_sequence_sort (CatalogBase.contents c h))
              (sort_by_sorted _ _)) as (l1 & l2 & E & Hl2).
  rewrite E.
  unfold CatalogBase.get_object_by_sequence.
  cbn [reindexed CatalogBase.sequence_to_pos].
  rewrite contents_reindexed by exact Hr.
  unfold py_dict_get.
  rewrite (index_by_last_occurrence CompositeObject.sequence l1 l2 obj Hl2).
  cbn [exc_bind]. apply py_getitem_lookup.
  rewrite lookup_app_r, Nat.sub_diag by lia. reflexivity.
Qed.

Lemma added_object_is_found_by_sequence_witness :
  (CatalogBase.objects messier_base < length [[messier_31]])%nat
  /\ CatalogBase.sort messier_base = catalog_base_sequence_sort
  /\ CatalogBase.get_object_by_sequence
       (CatalogBase.add_object messier_31_again
          (messier_base, [[messier_31]])).2.1
       (CatalogBase.add_object messier_31_again
          (messier_base, [[messier_31]])).2.2
       31
     = Ok messier_31_again.
Proof.
  assert (Hr : (CatalogBase.objects messier_base < length [[messier_31]])%nat)
    by (cbn; lia).
  assert (Hs : CatalogBase.sort messier_base = catalog_base_sequence_sort)
    by reflexivity.
  split; [exact Hr|]. split; [exact Hs|].
  apply (added_object_is_found_by_sequence messier_base [[messier_31]]
           messier_31_again Hr Hs).
Defined.

Section CatalogFiltering.

Variable parse_float : string -> option Q.
Variable radec_to_altaz : CatalogFilter.FastAltAz -> Q -> Q -> Q.

(** X12. When the filter of a catalog returns, [filter_objects] stores
    the result in a new list: [filtered_objects] no longer names the
    object list, the object list is as before, the filtered objects are
    a sublist of it (so the filtered count is at most the count),
    [last_filtered] is the time of the call, and an object added
    afterwards goes to the object list and leaves the filtered list as
    it was. *)
Theorem filter_objects_stores_a_new_list
    (shared_state : SharedState.t) (now : Q) (c : Catalog.t) (h : Heap)
    (kept : list CompositeObject.t) (later : CompositeObject.t) :
  (Catalog.get_objects c < length h)%nat ->
  (CatalogFilter.apply parse_float radec_to_altaz shared_state
     (heap_read h (Catalog.get_objects c)) (Catalog.catalog_filter c)).1
  = Ok kept ->
  let s := Catalog.filter_objects parse_float radec_to_altaz shared_state now
             (c, h) in
  s.1 = Ok (Catalog.filtered_objects s.2.1)
  /\ Catalog.filtered_objects s.2.1 <> Catalog.get_objects s.2.1
  /\ Catalog.filtered s.2.1 s.2.2 = kept
  /\ sublist kept (heap_read h (Catalog.get_objects c))
  /\ heap_read s.2.2 (Catalog.get_objects s.2.1)
     = heap_read h (Catalog.get_objects c)
  /\ Catalog.last_filtered s.2.1 = now
  /\ (Catalog.get_filtered_count s.2.1 s.2.2
      <= CatalogBase.get_count (Catalog.base s.2.1) s.2.2)%nat
  /\ let s' := (Catalog.add_object later s.2).2 in
     Catalog.filtered s'.1 s'.2 = kept
     /\ later ∈ heap_read s'.2 (Catalog.get_objects s'.1).
Proof.
  intros Hr Hap. cbv zeta.
  pose proof (apply_result_sublist parse_float radec_to_altaz
                shared_state _ kept _ Hap) as Hsub.
  unfold Catalog.filter_objects.
  destruct (CatalogFilter.apply parse_float radec_to_altaz shared_state
              (heap_read h (Catalog.get_objects c)) (Catalog.catalog_filter c))
    as [r f] eqn:E.
  cbn [fst] in Hap. subst r. cbn [heap_alloc fst snd].
  unfold Catalog.get_objects, CatalogBase.get_objects in *.
  cbn [Catalog.base Catalog.filtered_objects Catalog.last_filtered].
  assert (Hnew : heap_read (h ++ [kept]) (length h) = kept).
  { unfold heap_read. rewrite lookup_app_r, Nat.sub_diag by lia. reflexivity. }
  assert (Hold : heap_read (h ++ [kept]) (CatalogBase.objects (Catalog.base c))
                 = heap_read h (CatalogBase.objects (Catalog.base c))).
  { unfold heap_read. now rewrite lookup_app_l. }
  split; [reflexivity|]. split; [lia|].
  unfold Catalog.filtered. cbn [Catalog.filtered_objects].
  split; [exact Hnew|]. split; [exact Hsub|]. split; [exact Hold|].
  split; [reflexivity|]. split.
  - unfold Catalog.get_filtered_count, Catalog.filtered, CatalogBase.get_count,
      CatalogBase.contents.
    cbn [Catalog.filtered_objects]. rewrite Hnew, Hold.
    now apply sublist_length.
  - unfold Catalog.add_object, Catalog.inherited. cbn [Catalog.base].
    assert (Hr' : (CatalogBase.objects (Catalog.base c)
                   < length (h ++ [kept]))%nat)
      by (rewrite length_app; lia).
    rewrite add_object_eq by exact Hr'.
    cbn [fst snd Catalog.base Catalog.filtered_objects reindexed
         CatalogBase.objects].
    rewrite heap_read_write_ne by lia.
    rewrite heap_read_write_eq by exact Hr'.
    split; [exact Hnew|].
    rewrite sort_by_Permutation, elem_of_app, list_elem_of_singleton. tauto.
Qed.



End CatalogFiltering.

Lemma filter_objects_stores_a_new_list_witness :
  (Catalog.get_objects configured_messier < length [[messier_13; messier_31]])%nat
  /\ (CatalogFilter.apply no_float level_horizon complete_context
        (heap_read [[messier_13; messier_31]]
           (Catalog.get_objects configured_messier))
        (Catalog.catalog_filter configured_messier)).1 = Ok [messier_31]
  /\ Catalog.filtered
       (Catalog.filter_objects no_float level_horizon complete_context 1%Q
          (configured_messier, [[messier_13; messier_31]])).2.1
       (Catalog.filter_objects no_float level_horizon complete_context 1%Q
          (configured_messier, [[messier_13; messier_31]])).2.2
     = [messier_31].
Proof.
  assert (H1 : (Catalog.get_objects configured_messier
                < length [[messier_13; messier_31]])%nat) by (cbn; lia).
  assert (H2 : (CatalogFilter.apply no_float level_horizon complete_context
                  (heap_read [[messier_13; messier_31]]
                     (Catalog.get_objects configured_messier))
                  (Catalog.catalog_filter configured_messier)).1
               = Ok [messier_31]) by (vm_compute; reflexivity).
  split; [exact H1|]. split; [exact H2|].
  apply (filter_objects_stores_a_new_list no_float level_horizon
           complete_context 1%Q configured_messier
           [[messier_13; messier_31]] [messier_31] messier_13 H1 H2).
Defined.

(** ** Catalogs: names, duplicates, repeated adds *)

Lemma first_codes_snoc (l : list string) (k : string) :
  first_codes (l ++ [k])
  = if decide (k ∈ l) then first_codes l else first_codes l ++ [k].
Proof.
  induction l as [|x r IH].
  - cbn. rewrite decide_False by apply not_elem_of_nil. reflexivity.
  - cbn [app first_codes]. rewrite IH.
    destruct (decide (k ∈ r)) as [Hr|Hr].
    + rewrite decide_True by (apply elem_of_cons; tauto). reflexivity.
    + rewrite filter_app.
      destruct (decide (k = x)) as [->|Hne].
      * rewrite decide_True by (apply elem_of_cons; tauto).
        rewrite filter_cons_False, filter_nil, app_nil_r by tauto. reflexivity.
      * rewrite decide_False by (rewrite elem_of_cons; tauto).
        rewrite filter_cons_True, filter_nil by exact Hne. reflexivity.
Qed.

Lemma elem_of_first_codes (l : list string) (k : string) :
  k ∈ first_codes l <-> k ∈ l.
Proof.
  induction l as [|x r IH]; cbn [first_codes]; [reflexivity|].
  rewrite !elem_of_cons, list_elem_of_filter, IH.
  destruct (decide (k = x)); tauto.
Qed.

Lemma NoDup_first_codes (l : list string) : NoDup (first_codes l).
Proof.
  induction l as [|x r IH]; cbn [first_codes]; [constructor|].
  constructor.
  - rewrite list_elem_of_filter. tauto.
  - now apply NoDup_filter.
Qed.

Lemma first_codes_NoDup (l : list string) : NoDup l -> first_codes l = l.
Proof.
  induction l as [|x r IH] using rev_ind; intros Hnd; [reflexivity|].
  apply NoDup_app in Hnd as (Hr & Hx & _).
  rewrite first_codes_snoc, decide_False, IH by (try exact Hr; intros Hin;
    apply (Hx x Hin); constructor).
  reflexivity.
Qed.

Lemma dict_keys_set_eq {V : Type} (d : list (string * V)) (k : string) (v : V) :
  dict_keys (dict_set d k v)
  = if decide (k ∈ dict_keys d) then dict_keys d else dict_keys d ++ [k].
Proof.
  unfold dict_keys. induction d as [|[k0 v0] d IH]; cbn [dict_set].
  - rewrite decide_False by apply not_elem_of_nil. reflexivity.
  - destruct (decide (k0 = k)) as [->|Hne].
    + rewrite decide_True by (cbn; constructor). reflexivity.
    + cbn [fmap list_fmap fst].
      change (list_fmap _ _ fst (dict_set d k v)) with ((dict_set d k v).*1).
      change (list_fmap _ _ fst d) with (d.*1).
      rewrite IH. destruct (decide (k ∈ d.*1)) as [Hin|Hout].
      * rewrite decide_True by (apply elem_of_cons; tauto). reflexivity.
      * rewrite decide_False by (rewrite elem_of_cons; intros [?|?]; congruence).
        reflexivity.
Qed.

Lemma dict_keys_build_dict_eq (l : list Catalog.t) :
  dict_keys (Catalogs.build_dict l) = first_codes (codes l).
Proof.
  induction l as [|c l IH] using rev_ind; [reflexivity|].
  rewrite build_dict_snoc, dict_keys_set_eq.
  unfold codes at 1. rewrite map_app. cbn [map]. rewrite first_codes_snoc.
  fold (codes l).
  rewrite IH.
  destruct (decide (Catalog.catalog_code c ∈ first_codes (codes l))) as [H|H];
    [rewrite decide_True by (now apply elem_of_first_codes)
    |rewrite decide_False by (now rewrite <- elem_of_first_codes)];
    reflexivity.
Qed.

Lemma dict_lookup_build_dict (l : list Catalog.t) (k : string) :
  dict_lookup (Catalogs.build_dict l) k
  = last (filter (fun c => Catalog.catalog_code c = k) l).
Proof.
  induction l as [|c l IH] using rev_ind; [reflexivity|].
  rewrite build_dict_snoc, filter_app.
  destruct (decide (Catalog.catalog_code c = k)) as [<-|Hne].
  - rewrite dict_lookup_set_eq, filter_cons_True, filter_nil by reflexivity.
    now rewrite last_snoc.
  - rewrite dict_lookup_set_ne, filter_cons_False, filter_nil, app_nil_r
      by assumption.
    exact IH.
Qed.

(** X14. On a registry produced by the methods of the class, [get_names]
    returns every code once, in the order of the first catalog with that
    code, and [get_dict] maps a code to the last catalog of the list that
    has it; neither changes the list. *)
Theorem names_are_first_codes_dict_holds_last (r : Catalogs.t) :
  reachable r ->
  let l := Catalogs.catalogs r in
  (Catalogs.get_names r).1 = Ok (first_codes (codes l))
  /\ NoDup (first_codes (codes l))
  /\ (forall k, k ∈ first_codes (codes l) <-> k ∈ codes l)
  /\ (exists d, (Catalogs.get_dict r).1 = Ok d
                /\ dict_keys d = first_codes (codes l)
                /\ forall k, dict_lookup d k
                             = last (filter (fun c => Catalog.catalog_code c = k) l))
  /\ Catalogs.catalogs (Catalogs.get_names r).2 = l
  /\ Catalogs.catalogs (Catalogs.get_dict r).2 = l.
Proof.
  intros Hreach l. pose proof (reachable_cache_ok r Hreach) as Hok.
  unfold Catalogs.get_names, st_bind, st_ret.
  rewrite (get_dict_cache_ok r Hok). cbn [fst snd Catalogs.catalogs].
  fold l. rewrite dict_keys_build_dict_eq.
  split; [reflexivity|]. split; [apply NoDup_first_codes|].
  split; [intros k; apply elem_of_first_codes|].
  split; [|split; reflexivity].
  eexists. split; [reflexivity|]. split; [apply dict_keys_build_dict_eq|].
  intros k. apply dict_lookup_build_dict.
Qed.

Lemma add_all_state (cs : list Catalog.t) : forall (r : Catalogs.t),
  cache_ok r ->
  NoDup (codes (Catalogs.catalogs r)) ->
  cache_ok (add_all cs r)
  /\ NoDup (codes (Catalogs.catalogs (add_all cs r)))
  /\ codes (Catalogs.catalogs (add_all cs r))
     = first_codes (codes (Catalogs.catalogs r) ++ codes cs)
  /\ exists added, Catalogs.catalogs (add_all cs r)
                   = Catalogs.catalogs r ++ added
                   /\ sublist added cs.
Proof.
  induction cs as [|c cs IH]; intros r Hok Hnd.
  - cbn [add_all fold_left codes map]. rewrite app_nil_r.
    repeat split; try assumption.
    + symmetry. now apply first_codes_NoDup.
    + exists []. rewrite app_nil_r. split; [reflexivity|constructor].
  - unfold add_all. cbn [fold_left]. fold (add_all cs (Catalogs.add c r).2).
    rewrite (add_cache_ok r c Hok). cbn [snd].
    destruct (decide (Catalog.catalog_code c ∈ codes (Catalogs.catalogs r)))
      as [Hin|Hout].
    + rewrite bool_decide_eq_true_2 by exact Hin.
      destruct (IH (Catalogs.mk (Catalogs.catalogs r)
                      (Catalogs.build_dict (Catalogs.catalogs r))))
        as (Hok' & Hnd' & Hcodes & added & Hadd & Hsub).
      { right. reflexivity. }
      { exact Hnd. }
      cbn [Catalogs.catalogs] in *.
      split; [exact Hok'|]. split; [exact Hnd'|]. split.
      * rewrite Hcodes. cbn [codes map].
        change (Catalog.catalog_code c :: map Catalog.catalog_code cs)
          with ([Catalog.catalog_code c] ++ codes cs).
        rewrite !app_assoc.
        assert (E : first_codes (codes (Catalogs.catalogs r)
                                 ++ [Catalog.catalog_code c])
                    = first_codes (codes (Catalogs.catalogs r)))
          by (rewrite first_codes_snoc, decide_True by exact Hin; reflexivity).
        revert E. generalize (codes (Catalogs.catalogs r)
                              ++ [Catalog.catalog_code c]).
        generalize (codes (Catalogs.catalogs r)).
        intros a b E. clear -E.
        induction (codes cs) as [|k ks IHk] using rev_ind.
        -- now rewrite !app_nil_r.
        -- rewrite !app_assoc, !first_codes_snoc, IHk.
           assert (Hab : k ∈ a ++ ks <-> k ∈ b ++ ks).
           { rewrite !elem_of_app, <- (elem_of_first_codes a),
               <- (elem_of_first_codes b), E. tauto. }
           destruct (decide (k ∈ a ++ ks)) as [H1|H1];
             [rewrite decide_True by tauto|rewrite decide_False by tauto];
             reflexivity.
      * exists added. split; [exact Hadd|]. now constructor.
    + rewrite bool_decide_eq_false_2 by exact Hout.
      destruct (IH (Catalogs.mk (Catalogs.catalogs r ++ [c]) []))
        as (Hok' & Hnd' & Hcodes & added & Hadd & Hsub).
      { left. reflexivity. }
      { cbn [Catalogs.catalogs]. unfold codes. rewrite map_app.
        apply NoDup_app. split; [exact Hnd|]. split.
        - intros x Hx Hc. cbn in Hc. apply list_elem_of_singleton in Hc.
          subst x. contradiction.
        - cbn. apply NoDup_singleton. }
      cbn [Catalogs.catalogs] in *.
      split; [exact Hok'|]. split; [exact Hnd'|]. split.
      * rewrite Hcodes. unfold codes. rewrite map_app. cbn [map].
        rewrite <- app_assoc. reflexivity.
      * exists (c :: added). rewrite Hadd, <- app_assoc.
        split; [reflexivity|]. now constructor.
Qed.

(** X15. Adding catalogs one after the other to a registry with distinct
    codes keeps the codes distinct: the old catalogs stay in place, of the
    added catalogs those whose code was new at their turn follow in
    order, and [get_names] then lists exactly the codes of the list. *)
Theorem repeated_adds_keep_codes_unique (r : Catalogs.t) (cs : list Catalog.t) :
  reachable r ->
  NoDup (codes (Catalogs.catalogs r)) ->
  let r' := add_all cs r in
  NoDup (codes (Catalogs.catalogs r'))
  /\ codes (Catalogs.catalogs r')
     = first_codes (codes (Catalogs.catalogs r) ++ codes cs)
  /\ (exists added, Catalogs.catalogs r' = Catalogs.catalogs r ++ added
                    /\ sublist added cs)
  /\ (Catalogs.get_names r').1 = Ok (codes (Catalogs.catalogs r')).
Proof.
  intros Hreach Hnd r'. subst r'.
  destruct (add_all_state cs r (reachable_cache_ok r Hreach) Hnd)
    as (Hok & Hnd' & Hcodes & Hadded).
  split; [exact Hnd'|]. split; [exact Hcodes|]. split; [exact Hadded|].
  unfold Catalogs.get_names, st_bind, st_ret.
  rewrite (get_dict_cache_ok _ Hok). cbn [fst].
  rewrite dict_keys_build_dict_eq. f_equal. now apply first_codes_NoDup.
Qed.

Lemma names_are_first_codes_dict_holds_last_witness :
  reachable (Catalogs.init [messier_catalog; ngc_catalog; configured_messier])
  /\ (Catalogs.get_names
        (Catalogs.init [messier_catalog; ngc_catalog; configured_messier])).1
     = Ok ["M"; "NGC"].
Proof.
  assert (H : reachable (Catalogs.init
                           [messier_catalog; ngc_catalog; configured_messier]))
    by constructor.
  split; [exact H|].
  destruct (names_are_first_codes_dict_holds_last _ H) as [Hn _].
  rewrite Hn. vm_compute. reflexivity.
Defined.

Lemma repeated_adds_keep_codes_unique_witness :
  reachable (Catalogs.init [messier_catalog])
  /\ NoDup (codes (Catalogs.catalogs (Catalogs.init [messier_catalog])))
  /\ codes (Catalogs.catalogs
              (add_all [ngc_catalog; configured_messier]
                 (Catalogs.init [messier_catalog])))
     = ["M"; "NGC"].
Proof.
  assert (H1 : reachable (Catalogs.init [messier_catalog])) by constructor.
  assert (H2 : NoDup (codes (Catalogs.catalogs (Catalogs.init [messier_catalog]))))
    by (apply (bool_decide_unpack _); vm_compute; exact I).
  split; [exact H1|]. split; [exact H2|].
  destruct (repeated_adds_keep_codes_unique _ [ngc_catalog; configured_messier]
              H1 H2) as (_ & Hc & _).
  rewrite Hc. vm_compute. reflexivity.
Defined.

(** ** CatalogBuilder: grouping objects into catalogs *)

Lemma group_snoc (l : list CompositeObject.t) (o : CompositeObject.t) :
  CatalogBuilder._group (l ++ [o])
  = CatalogBuilder._group_step (CatalogBuilder._group l) o.
Proof. unfold CatalogBuilder._group. now rewrite fold_left_app. Qed.

Lemma group_lookup (objs : list CompositeObject.t) (code : string) :
  default [] (CatalogBuilder._group objs !! code)
  = filter (fun o => CompositeObject.catalog_code o = code) objs.
Proof.
  induction objs as [|o l IH] using rev_ind; [reflexivity|].
  rewrite group_snoc, filter_app. unfold CatalogBuilder._group_step.
  destruct (decide (CompositeObject.catalog_code o = code)) as [<-|Hne].
  - rewrite lookup_insert_eq, filter_cons_True, filter_nil by reflexivity.
    cbn [default]. now rewrite IH.
  - rewrite lookup_insert_ne, filter_cons_False, filter_nil, app_nil_r
      by assumption.
    exact IH.
Qed.

Lemma build_catalogs_state
    (d : gmap string (list CompositeObject.t))
    (infos : list (string * CatalogBuilder.CatalogInfo)) : forall (h : Heap),
  exists l h',
    CatalogBuilder._build_catalogs infos d h = (Ok l, h')
    /\ length l = length infos
    /\ length h' = (length h + length infos)%nat
    /\ (forall ref, (ref < length h)%nat -> h' !! ref = h !! ref)
    /\ forall i code info, infos !! i = Some (code, info) ->
         exists c, l !! i = Some c
                   /\ catalog_built c h' (length h + i) code info
                        (sort_by catalog_base_sequence_sort
                           (default [] (d !! code))).
Proof.
  induction infos as [|[code info] rest IH]; intros h.
  - exists [], h. cbn. repeat split; try lia. intros i c inf Hi. discriminate.
  - cbn [CatalogBuilder._build_catalogs].
    unfold st_bind at 1.
    change (Catalog.init code (CatalogBuilder.info_max_sequence info)
              (CatalogBuilder.info_desc info) h)
      with (Ok (Catalog.mk
                  (CatalogBase.mk code (CatalogBuilder.info_max_sequence info)
                     (CatalogBuilder.info_desc info)
                     catalog_base_sequence_sort (length h) None None)
                  CatalogFilter.init (length h) 0%Q), h ++ [[]]).
    cbv beta iota.
    set (c0 := Catalog.mk _ _ _ _).
    unfold st_bind at 1. unfold Catalog.add_objects, Catalog.inherited.
    assert (Hr : (CatalogBase.objects (Catalog.base c0)
                  < length (h ++ [[]]))%nat)
      by (cbn; rewrite length_app; cbn; lia).
    rewrite add_objects_eq by exact Hr.
    assert (Hempty : CatalogBase.contents (Catalog.base c0) (h ++ [[]]) = []).
    { unfold CatalogBase.contents, heap_read. cbn.
      rewrite lookup_app_r, Nat.sub_diag by lia. reflexivity. }
    rewrite Hempty. cbn [app exc_bind].
    set (sorted := sort_by _ (default [] (d !! code))).
    set (h1 := heap_write (h ++ [[]]) _ sorted).
    assert (Hlen1 : length h1 = S (length h)).
    { unfold h1. rewrite length_heap_write, length_app. cbn. lia. }
    destruct (IH h1) as (l & h' & Hrun & Hl & Hh' & Hframe & Hcats).
    unfold st_bind. rewrite Hrun. unfold st_ret.
    eexists _, h'. split; [reflexivity|].
    split; [cbn; lia|]. split; [cbn [length]; lia|]. split.
    + intros ref Href. rewrite Hframe by lia.
      unfold h1, heap_write. cbn [Catalog.base c0 CatalogBase.objects reindexed].
      rewrite list_lookup_insert_ne by lia. now rewrite lookup_app_l.
    + intros i code' info' Hi. destruct i as [|i].
      * injection Hi as <- <-. eexists. split; [reflexivity|].
        unfold catalog_built.
        cbn [Catalog.catalog_code Catalog.max_sequence Catalog.base
             Catalog.get_objects CatalogBase.get_objects
             Catalog.filtered_objects Catalog.catalog_filter reindexed
             CatalogBase.catalog_code CatalogBase.max_sequence
             CatalogBase.desc CatalogBase.objects CatalogBase.id_to_pos
             CatalogBase.sequence_to_pos c0].
        rewrite Nat.add_0_r. repeat split.
        unfold heap_read. rewrite Hframe by lia.
        unfold h1, heap_write.
        cbn [Catalog.base c0 CatalogBase.objects].
        rewrite list_lookup_insert_eq by (rewrite length_app; cbn; lia).
        reflexivity.
      * destruct (Hcats i code' info' Hi) as (c & Hc & Hb).
        exists c. split; [exact Hc|].
        rewrite Hlen1 in Hb.
        replace (length h + S i)%nat with (S (length h) + i)%nat by lia.
        exact Hb.
Qed.

(** X16. [_get_catalogs] builds one catalog per entry of the metadata, in
    order and each with a list of its own: the catalog has the code,
    maximal sequence and description of the entry, its objects are the
    composite objects with that code sorted stably by sequence (none for
    a code without objects), both indices are built from that list,
    [filtered_objects] names the same list and the filter is unset; the
    registry starts without cached map, and objects whose code is not in
    the metadata are in no catalog. *)
Theorem get_catalogs_groups_by_code
    (composite_objects : list CompositeObject.t)
    (catalogs_info : list (string * CatalogBuilder.CatalogInfo)) (h : Heap) :
  exists r h',
    CatalogBuilder._get_catalogs composite_objects catalogs_info h = (Ok r, h')
    /\ Catalogs.catalog_dict r = []
    /\ codes (Catalogs.catalogs r) = catalogs_info.*1
    /\ (forall ref, (ref < length h)%nat -> heap_read h' ref = heap_read h ref)
    /\ (forall i code info, catalogs_info !! i = Some (code, info) ->
          exists c, Catalogs.catalogs r !! i = Some c
                    /\ catalog_built c h' (length h + i) code info
                         (sort_by catalog_base_sequence_sort
                            (filter (fun o => CompositeObject.catalog_code o
                                              = code) composite_objects)))
    /\ (forall o c, c ∈ Catalogs.catalogs r ->
          o ∈ heap_read h' (Catalog.get_objects c) ->
          o ∈ composite_objects
          /\ CompositeObject.catalog_code o = Catalog.catalog_code c).
Proof.
  destruct (build_catalogs_state (CatalogBuilder._group composite_objects)
              catalogs_info h) as (l & h' & Hrun & Hl & Hh' & Hframe & Hcats).
  exists (Catalogs.init l), h'.
  unfold CatalogBuilder._get_catalogs, st_bind. rewrite Hrun. unfold st_ret.
  assert (Hbuilt : forall i code info, catalogs_info !! i = Some (code, info) ->
            exists c, l !! i = Some c
              /\ catalog_built c h' (length h + i) code info
                   (sort_by catalog_base_sequence_sort
                      (filter (fun o => CompositeObject.catalog_code o = code)
                         composite_objects))).
  { intros i code info Hi. destruct (Hcats i code info Hi) as (c & Hc & Hb).
    exists c. split; [exact Hc|]. now rewrite group_lookup in Hb. }
  split; [reflexivity|]. split; [reflexivity|]. split; [|split; [|split]].
  - cbn [Catalogs.init Catalogs.catalogs].
    apply list_eq. intros i. unfold codes.
    change (map Catalog.catalog_code l) with (Catalog.catalog_code <$> l).
    rewrite !list_lookup_fmap.
    destruct (catalogs_info !! i) as [[code info]|] eqn:Hi.
    + destruct (Hbuilt i code info Hi) as (c & Hc & Hcode & _).
      rewrite Hc. cbn. now rewrite Hcode.
    + apply lookup_ge_None in Hi. rewrite lookup_ge_None_2 by lia. reflexivity.
  - intros ref Href. unfold heap_read. now rewrite Hframe.
  - exact Hbuilt.
  - intros o c Hc Ho. cbn [Catalogs.init Catalogs.catalogs] in Hc.
    apply list_elem_of_lookup in Hc as [i Hi].
    pose proof (lookup_lt_Some _ _ _ Hi) as Hlt. rewrite Hl in Hlt.
    destruct (lookup_lt_is_Some_2 catalogs_info i Hlt) as [[code info] Hinfo].
    destruct (Hbuilt i code info Hinfo)
      as (c' & Hc' & Hcode & _ & _ & Hobj & _ & Hread & _).
    rewrite Hi in Hc'. injection Hc' as <-.
    rewrite Hobj, Hread, sort_by_Permutation in Ho.
    apply list_elem_of_filter in Ho as [Hoc Ho].
    split; [exact Ho|congruence].
Qed.

(** ** CatalogTracker: stepping, storing and walking *)

(** The part of the tracker that navigation within a catalog leaves
    alone. *)
Lemma stored_state_frame (t t1 : CatalogTracker.t) (next_key : option Z)
    (x : gmap string CatalogDesignator.t) (filtered : bool) :
  t1 = CatalogTracker.with_designators t x ->
  is_Some (x !! CatalogTracker.current_catalog_name t) ->
  tracker_ready t filtered ->
  let res := st_bind (CatalogTracker.set_current_object next_key None)
               (fun _ => CatalogTracker.get_current_object) t1 in
  tracker_ready res.2 filtered
  /\ active_ids res.2 filtered = active_ids t filtered
  /\ catalog_objects res.2 = catalog_objects t
  /\ CatalogTracker.catalogs res.2 = CatalogTracker.catalogs t
  /\ CatalogTracker.current_catalog_name res.2
     = CatalogTracker.current_catalog_name t
  /\ (forall k, k <> CatalogTracker.current_catalog_name t ->
        CatalogTracker.object_tracker res.2 !! k
        = CatalogTracker.object_tracker t !! k).
Proof.
  intros -> [d Hd] (_ & Hidx & Hsub) res. subst res.
  unfold st_bind.
  rewrite (set_current_object_here _ next_key d) by exact Hd.
  unfold CatalogTracker.get_current_object.
  destruct (py_dict_get _ _) as [[k|]|e]; cbn [fst snd];
    (split; [split; [|split]|]);
    try (unfold tracker_ready, active_ids, active_list, catalog_objects;
         cbn [CatalogTracker.with_designators CatalogTracker.with_objects
              CatalogTracker.designator_tracker CatalogTracker.current_catalog
              CatalogTracker.current_catalog_name CatalogTracker.heap
              CatalogTracker.object_tracker CatalogTracker.catalogs]);
    try (rewrite lookup_insert_eq; eauto; fail);
    try exact Hidx; try exact Hsub;
    (repeat split; try reflexivity;
     intros k0 Hk0; now rewrite lookup_insert_ne by congruence).
Qed.

Lemma lands_after_store (t t1 : CatalogTracker.t) (key : Z)
    (x : gmap string CatalogDesignator.t) (filtered : bool) :
  t1 = CatalogTracker.with_designators t x ->
  is_Some (x !! CatalogTracker.current_catalog_name t) ->
  tracker_ready t filtered ->
  key ∈ active_ids t filtered ->
  lands_on t (st_bind (CatalogTracker.set_current_object (Some key) None)
                (fun _ => CatalogTracker.get_current_object) t1) key.
Proof.
  intros -> Hx (_ & Hidx & Hsub) Hkey.
  set (t1 := CatalogTracker.with_designators t x).
  destruct (store_and_read_back t1 (Some key)) as (Htk & Hdn & Hres).
  { exact Hx. }
  assert (Hin : key ∈ map CompositeObject.sequence (catalog_objects t)).
  { unfold active_ids in Hkey.
    change (map CompositeObject.sequence (active_list t filtered))
      with (CompositeObject.sequence <$> active_list t filtered) in Hkey.
    apply list_elem_of_fmap in Hkey as (y & -> & Hy).
    change (map CompositeObject.sequence (catalog_objects t))
      with (CompositeObject.sequence <$> catalog_objects t).
    apply list_elem_of_fmap_2. now apply Hsub. }
  destruct (get_object_by_sequence_indexed
              (Catalog.base (CatalogTracker.current_catalog t))
              (CatalogTracker.heap t) key Hidx Hin) as (o & Hget_o & Hseq & Ho).
  exists o. rewrite Hres.
  change (Catalog.get_object_by_sequence (CatalogTracker.current_catalog t1)
            (CatalogTracker.heap t1) key)
    with (CatalogBase.get_object_by_sequence
            (Catalog.base (CatalogTracker.current_catalog t))
            (CatalogTracker.heap t) key).
  rewrite Hget_o. cbn [exc_bind].
  repeat split; try assumption.
  intros Hnd y Hy Hys. apply (unique_by_sequence (catalog_objects t));
    [exact Hnd|exact Hy|exact Ho|congruence].
Qed.

(** A step within the active list. *)
Lemma next_object_step (t : CatalogTracker.t) (direction : Z)
    (filtered : bool) (k : Z) (d : CatalogDesignator.t) (i : nat) (key : Z) :
  tracked_key t = Some (Some k) ->
  CatalogTracker.designator_tracker t !! CatalogTracker.current_catalog_name t
  = Some d ->
  k ∈ active_ids t filtered ->
  py_list_index (active_ids t filtered) k = Ok i ->
  (Z.of_nat i + direction =? -1)
  || (Z.of_nat (length (active_ids t filtered)) <=? Z.of_nat i + direction)
  = false ->
  py_getitem (active_ids t filtered)
    ((Z.of_nat i + direction) mod Z.of_nat (length (active_ids t filtered)))
  = Ok key ->
  CatalogTracker.next_object direction filtered t
  = st_bind (CatalogTracker.set_current_object (Some key) None)
      (fun _ => CatalogTracker.get_current_object)
      (CatalogTracker.with_designators t
         (<[CatalogTracker.current_catalog_name t :=
              CatalogDesignator.set_number d key]>
            (CatalogTracker.designator_tracker t))).
Proof.
  unfold tracked_key. intros Hck Hd Hk Hidx Hend Hget.
  step_next_object t filtered. rewrite Hck, Hd.
  rewrite bool_decide_eq_true_2 by exact Hk.
  rewrite Hidx, Hend, Hget, (designator_set_number_some _ _ d) by exact Hd.
  reflexivity.
Qed.

Lemma py_list_index_middle (pre post : list Z) (k : Z) :
  k ∉ pre -> py_list_index (pre ++ k :: post) k = Ok (length pre).
Proof.
  induction pre as [|y r IH]; intros Hk; cbn [app py_list_index length].
  - now rewrite decide_True.
  - apply not_elem_of_cons in Hk as [Hne Hk].
    rewrite decide_False by congruence. now rewrite IH.
Qed.

(** X17. From a tracked object that occurs first at position [i] of the
    active list, [next_object] with any direction whose target position
    [i + direction] is neither -1 nor beyond the end sets and returns the
    object at position [(i + direction) mod n]: the following object for
    1, the preceding one for -1, and for a step further back than the
    start (position -2 or less) an object counted from the end of the
    list, since only position -1 clears the tracked object. *)
Theorem next_object_steps_within_list
    (t : CatalogTracker.t) (filtered : bool) (direction : Z) (k : Z)
    (pre post : list Z) :
  tracker_ready t filtered ->
  tracked_key t = Some (Some k) ->
  active_ids t filtered = pre ++ k :: post ->
  k ∉ pre ->
  Z.of_nat (length pre) + direction <> -1 ->
  Z.of_nat (length pre) + direction < Z.of_nat (length (pre ++ k :: post)) ->
  exists key,
    (pre ++ k :: post)
      !! Z.to_nat ((Z.of_nat (length pre) + direction)
                   mod Z.of_nat (length (pre ++ k :: post))) = Some key
    /\ lands_on t (CatalogTracker.next_object direction filtered t) key
    /\ (direction = 1 -> head post = Some key)
    /\ (direction = -1 -> last pre = Some key).
Proof.
  intros Hready Hck Hids Hk Hne Hlt.
  set (ids := pre ++ k :: post) in *.
  set (n := Z.of_nat (length ids)) in *.
  assert (Hn : 0 < n).
  { unfold n, ids. rewrite length_app. cbn [length]. lia. }
  pose proof (Z.mod_pos_bound (Z.of_nat (length pre) + direction) n Hn) as Hm.
  set (j := (Z.of_nat (length pre) + direction) mod n) in *.
  destruct (lookup_lt_is_Some_2 ids (Z.to_nat j)) as [key Hkey].
  { unfold n in Hm. lia. }
  exists key. split; [exact Hkey|].
  assert (Hget : py_getitem ids j = Ok key).
  { replace j with (Z.of_nat (Z.to_nat j)) by lia.
    now apply py_getitem_lookup. }
  destruct Hready as ([d Hd] & Hidx & Hsub).
  split; [|split].
  - rewrite (next_object_step t direction filtered k d (length pre) key
               Hck Hd).
    + apply (lands_after_store t _ key _ filtered eq_refl).
      * rewrite lookup_insert_eq. eauto.
      * split; [eauto|]. split; assumption.
      * rewrite Hids. apply list_elem_of_lookup. eauto.
    + rewrite Hids. unfold ids. rewrite elem_of_app, elem_of_cons. tauto.
    + rewrite Hids. now apply py_list_index_middle.
    + rewrite Hids. fold ids. fold n.
      apply orb_false_intro; [apply Z.eqb_neq|apply Z.leb_gt]; lia.
    + rewrite Hids. fold ids. fold n. exact Hget.
  - intros ->. unfold j in Hkey.
    assert (Hpost : post <> []).
    { intros ->. unfold n, ids in Hlt. rewrite length_app in Hlt.
      cbn [length] in Hlt. lia. }
    rewrite Z.mod_small in Hkey by lia.
    replace (Z.to_nat (Z.of_nat (length pre) + 1)) with (length pre + 1)%nat
      in Hkey by lia.
    unfold ids in Hkey. rewrite lookup_app_r in Hkey by lia.
    replace (length pre + 1 - length pre)%nat with 1%nat in Hkey by lia.
    destruct post; [congruence|exact Hkey].
  - intros ->. unfold j in Hkey.
    assert (Hpre : (0 < length pre)%nat) by lia.
    rewrite Z.mod_small in Hkey by lia.
    unfold ids in Hkey. rewrite lookup_app_l in Hkey by lia.
    rewrite last_lookup.
    replace (pred (length pre)) with (Z.to_nat (Z.of_nat (length pre) + -1))
      by lia.
    exact Hkey.
Qed.

Lemma next_object_steps_within_list_witness :
  tracker_ready (ngc_tracker (Some 5)) true
  /\ tracked_key (ngc_tracker (Some 5)) = Some (Some 5)
  /\ active_ids (ngc_tracker (Some 5)) true = [] ++ 5 :: [12; 47]
  /\ (5 ∉ ([] : list Z))
  /\ Z.of_nat (length ([] : list Z)) + -2 <> -1
  /\ Z.of_nat (length ([] : list Z)) + -2
     < Z.of_nat (length ([] ++ 5 :: [12; 47]))
  /\ lands_on (ngc_tracker (Some 5))
       (CatalogTracker.next_object (-2) true (ngc_tracker (Some 5))) 12.
Proof.
  pose proof (ngc_tracker_ready (Some 5) true) as H1.
  assert (H2 : tracked_key (ngc_tracker (Some 5)) = Some (Some 5))
    by apply lookup_singleton_eq.
  assert (H3 : active_ids (ngc_tracker (Some 5)) true = [] ++ 5 :: [12; 47])
    by reflexivity.
  assert (H4 : 5 ∉ ([] : list Z)) by apply not_elem_of_nil.
  assert (H5 : Z.of_nat (length ([] : list Z)) + -2 <> -1) by (cbn; lia).
  assert (H6 : Z.of_nat (length ([] : list Z)) + -2
               < Z.of_nat (length ([] ++ 5 :: [12; 47]))) by (cbn; lia).
  repeat (split; [assumption|]).
  destruct (next_object_steps_within_list (ngc_tracker (Some 5)) true (-2) 5
              [] [12; 47] H1 H2 H3 H4 H5 H6) as (key & Hkey & Hland & _).
  vm_compute in Hkey. injection Hkey as <-. exact Hland.
Defined.

(** X18. On an empty active list [next_object] raises [IndexError] in
    either direction and changes nothing, whatever object is tracked. *)
Theorem next_object_on_empty_list_raises
    (t : CatalogTracker.t) (filtered : bool) (direction : Z) (ck : option Z) :
  tracked_key t = Some ck ->
  is_Some (CatalogTracker.designator_tracker t
             !! CatalogTracker.current_catalog_name t) ->
  active_list t filtered = [] ->
  CatalogTracker.next_object direction filtered t = (Raise IndexError, t).
Proof.
  unfold tracked_key. intros Hck [d Hd] Hempty.
  assert (Hids : active_ids t filtered = [])
    by (unfold active_ids; now rewrite Hempty).
  step_next_object t filtered. rewrite Hck, Hd, Hids.
  destruct ck as [k|].
  - rewrite bool_decide_eq_false_2 by apply not_elem_of_nil.
    destruct (direction =? 1); reflexivity.
  - destruct (direction =? 1); reflexivity.
Qed.

Lemma next_object_on_empty_list_raises_witness :
  tracked_key (vacant_tracker (Some 7)) = Some (Some 7)
  /\ is_Some (CatalogTracker.designator_tracker (vacant_tracker (Some 7))
                !! CatalogTracker.current_catalog_name (vacant_tracker (Some 7)))
  /\ active_list (vacant_tracker (Some 7)) true = []
  /\ CatalogTracker.next_object (-1) true (vacant_tracker (Some 7))
     = (Raise IndexError, vacant_tracker (Some 7)).
Proof.
  assert (H1 : tracked_key (vacant_tracker (Some 7)) = Some (Some 7))
    by apply lookup_singleton_eq.
  assert (H2 : is_Some (CatalogTracker.designator_tracker (vacant_tracker (Some 7))
                          !! CatalogTracker.current_catalog_name
                               (vacant_tracker (Some 7)))).
  { eexists. apply lookup_singleton_eq. }
  assert (H3 : active_list (vacant_tracker (Some 7)) true = []) by reflexivity.
  repeat (split; [assumption|]).
  exact (next_object_on_empty_list_raises (vacant_tracker (Some 7)) true (-1)
           (Some 7) H1 H2 H3).
Defined.

(** ** CatalogTracker: construction and moving between catalogs *)

Lemma get_names_cache_ok (r : Catalogs.t) :
  cache_ok r ->
  Catalogs.get_names r
  = (Ok (first_codes (codes (Catalogs.catalogs r))), registry_read r).
Proof.
  intros Hok. unfold Catalogs.get_names, st_bind, st_ret.
  rewrite get_dict_cache_ok by exact Hok.
  now rewrite dict_keys_build_dict_eq.
Qed.

Lemma registry_read_cache_ok (r : Catalogs.t) : cache_ok (registry_read r).
Proof. right. reflexivity. Qed.

Lemma dict_lookup_is_Some {V : Type} (d : list (string * V)) (k : string) :
  k ∈ dict_keys d <-> is_Some (dict_lookup d k).
Proof.
  unfold dict_keys. induction d as [|[k' v] d IH]; cbn [dict_lookup fmap list_fmap fst].
  - split; [intros H; inversion H|intros [x Hx]; discriminate].
  - rewrite elem_of_cons. destruct (decide (k' = k)) as [->|Hne].
    + split; [eauto|tauto].
    + rewrite <- IH. split; [intros [E|E]; congruence|tauto].
Qed.

Lemma registered_is_Some (r : Catalogs.t) (k : string) :
  k ∈ codes (Catalogs.catalogs r) <-> is_Some (registered r k).
Proof.
  unfold registered. now rewrite <- dict_lookup_is_Some, dict_keys_build_dict.
Qed.

Lemma names_cache_ok (t : CatalogTracker.t) :
  cache_ok (CatalogTracker.catalogs t) ->
  CatalogTracker.names t
  = (Ok (first_codes (codes (Catalogs.catalogs (CatalogTracker.catalogs t)))),
     CatalogTracker.with_catalogs t (registry_read (CatalogTracker.catalogs t))).
Proof.
  intros Hok. unfold CatalogTracker.names, CatalogTracker.on_catalogs.
  now rewrite get_names_cache_ok.
Qed.

Lemma tracker_dict_cache_ok (t : CatalogTracker.t) :
  cache_ok (CatalogTracker.catalogs t) ->
  CatalogTracker.dict t
  = (Ok (Catalogs.build_dict (Catalogs.catalogs (CatalogTracker.catalogs t))),
     CatalogTracker.with_catalogs t (registry_read (CatalogTracker.catalogs t))).
Proof.
  intros Hok. unfold CatalogTracker.dict, CatalogTracker.on_catalogs.
  now rewrite get_dict_cache_ok.
Qed.

(** Selecting a registered catalog: the state afterwards. *)
Lemma set_current_catalog_found (t : CatalogTracker.t) (name : string)
    (c : Catalog.t) :
  cache_ok (CatalogTracker.catalogs t) ->
  registered (CatalogTracker.catalogs t) name = Some c ->
  CatalogTracker.set_current_catalog name t
  = (Ok tt,
     CatalogTracker.with_current
       (CatalogTracker.with_catalogs t
          (registry_read (CatalogTracker.catalogs t))) c name).
Proof.
  intros Hok Hc.
  assert (Hkeys : bool_decide
            (name ∈ dict_keys
               (Catalogs.build_dict
                  (Catalogs.catalogs (CatalogTracker.catalogs t)))) = true).
  { apply bool_decide_eq_true_2, dict_lookup_is_Some. unfold registered in Hc.
    rewrite Hc. eauto. }
  set (t1 := CatalogTracker.with_catalogs t
               (registry_read (CatalogTracker.catalogs t))).
  assert (Hd1 : CatalogTracker.dict t1
                = (Ok (Catalogs.build_dict
                         (Catalogs.catalogs (CatalogTracker.catalogs t))), t1)).
  { unfold t1. rewrite tracker_dict_cache_ok by apply registry_read_cache_ok.
    reflexivity. }
  unfold CatalogTracker.set_current_catalog.
  cbv beta iota zeta delta [st_bind st_ret st_lift st_modify].
  rewrite (tracker_dict_cache_ok _ Hok). fold t1. rewrite Hkeys, Hd1, Hkeys, Hd1.
  unfold dict_getitem. unfold registered in Hc. rewrite Hc. reflexivity.
Qed.

Lemma get_current_object_not_assertion (t : CatalogTracker.t) :
  (CatalogTracker.get_current_object t).1 <> Raise AssertionError.
Proof.
  unfold CatalogTracker.get_current_object, py_dict_get.
  destruct (CatalogTracker.object_tracker t !! _) as [[k|]|]; cbn [fst];
    try discriminate.
  unfold Catalog.get_object_by_sequence, CatalogBase.get_object_by_sequence.
  destruct (CatalogBase.sequence_to_pos _) as [m|]; [|discriminate].
  unfold py_dict_get. destruct (m !! k) as [pos|]; [|discriminate].
  cbn [exc_bind]. unfold py_getitem.
  destruct (_ && _); [|discriminate].
  destruct (_ !! _); discriminate.
Qed.

(** Selecting a catalog that is not registered: the registration of a
    foreign catalog raises before it changes anything, and never with
    the [AssertionError] of the check that follows it. *)
Lemma set_current_catalog_absent (t : CatalogTracker.t) (name : string) :
  cache_ok (CatalogTracker.catalogs t) ->
  name ∉ codes (Catalogs.catalogs (CatalogTracker.catalogs t)) ->
  exists e,
    e <> AssertionError
    /\ CatalogTracker.set_current_catalog name t
       = (Raise e,
          CatalogTracker.with_catalogs t
            (registry_read (CatalogTracker.catalogs t))).
Proof.
  intros Hok Habsent.
  assert (Hkeys : bool_decide
            (name ∈ dict_keys
               (Catalogs.build_dict
                  (Catalogs.catalogs (CatalogTracker.catalogs t)))) = false).
  { apply bool_decide_eq_false_2. now rewrite dict_keys_build_dict. }
  set (t1 := CatalogTracker.with_catalogs t
               (registry_read (CatalogTracker.catalogs t))).
  assert (Hn1 : CatalogTracker.names t1
                = (Ok (first_codes
                         (codes (Catalogs.catalogs (CatalogTracker.catalogs t)))),
                   t1)).
  { unfold t1. rewrite names_cache_ok by apply registry_read_cache_ok.
    reflexivity. }
  unfold CatalogTracker.set_current_catalog.
  cbv beta iota zeta delta [st_bind].
  rewrite (tracker_dict_cache_ok _ Hok). fold t1. rewrite Hkeys.
  unfold CatalogTracker.add_foreign_catalog.
  cbv beta iota zeta delta [st_bind st_ret st_lift].
  rewrite Hn1.
  unfold t1 at 1. rewrite get_current_object_frame. fold t1.
  pose proof (get_current_object_not_assertion t) as Hna.
  destruct ((CatalogTracker.get_current_object t).1) as [o|e] eqn:Hcur.
  - unfold CatalogTracker.get_designator, py_dict_get.
    destruct (CatalogTracker.designator_tracker t1
                !! CatalogTracker.current_catalog_name t1) as [d|].
    + exists TypeError. split; [discriminate|reflexivity].
    + exists KeyError. split; [discriminate|reflexivity].
  - exists e. split; [congruence|reflexivity].
Qed.

Lemma init_designators_spec (l : list Catalog.t) (names : list string)
    (acc : gmap string CatalogDesignator.t) :
  (forall k, k ∈ names -> is_Some (dict_lookup (Catalogs.build_dict l) k)) ->
  exists m,
    CatalogTracker._init_designators names acc
      (Catalogs.mk l (Catalogs.build_dict l))
    = (Ok m, Catalogs.mk l (Catalogs.build_dict l))
    /\ forall k,
         m !! k
         = if decide (k ∈ names)
           then option_map
                  (fun cat => CatalogDesignator.init k (Catalog.max_sequence cat))
                  (dict_lookup (Catalogs.build_dict l) k)
           else acc !! k.
Proof.
  revert acc. induction names as [|c rest IH]; intros acc Hall.
  - exists acc. split; [reflexivity|]. intros k.
    rewrite decide_False by apply not_elem_of_nil. reflexivity.
  - destruct (Hall c) as [cat Hcat]; [constructor|].
    destruct (IH (<[c := CatalogDesignator.init c (Catalog.max_sequence cat)]> acc))
      as (m & Hrun & Hm).
    { intros k Hk. apply Hall. now constructor. }
    exists m. split.
    + cbn [CatalogTracker._init_designators].
      cbv beta iota zeta delta [st_bind st_lift].
      rewrite (get_dict_cache_ok (Catalogs.mk l (Catalogs.build_dict l)))
        by (right; reflexivity).
      cbn [Catalogs.catalogs]. unfold dict_getitem. rewrite Hcat. exact Hrun.
    + intros k. rewrite Hm.
      destruct (decide (k ∈ rest)) as [Hin|Hnin].
      * rewrite decide_True by (now constructor). reflexivity.
      * destruct (decide (k = c)) as [->|Hne].
        -- rewrite decide_True by constructor.
           rewrite lookup_insert_eq, Hcat. reflexivity.
        -- rewrite decide_False
             by (intros Hk; apply elem_of_cons in Hk as [?|?]; congruence).
           now rewrite lookup_insert_ne by congruence.
Qed.

Lemma init_objects_spec (names : list string) (k : string) :
  CatalogTracker._init_objects names !! k
  = if decide (k ∈ names) then Some None else None.
Proof.
  unfold CatalogTracker._init_objects.
  assert (G : forall (m : gmap string (option Z)),
             fold_left (fun m c => <[c := None]> m) names m !! k
             = if decide (k ∈ names) then Some None else m !! k).
  { induction names as [|c rest IH]; intros m; cbn [fold_left].
    - rewrite decide_False by apply not_elem_of_nil. reflexivity.
    - rewrite IH. destruct (decide (k ∈ rest)) as [Hin|Hnin].
      + rewrite decide_True by (now constructor). reflexivity.
      + destruct (decide (k = c)) as [->|Hne].
        * rewrite decide_True by constructor. now rewrite lookup_insert_eq.
        * rewrite decide_False
            by (intros Hk; apply elem_of_cons in Hk as [?|?]; congruence).
          now rewrite lookup_insert_ne by congruence. }
  rewrite G. destruct (decide _); [reflexivity|apply lookup_empty].
Qed.

(** X19. The constructor of the tracker, on a registry produced by the
    methods of the class: over an empty registry it raises [IndexError];
    otherwise the tracker starts on the first catalog of the list, with
    the catalog registered under that code as the current one, holds for
    every registered code a designator whose width comes from the
    [max_sequence] of the catalog registered under the code and no
    tracked object, and holds nothing for other codes. *)
Theorem tracker_starts_on_first_catalog
    (r : Catalogs.t) (shared_state : SharedState.t)
    (config_options : CatalogTracker.ConfigOptions) (h : Heap) :
  reachable r ->
  match Catalogs.catalogs r with
  | [] => CatalogTracker.init r shared_state config_options h = Raise IndexError
  | c :: _ =>
      exists t,
        CatalogTracker.init r shared_state config_options h = Ok t
        /\ CatalogTracker.current_catalog_name t = Catalog.catalog_code c
        /\ registered r (Catalog.catalog_code c)
           = Some (CatalogTracker.current_catalog t)
        /\ (forall k, k ∈ codes (Catalogs.catalogs r) ->
              exists cat,
                registered r k = Some cat
                /\ CatalogTracker.designator_tracker t !! k
                   = Some (CatalogDesignator.init k (Catalog.max_sequence cat))
                /\ CatalogTracker.object_tracker t !! k = Some None)
        /\ (forall k, k ∉ codes (Catalogs.catalogs r) ->
              CatalogTracker.designator_tracker t !! k = None
              /\ CatalogTracker.object_tracker t !! k = None)
        /\ CatalogTracker.catalogs t = registry_read r
        /\ CatalogTracker.heap t = h
  end.
Proof.
  intros Hreach. pose proof (reachable_cache_ok _ Hreach) as Hok.
  unfold registered.
  set (l := Catalogs.catalogs r).
  set (bd := Catalogs.build_dict l).
  assert (Hn1 : Catalogs.get_names (registry_read r)
                = (Ok (first_codes (codes l)), registry_read r)).
  { rewrite get_names_cache_ok by apply registry_read_cache_ok. reflexivity. }
  assert (Hd1 : Catalogs.get_dict (registry_read r) = (Ok bd, registry_read r)).
  { rewrite get_dict_cache_ok by apply registry_read_cache_ok. reflexivity. }
  destruct (init_designators_spec l (first_codes (codes l)) ∅)
    as (m & Hrun & Hm).
  { intros k Hk. apply dict_lookup_is_Some.
    rewrite dict_keys_build_dict. now apply elem_of_first_codes. }
  assert (Hinit :
    CatalogTracker.init r shared_state config_options h
    = (st_bind (st_lift (py_getitem (first_codes (codes l)) 0)) (fun first =>
       st_bind Catalogs.get_dict (fun d =>
       st_bind (if bool_decide (first ∈ dict_keys d) then st_ret tt
                else st_raise AttributeError) (fun _ =>
       st_bind Catalogs.get_dict (fun d =>
       st_bind (if bool_decide (first ∈ dict_keys d) then st_ret tt
                else st_raise AssertionError) (fun _ =>
       st_bind Catalogs.get_dict (fun d =>
       st_bind (st_lift (dict_getitem d first)) (fun current =>
       st_bind Catalogs.get_names (fun ns1 =>
       st_bind st_get (fun registry =>
       st_ret (CatalogTracker.mk shared_state config_options registry m
                 (CatalogTracker._init_objects ns1) current first h))))))))))
          (registry_read r)).1).
  { unfold CatalogTracker.init.
    unfold st_bind at 1. rewrite (get_names_cache_ok _ Hok). fold l.
    unfold st_bind at 1. unfold registry_read. fold l. fold bd.
    fold bd in Hrun. rewrite Hrun.
    unfold st_bind at 1.
    change (Catalogs.mk l bd) with (registry_read r). rewrite Hn1.
    reflexivity. }
  rewrite Hinit. clear Hinit.
  destruct l as [|c rest] eqn:Hl.
  - reflexivity.
  - assert (Hfirst : py_getitem (first_codes (codes (c :: rest))) 0
                     = Ok (Catalog.catalog_code c)) by reflexivity.
    assert (Hkey : Catalog.catalog_code c ∈ dict_keys bd).
    { unfold bd. rewrite dict_keys_build_dict. constructor. }
    destruct (proj1 (dict_lookup_is_Some bd _) Hkey) as [cur Hcur].
    cbv beta iota zeta delta [st_bind st_lift st_ret st_get].
    rewrite Hfirst, Hd1.
    rewrite (bool_decide_eq_true_2 _ Hkey), Hd1.
    rewrite (bool_decide_eq_true_2 _ Hkey), Hd1.
    unfold dict_getitem. rewrite Hcur, Hn1. cbn [fst].
    eexists. split; [reflexivity|].
    cbn [CatalogTracker.current_catalog_name CatalogTracker.current_catalog
         CatalogTracker.designator_tracker CatalogTracker.object_tracker
         CatalogTracker.catalogs CatalogTracker.heap].
    split; [reflexivity|]. split; [reflexivity|].
    split; [|split; [|split; reflexivity]].
    + intros k Hk.
      assert (Hk' : k ∈ first_codes (codes (c :: rest)))
        by (now apply elem_of_first_codes).
      destruct (proj1 (dict_lookup_is_Some bd k)) as [cat Hcat].
      { unfold bd. now rewrite dict_keys_build_dict. }
      exists cat. split; [exact Hcat|].
      rewrite Hm, init_objects_spec, !decide_True by exact Hk'.
      fold bd. rewrite Hcat. split; reflexivity.
    + intros k Hk.
      assert (Hk' : k ∉ first_codes (codes (c :: rest)))
        by (now rewrite elem_of_first_codes).
      rewrite Hm, init_objects_spec, !decide_False by exact Hk'.
      split; [apply lookup_empty|reflexivity].
Qed.

Lemma tracker_starts_on_first_catalog_witness :
  reachable (Catalogs.init [ngc_catalog; messier_shelf])
  /\ exists t,
       CatalogTracker.init (Catalogs.init [ngc_catalog; messier_shelf])
         complete_context (CatalogTracker.config_options survey_tracker)
         [ngc_objects; [messier_13; messier_31]] = Ok t
       /\ CatalogTracker.current_catalog_name t = "NGC".
Proof.
  assert (H : reachable (Catalogs.init [ngc_catalog; messier_shelf]))
    by constructor.
  split; [exact H|].
  destruct (tracker_starts_on_first_catalog _ complete_context
              (CatalogTracker.config_options survey_tracker)
              [ngc_objects; [messier_13; messier_31]] H)
    as (t & Ht & Hname & _).
  exists t. split; [exact Ht|exact Hname].
Defined.

Lemma py_index_of_lookup (l : list string) (i : nat) (x : string) :
  NoDup l -> l !! i = Some x -> py_index_of l x = Ok i.
Proof.
  revert i. induction l as [|y r IH]; intros i Hnd Hi; [discriminate|].
  apply NoDup_cons in Hnd as [Hy Hnd]. cbn [py_index_of].
  destruct i as [|i]; cbn in Hi.
  - injection Hi as ->. now rewrite decide_True.
  - rewrite decide_False.
    + now rewrite (IH i).
    + intros ->. apply Hy. apply list_elem_of_lookup. eauto.
Qed.

Lemma py_index_of_absent (l : list string) (x : string) :
  x ∉ l -> py_index_of l x = Raise ValueError.
Proof.
  induction l as [|y r IH]; intros Hx; [reflexivity|].
  apply not_elem_of_cons in Hx as [Hne Hx]. cbn [py_index_of].
  rewrite decide_False by congruence. now rewrite IH.
Qed.

(** A step of [next_catalog]: the state afterwards. *)
Lemma next_catalog_state (t : CatalogTracker.t) (direction : Z) (i : nat)
    (name : string) (c : Catalog.t) :
  let r := CatalogTracker.catalogs t in
  let ks := first_codes (codes (Catalogs.catalogs r)) in
  cache_ok r ->
  ks !! i = Some (CatalogTracker.current_catalog_name t) ->
  ks !! Z.to_nat ((Z.of_nat i + direction) mod Z.of_nat (length ks))
  = Some name ->
  registered r name = Some c ->
  CatalogTracker.next_catalog direction t
  = (Ok tt,
     CatalogTracker.with_current
       (CatalogTracker.with_catalogs t (registry_read r)) c name).
Proof.
  intros r ks Hok Hi Hj Hc.
  set (t1 := CatalogTracker.with_catalogs t (registry_read r)).
  assert (Hn1 : CatalogTracker.names t1 = (Ok ks, t1)).
  { unfold t1. rewrite names_cache_ok by apply registry_read_cache_ok.
    reflexivity. }
  assert (Hn : 0 < Z.of_nat (length ks)).
  { apply lookup_lt_Some in Hi. lia. }
  pose proof (Z.mod_pos_bound (Z.of_nat i + direction) _ Hn) as Hm.
  unfold CatalogTracker.next_catalog.
  cbv beta iota zeta delta [st_bind st_get st_lift].
  rewrite (names_cache_ok _ Hok). fold r. fold ks. fold t1.
  change (CatalogTracker.current_catalog_name t1)
    with (CatalogTracker.current_catalog_name t).
  rewrite (py_index_of_lookup ks i _ (NoDup_first_codes _) Hi).
  rewrite Hn1, Hn1.
  set (j := (Z.of_nat i + direction) mod Z.of_nat (length ks)) in *.
  replace j with (Z.of_nat (Z.to_nat j)) at 1 by lia.
  rewrite (py_getitem_lookup ks (Z.to_nat j) name Hj).
  rewrite (set_current_catalog_found t1 name c).
  - reflexivity.
  - apply registry_read_cache_ok.
  - exact Hc.
Qed.

(** X20. [next_catalog] on a tracker whose registry was produced by the
    methods of the class.  When the current name is the [i]-th registered
    code, the call selects the code at position [(i + direction) mod n]
    of the [n] codes and the catalog registered under it, and leaves the
    list of catalogs, the designators, the tracked objects and the store
    alone.  When the current name is not registered, the call raises
    [ValueError] and selects nothing. *)
Theorem next_catalog_cycles_through_names
    (t : CatalogTracker.t) (direction : Z) :
  let r := CatalogTracker.catalogs t in
  let ks := first_codes (codes (Catalogs.catalogs r)) in
  let res := CatalogTracker.next_catalog direction t in
  reachable r ->
  (forall i, ks !! i = Some (CatalogTracker.current_catalog_name t) ->
     exists name c,
       ks !! Z.to_nat ((Z.of_nat i + direction) mod Z.of_nat (length ks))
       = Some name
       /\ registered r name = Some c
       /\ res.1 = Ok tt
       /\ CatalogTracker.current_catalog_name res.2 = name
       /\ CatalogTracker.current_catalog res.2 = c
       /\ Catalogs.catalogs (CatalogTracker.catalogs res.2) = Catalogs.catalogs r
       /\ CatalogTracker.designator_tracker res.2
          = CatalogTracker.designator_tracker t
       /\ CatalogTracker.object_tracker res.2 = CatalogTracker.object_tracker t
       /\ CatalogTracker.heap res.2 = CatalogTracker.heap t)
  /\ (CatalogTracker.current_catalog_name t ∉ codes (Catalogs.catalogs r) ->
      res.1 = Raise ValueError
      /\ CatalogTracker.current_catalog_name res.2
         = CatalogTracker.current_catalog_name t
      /\ CatalogTracker.current_catalog res.2 = CatalogTracker.current_catalog t).
Proof.
  intros r ks res Hreach. subst res.
  pose proof (reachable_cache_ok _ Hreach) as Hok. split.
  - intros i Hi.
    assert (Hn : 0 < Z.of_nat (length ks)).
    { apply lookup_lt_Some in Hi. lia. }
    pose proof (Z.mod_pos_bound (Z.of_nat i + direction) _ Hn) as Hm.
    destruct (lookup_lt_is_Some_2 ks
                (Z.to_nat ((Z.of_nat i + direction) mod Z.of_nat (length ks))))
      as [name Hname]; [lia|].
    destruct (proj1 (registered_is_Some r name)) as [c Hc].
    { apply elem_of_first_codes, list_elem_of_lookup. eauto. }
    exists name, c.
    rewrite (next_catalog_state t direction i name c Hok Hi Hname Hc).
    repeat split; assumption.
  - intros Habsent.
    unfold CatalogTracker.next_catalog.
    cbv beta iota zeta delta [st_bind st_get st_lift].
    rewrite (names_cache_ok _ Hok).
    cbn [CatalogTracker.with_catalogs CatalogTracker.current_catalog_name].
    rewrite py_index_of_absent by (now rewrite elem_of_first_codes).
    repeat split.
Qed.

Lemma next_catalog_cycles_through_names_witness :
  reachable (CatalogTracker.catalogs survey_tracker)
  /\ (CatalogTracker.next_catalog 1 survey_tracker).1 = Ok tt
  /\ CatalogTracker.current_catalog_name
       (CatalogTracker.next_catalog 1 survey_tracker).2 = "M".
Proof.
  assert (H : reachable (CatalogTracker.catalogs survey_tracker))
    by constructor.
  split; [exact H|].
  destruct (next_catalog_cycles_through_names survey_tracker 1 H) as [Hstep _].
  destruct (Hstep 0%nat eq_refl)
    as (name & c & Hname & _ & Hres & Hcur & _).
  split; [exact Hres|]. rewrite Hcur.
  vm_compute in Hname. now injection Hname as <-.
Defined.

(** X21. On a tracker whose registry was produced by the methods of the
    class and whose current name is registered, [next_catalog] with a
    direction followed by [next_catalog] with the opposite direction
    comes back to the current name and to the catalog registered under
    it; so [previous_catalog] undoes [next_catalog]. *)
Theorem next_catalog_round_trip (t : CatalogTracker.t) (direction : Z) :
  let r := CatalogTracker.catalogs t in
  reachable r ->
  CatalogTracker.current_catalog_name t ∈ codes (Catalogs.catalogs r) ->
  exists c,
    registered r (CatalogTracker.current_catalog_name t) = Some c
    /\ CatalogTracker.next_catalog (- direction)
         (CatalogTracker.next_catalog direction t).2
       = (Ok tt,
          CatalogTracker.with_current
            (CatalogTracker.with_catalogs t (registry_read r)) c
            (CatalogTracker.current_catalog_name t))
    /\ (direction = 1 ->
        CatalogTracker.previous_catalog
          (CatalogTracker.next_catalog 1 t).2
        = (Ok tt,
           CatalogTracker.with_current
             (CatalogTracker.with_catalogs t (registry_read r)) c
             (CatalogTracker.current_catalog_name t))).
Proof.
  intros r Hreach Hin.
  pose proof (reachable_cache_ok _ Hreach) as Hok.
  set (ks := first_codes (codes (Catalogs.catalogs r))).
  assert (Hin' : CatalogTracker.current_catalog_name t ∈ ks)
    by (now apply elem_of_first_codes).
  apply list_elem_of_lookup in Hin' as [i Hi].
  assert (Hn : 0 < Z.of_nat (length ks)).
  { apply lookup_lt_Some in Hi. lia. }
  pose proof (lookup_lt_Some _ _ _ Hi) as Hlt.
  pose proof (Z.mod_pos_bound (Z.of_nat i + direction) _ Hn) as Hm.
  set (j := (Z.of_nat i + direction) mod Z.of_nat (length ks)) in *.
  destruct (lookup_lt_is_Some_2 ks (Z.to_nat j)) as [name Hname]; [lia|].
  destruct (proj1 (registered_is_Some r name)) as [c' Hc'].
  { apply elem_of_first_codes, list_elem_of_lookup. eauto. }
  destruct (proj1 (registered_is_Some r (CatalogTracker.current_catalog_name t)))
    as [c Hc]; [exact Hin|].
  assert (Hback :
    CatalogTracker.next_catalog (- direction)
      (CatalogTracker.next_catalog direction t).2
    = (Ok tt,
       CatalogTracker.with_current
         (CatalogTracker.with_catalogs t (registry_read r)) c
         (CatalogTracker.current_catalog_name t))).
  { rewrite (next_catalog_state t direction i name c' Hok Hi Hname Hc').
    cbn [snd]. fold r.
    set (t' := CatalogTracker.with_current
                 (CatalogTracker.with_catalogs t (registry_read r)) c' name).
    rewrite (next_catalog_state t' (- direction) (Z.to_nat j)
               (CatalogTracker.current_catalog_name t) c).
    - reflexivity.
    - apply registry_read_cache_ok.
    - exact Hname.
    - change (first_codes (codes (Catalogs.catalogs (CatalogTracker.catalogs t'))))
        with ks.
      replace (Z.to_nat ((Z.of_nat (Z.to_nat j) + - direction)
                         mod Z.of_nat (length ks))) with i; [exact Hi|].
      rewrite Z2Nat.id by lia. unfold j.
      rewrite Z.add_opp_r, Zminus_mod_idemp_l.
      replace (Z.of_nat i + direction - direction) with (Z.of_nat i) by lia.
      rewrite Z.mod_small by lia. lia.
    - exact Hc. }
  exists c. split; [exact Hc|]. split; [exact Hback|].
  intros ->. exact Hback.
Qed.

Lemma next_catalog_round_trip_witness :
  reachable (CatalogTracker.catalogs survey_tracker)
  /\ CatalogTracker.current_catalog_name survey_tracker
     ∈ codes (Catalogs.catalogs (CatalogTracker.catalogs survey_tracker))
  /\ CatalogTracker.current_catalog_name
       (CatalogTracker.previous_catalog
          (CatalogTracker.next_catalog 1 survey_tracker).2).2 = "NGC".
Proof.
  assert (H : reachable (CatalogTracker.catalogs survey_tracker))
    by constructor.
  assert (Hin : CatalogTracker.current_catalog_name survey_tracker
                ∈ codes (Catalogs.catalogs
                           (CatalogTracker.catalogs survey_tracker)))
    by constructor.
  split; [exact H|]. split; [exact Hin|].
  destruct (next_catalog_round_trip survey_tracker 1 H Hin)
    as (c & _ & _ & Hprev).
  rewrite (Hprev eq_refl). reflexivity.
Defined.

(** ** CatalogTracker: setting the current object *)

(** X22. [set_current_object] with a catalog name, on a tracker whose
    registry was produced by the methods of the class.  For a registered
    code with a designator the call selects the catalog, stores the
    object number under the code and shows it in the designator of the
    code (0 for none), leaving the entries of the other codes alone.  For
    a code registered without a designator, as after a later
    [Catalogs.add], the call raises [KeyError] once the catalog is
    selected and the number stored.  For a code that is not registered
    the call raises, never through the handler of [AssertionError], and
    the selection, the tracked objects and the designators stay as they
    were. *)
Theorem set_current_object_in_named_catalog
    (t : CatalogTracker.t) (n : option Z) (name : string) :
  let r := CatalogTracker.catalogs t in
  let res := CatalogTracker.set_current_object n (Some name) t in
  reachable r ->
  (forall c, registered r name = Some c ->
     CatalogTracker.current_catalog_name res.2 = name
     /\ CatalogTracker.current_catalog res.2 = c
     /\ CatalogTracker.object_tracker res.2
        = <[name := n]> (CatalogTracker.object_tracker t)
     /\ match CatalogTracker.designator_tracker t !! name with
        | Some d =>
            res.1 = Ok tt
            /\ CatalogTracker.designator_tracker res.2
               = <[name := CatalogDesignator.set_number d (default 0 n)]>
                   (CatalogTracker.designator_tracker t)
        | None =>
            res.1 = Raise KeyError
            /\ CatalogTracker.designator_tracker res.2
               = CatalogTracker.designator_tracker t
        end)
  /\ (name ∉ codes (Catalogs.catalogs r) ->
      (exists e, res.1 = Raise e /\ e <> AssertionError)
      /\ CatalogTracker.current_catalog_name res.2
         = CatalogTracker.current_catalog_name t
      /\ CatalogTracker.current_catalog res.2 = CatalogTracker.current_catalog t
      /\ CatalogTracker.object_tracker res.2 = CatalogTracker.object_tracker t
      /\ CatalogTracker.designator_tracker res.2
         = CatalogTracker.designator_tracker t).
Proof.
  intros r res Hreach. subst res.
  pose proof (reachable_cache_ok _ Hreach) as Hok. split.
  - intros c Hc.
    unfold CatalogTracker.set_current_object.
    rewrite (set_current_catalog_found t name c Hok Hc).
    cbv beta iota zeta delta [st_bind st_modify
      CatalogTracker.designator_set_number].
    cbn [CatalogTracker.with_objects CatalogTracker.with_current
         CatalogTracker.with_catalogs CatalogTracker.designator_tracker
         CatalogTracker.object_tracker].
    destruct (CatalogTracker.designator_tracker t !! name) as [d|].
    + destruct n as [k|]; cbn [default]; [|repeat split].
      destruct (Z.eqb_spec k 0); subst; repeat split.
    + repeat split.
  - intros Habsent.
    destruct (set_current_catalog_absent t name Hok Habsent) as (e & He & Hrun).
    unfold CatalogTracker.set_current_object. rewrite Hrun.
    destruct e; try contradiction; (split; [eexists; split; [reflexivity|exact He]|]);
      repeat split.
Qed.

Lemma set_current_object_in_named_catalog_witness :
  reachable (CatalogTracker.catalogs survey_tracker)
  /\ (CatalogTracker.set_current_object (Some 31) (Some "M") survey_tracker).1
     = Ok tt
  /\ CatalogTracker.object_tracker
       (CatalogTracker.set_current_object (Some 31) (Some "M") survey_tracker).2
     = <["M" := Some 31]> (CatalogTracker.object_tracker survey_tracker).
Proof.
  assert (H : reachable (CatalogTracker.catalogs survey_tracker))
    by constructor.
  split; [exact H|].
  destruct (set_current_object_in_named_catalog survey_tracker (Some 31) "M" H)
    as [Hfound _].
  destruct (Hfound messier_shelf eq_refl) as (_ & _ & Hobj & Hd).
  split; [exact (proj1 Hd)|exact Hobj].
Defined.

(** X23. In the current catalog, whose sequence index is that of its
    objects: after [set_current_object] with a number,
    [get_current_object] returns an object of the catalog with that
    sequence when there is one and raises [KeyError] when there is none,
    the number staying tracked and shown; after [set_current_object]
    with no number it returns none and the designator shows 0. *)
Theorem tracked_object_is_read_back
    (t : CatalogTracker.t) (filtered : bool) (n : option Z) :
  tracker_ready t filtered ->
  let res := st_bind (CatalogTracker.set_current_object n None)
               (fun _ => CatalogTracker.get_current_object) t in
  tracked_key res.2 = Some n
  /\ designator_number res.2 = Some (default 0 n)
  /\ match n with
     | None => res.1 = Ok None
     | Some k =>
         (k ∈ map CompositeObject.sequence (catalog_objects t) ->
          exists o, res.1 = Ok (Some o)
                    /\ CompositeObject.sequence o = k
                    /\ o ∈ catalog_objects t)
         /\ (k ∉ map CompositeObject.sequence (catalog_objects t) ->
             res.1 = Raise KeyError)
     end.
Proof.
  intros (Hd & Hidx & _) res.
  destruct (store_and_read_back t n Hd) as (Htk & Hdn & Hres).
  fold res in Htk, Hdn, Hres.
  split; [exact Htk|]. split; [exact Hdn|].
  destruct n as [k|]; [|exact Hres].
  rewrite Hres.
  unfold Catalog.get_object_by_sequence, CatalogBase.get_object_by_sequence.
  rewrite Hidx.
  destruct (indexed_lookup CompositeObject.sequence (catalog_objects t) k)
    as [Hmiss Hhit].
  change (CatalogBase.contents
            (Catalog.base (CatalogTracker.current_catalog t))
            (CatalogTracker.heap t))
    with (catalog_objects t).
  split.
  - intros Hin. destruct (Hhit Hin) as (o & Ho & Hseq & Hmem).
    exists o. rewrite Ho. auto.
  - intros Hnin. now rewrite (Hmiss Hnin).
Qed.

Lemma tracked_object_is_read_back_witness :
  tracker_ready (ngc_tracker None) true
  /\ (st_bind (CatalogTracker.set_current_object (Some 13) None)
        (fun _ => CatalogTracker.get_current_object) (ngc_tracker None)).1
     = Raise KeyError.
Proof.
  pose proof (ngc_tracker_ready None true) as H.
  split; [exact H|].
  destruct (tracked_object_is_read_back (ngc_tracker None) true (Some 13) H)
    as (_ & _ & _ & Hmiss).
  apply Hmiss. apply (bool_decide_unpack _). vm_compute. exact I.
Defined.

(** ** CatalogTracker: walking through the active list *)

(** A step from a tracked object of the active list: what it returns and
    what it keeps. *)
Lemma next_object_outcome (t : CatalogTracker.t) (filtered : bool)
    (direction : Z) (k : Z) (pre post : list Z) :
  tracker_ready t filtered ->
  tracked_key t = Some (Some k) ->
  active_ids t filtered = pre ++ k :: post ->
  k ∉ pre ->
  let res := CatalogTracker.next_object direction filtered t in
  let target := Z.of_nat (length pre) + direction in
  let n := Z.of_nat (length (pre ++ k :: post)) in
  tracker_ready res.2 filtered
  /\ active_ids res.2 filtered = active_ids t filtered
  /\ if (target =? -1) || (n <=? target)
     then cleared res
     else exists key,
            (pre ++ k :: post) !! Z.to_nat (target mod n) = Some key
            /\ lands_on t res key.
Proof.
  intros Hready Hck Hids Hk res target n. subst res.
  pose proof Hready as ([d Hd] & Hidx & Hsub).
  assert (Hin : k ∈ active_ids t filtered).
  { rewrite Hids, elem_of_app, elem_of_cons. tauto. }
  assert (Hi : py_list_index (active_ids t filtered) k = Ok (length pre)).
  { rewrite Hids. now apply py_list_index_middle. }
  assert (Hn : 0 < n).
  { unfold n. rewrite length_app. cbn [length]. lia. }
  destruct ((target =? -1) || (n <=? target)) eqn:Hend.
  - assert (Hend' : (Z.of_nat (length pre) + direction =? -1)
                    || (Z.of_nat (length (active_ids t filtered))
                        <=? Z.of_nat (length pre) + direction) = true)
      by (rewrite Hids; exact Hend).
    pose proof (off_end_cleared t direction filtered k (length pre)
                  Hready Hck Hin Hi Hend') as Hcl.
    rewrite (next_object_off_end t direction filtered k d (length pre)
               Hck Hd Hin Hi Hend') in *.
    destruct (stored_state_frame t _ None
                (<[CatalogTracker.current_catalog_name t :=
                     CatalogDesignator.set_number d 0]>
                   (CatalogTracker.designator_tracker t)) filtered eq_refl)
      as (Hr & Ha & _); [rewrite lookup_insert_eq; eauto|exact Hready|].
    auto.
  - pose proof (Z.mod_pos_bound target n Hn) as Hm.
    destruct (lookup_lt_is_Some_2 (pre ++ k :: post) (Z.to_nat (target mod n)))
      as [key Hkey].
    { pose proof (eq_refl : n = Z.of_nat (length (pre ++ k :: post))). lia. }
    assert (Hget : py_getitem (active_ids t filtered)
                     ((Z.of_nat (length pre) + direction)
                      mod Z.of_nat (length (active_ids t filtered))) = Ok key).
    { rewrite Hids. fold n. fold target.
      replace (target mod n) with (Z.of_nat (Z.to_nat (target mod n))) by lia.
      now apply py_getitem_lookup. }
    assert (Hend' : (Z.of_nat (length pre) + direction =? -1)
                    || (Z.of_nat (length (active_ids t filtered))
                        <=? Z.of_nat (length pre) + direction) = false)
      by (rewrite Hids; exact Hend).
    rewrite (next_object_step t direction filtered k d (length pre) key
               Hck Hd Hin Hi Hend' Hget).
    destruct (stored_state_frame t _ (Some key)
                (<[CatalogTracker.current_catalog_name t :=
                     CatalogDesignator.set_number d key]>
                   (CatalogTracker.designator_tracker t)) filtered eq_refl)
      as (Hr & Ha & _); [rewrite lookup_insert_eq; eauto|exact Hready|].
    split; [exact Hr|]. split; [exact Ha|].
    exists key. split; [exact Hkey|].
    apply (lands_after_store t _ key _ filtered eq_refl).
    + rewrite lookup_insert_eq. eauto.
    + exact Hready.
    + rewrite Hids. apply list_elem_of_lookup. eauto.
Qed.

(** The first step of a walk: from no tracked object to the first or the
    last object of the active list. *)
Lemma next_object_entry (t : CatalogTracker.t) (filtered : bool)
    (direction : Z) (key : Z) :
  tracker_ready t filtered ->
  tracked_key t = Some None ->
  py_getitem (active_ids t filtered)
    (if direction =? 1 then 0
     else Z.of_nat (length (active_ids t filtered)) - 1) = Ok key ->
  key ∈ active_ids t filtered ->
  let res := CatalogTracker.next_object direction filtered t in
  tracker_ready res.2 filtered
  /\ active_ids res.2 filtered = active_ids t filtered
  /\ lands_on t res key.
Proof.
  intros Hready Hck Hget Hkey res. subst res.
  pose proof Hready as ([d Hd] & _).
  pose proof (jump_lands t direction filtered None key Hready Hck
                (or_introl eq_refl) Hkey Hget) as Hland.
  rewrite (next_object_jump t direction filtered None d key Hck Hd
             (or_introl eq_refl) Hget) in *.
  destruct (stored_state_frame t _ (Some key)
              (<[CatalogTracker.current_catalog_name t :=
                   CatalogDesignator.set_number d key]>
                 (CatalogTracker.designator_tracker t)) filtered eq_refl)
    as (Hr & Ha & _); [rewrite lookup_insert_eq; eauto|exact Hready|].
  auto.
Qed.

Lemma lands_on_returned (t : CatalogTracker.t)
    (res : Exc (option CompositeObject.t) * CatalogTracker.t) (k : Z) :
  lands_on t res k ->
  returned_sequence res.1 k /\ tracked_key res.2 = Some (Some k).
Proof.
  intros (o & Hres & Hseq & _ & _ & Htk & _).
  split; [exists o; auto|exact Htk].
Qed.

(** Walking forward from the tracked object [k]: the rest of the list,
    then none. *)
Lemma walk_forward_from (post : list Z) :
  forall (t : CatalogTracker.t) (filtered : bool) (k : Z) (pre : list Z),
    tracker_ready t filtered ->
    tracked_key t = Some (Some k) ->
    active_ids t filtered = pre ++ k :: post ->
    NoDup (pre ++ k :: post) ->
    exists rs,
      walk 1 filtered (S (length post)) t = rs ++ [Ok None]
      /\ Forall2 returned_sequence rs post.
Proof.
  induction post as [|nxt post IH]; intros t filtered k pre Hready Hck Hids Hnd.
  - assert (Hk : k ∉ pre).
    { apply NoDup_app in Hnd as (_ & Hd & _). intros Hin.
      apply (Hd k Hin). constructor. }
    destruct (next_object_outcome t filtered 1 k pre [] Hready Hck Hids Hk)
      as (_ & _ & Hout).
    rewrite length_app in Hout. cbn [length] in Hout.
    replace ((Z.of_nat (length pre) + 1 =? -1)
             || (Z.of_nat (length pre + 1) <=? Z.of_nat (length pre) + 1))
      with true in Hout
      by (symmetry; apply orb_true_intro; right; apply Z.leb_le; lia).
    destruct Hout as (Hres & _).
    exists []. split; [|constructor].
    cbn [walk length app]. now rewrite Hres.
  - assert (Hk : k ∉ pre).
    { apply NoDup_app in Hnd as (_ & Hd & _). intros Hin.
      apply (Hd k Hin). constructor. }
    destruct (next_object_outcome t filtered 1 k pre (nxt :: post)
                Hready Hck Hids Hk) as (Hr & Ha & Hout).
    rewrite length_app in Hout. cbn [length] in Hout.
    replace ((Z.of_nat (length pre) + 1 =? -1)
             || (Z.of_nat (length pre + S (S (length post)))
                 <=? Z.of_nat (length pre) + 1))
      with false in Hout
      by (symmetry; apply orb_false_intro;
          [apply Z.eqb_neq|apply Z.leb_gt]; lia).
    destruct Hout as (key & Hkey & Hland).
    rewrite Z.mod_small in Hkey by lia.
    replace (Z.to_nat (Z.of_nat (length pre) + 1)) with (length pre + 1)%nat
      in Hkey by lia.
    rewrite lookup_app_r in Hkey by lia.
    replace (length pre + 1 - length pre)%nat with 1%nat in Hkey by lia.
    cbn in Hkey. injection Hkey as <-.
    apply lands_on_returned in Hland as [Hret Htk].
    destruct (IH (CatalogTracker.next_object 1 filtered t).2 filtered nxt
                (pre ++ [k]) Hr Htk) as (rs & Hwalk & Hall).
    { rewrite Ha, Hids, <- app_assoc. reflexivity. }
    { rewrite <- app_assoc. exact Hnd. }
    exists ((CatalogTracker.next_object 1 filtered t).1 :: rs). split.
    + change (walk 1 filtered (S (length (nxt :: post))) t)
        with ((CatalogTracker.next_object 1 filtered t).1
              :: walk 1 filtered (S (length post))
                   (CatalogTracker.next_object 1 filtered t).2).
      now rewrite Hwalk.
    + constructor; assumption.
Qed.

(** X24. From a tracker with no tracked object, over an active list
    without repeated sequences, calling [next_object] once more than
    there are objects returns an object for each sequence of the list,
    in the order of the list, and then none. *)
Theorem forward_walk_visits_the_list_in_order
    (t : CatalogTracker.t) (filtered : bool) :
  tracker_ready t filtered ->
  tracked_key t = Some None ->
  NoDup (active_ids t filtered) ->
  active_ids t filtered <> [] ->
  exists rs,
    walk 1 filtered (S (length (active_ids t filtered))) t = rs ++ [Ok None]
    /\ Forall2 returned_sequence rs (active_ids t filtered).
Proof.
  intros Hready Hck Hnd Hne.
  destruct (active_ids t filtered) as [|first rest] eqn:Hids; [congruence|].
  destruct (next_object_entry t filtered 1 first Hready Hck)
    as (Hr & Ha & Hland).
  { rewrite Hids. reflexivity. }
  { rewrite Hids. constructor. }
  apply lands_on_returned in Hland as [Hret Htk].
  destruct (walk_forward_from rest (CatalogTracker.next_object 1 filtered t).2
              filtered first [] Hr Htk) as (rs & Hwalk & Hall).
  { rewrite Ha, Hids. reflexivity. }
  { exact Hnd. }
  exists ((CatalogTracker.next_object 1 filtered t).1 :: rs). split.
  - change (walk 1 filtered (S (length (first :: rest))) t)
      with ((CatalogTracker.next_object 1 filtered t).1
            :: walk 1 filtered (S (length rest))
                 (CatalogTracker.next_object 1 filtered t).2).
    now rewrite Hwalk.
  - constructor; assumption.
Qed.

Lemma forward_walk_visits_the_list_in_order_witness :
  tracker_ready (ngc_tracker None) true
  /\ tracked_key (ngc_tracker None) = Some None
  /\ NoDup (active_ids (ngc_tracker None) true)
  /\ active_ids (ngc_tracker None) true <> []
  /\ exists rs,
       walk 1 true 4 (ngc_tracker None) = rs ++ [Ok None]
       /\ Forall2 returned_sequence rs [5; 12; 47].
Proof.
  pose proof (ngc_tracker_ready None true) as H1.
  assert (H2 : tracked_key (ngc_tracker None) = Some None)
    by apply lookup_singleton_eq.
  assert (H3 : NoDup (active_ids (ngc_tracker None) true)).
  { apply (bool_decide_unpack _). vm_compute. exact I. }
  assert (H4 : active_ids (ngc_tracker None) true <> []) by discriminate.
  repeat (split; [assumption|]).
  exact (forward_walk_visits_the_list_in_order (ngc_tracker None) true
           H1 H2 H3 H4).
Defined.

(** Walking backward from the tracked object [k]: the objects before it,
    last first, then none. *)
Lemma walk_backward_from (pre : list Z) :
  forall (t : CatalogTracker.t) (filtered : bool) (k : Z) (post : list Z),
    tracker_ready t filtered ->
    tracked_key t = Some (Some k) ->
    active_ids t filtered = pre ++ k :: post ->
    NoDup (pre ++ k :: post) ->
    exists rs,
      walk (-1) filtered (S (length pre)) t = rs ++ [Ok None]
      /\ Forall2 returned_sequence rs (reverse pre).
Proof.
  induction pre as [|prv pre IH] using rev_ind;
    intros t filtered k post Hready Hck Hids Hnd.
  - destruct (next_object_outcome t filtered (-1) k [] post Hready Hck Hids)
      as (_ & _ & Hout); [apply not_elem_of_nil|].
    match type of Hout with
    | if ?c then _ else _ => replace c with true in Hout by reflexivity
    end.
    destruct Hout as (Hres & _).
    exists []. split; [|constructor].
    cbn [walk length app]. now rewrite Hres.
  - assert (Hk : k ∉ pre ++ [prv]).
    { apply NoDup_app in Hnd as (_ & Hd & _). intros Hin.
      apply (Hd k Hin). constructor. }
    destruct (next_object_outcome t filtered (-1) k (pre ++ [prv]) post
                Hready Hck Hids Hk) as (Hr & Ha & Hout).
    rewrite !length_app in Hout. cbn [length] in Hout.
    replace ((Z.of_nat (length pre + 1) + -1 =? -1)
             || (Z.of_nat (length pre + 1 + S (length post))
                 <=? Z.of_nat (length pre + 1) + -1))
      with false in Hout
      by (symmetry; apply orb_false_intro;
          [apply Z.eqb_neq|apply Z.leb_gt]; lia).
    destruct Hout as (key & Hkey & Hland).
    rewrite Z.mod_small in Hkey by lia.
    replace (Z.to_nat (Z.of_nat (length pre + 1) + -1)) with (length pre)
      in Hkey by lia.
    rewrite <- app_assoc in Hkey.
    rewrite lookup_app_r in Hkey by lia.
    replace (length pre - length pre)%nat with 0%nat in Hkey by lia.
    cbn in Hkey. injection Hkey as <-.
    apply lands_on_returned in Hland as [Hret Htk].
    destruct (IH (CatalogTracker.next_object (-1) filtered t).2 filtered prv
                (k :: post) Hr Htk) as (rs & Hwalk & Hall).
    { rewrite Ha, Hids, <- app_assoc. reflexivity. }
    { rewrite <- app_assoc in Hnd. exact Hnd. }
    exists ((CatalogTracker.next_object (-1) filtered t).1 :: rs). split.
    + rewrite length_app. cbn [length].
      replace (S (length pre + 1)) with (S (S (length pre))) by lia.
      change (walk (-1) filtered (S (S (length pre))) t)
        with ((CatalogTracker.next_object (-1) filtered t).1
              :: walk (-1) filtered (S (length pre))
                   (CatalogTracker.next_object (-1) filtered t).2).
      now rewrite Hwalk.
    + rewrite reverse_snoc. constructor; assumption.
Qed.

(** X25. From a tracker with no tracked object, over an active list
    without repeated sequences, calling [next_object] with direction -1
    once more than there are objects returns an object for each sequence
    of the list, last first, and then none. *)
Theorem backward_walk_visits_the_list_in_reverse
    (t : CatalogTracker.t) (filtered : bool) :
  tracker_ready t filtered ->
  tracked_key t = Some None ->
  NoDup (active_ids t filtered) ->
  active_ids t filtered <> [] ->
  exists rs,
    walk (-1) filtered (S (length (active_ids t filtered))) t
    = rs ++ [Ok None]
    /\ Forall2 returned_sequence rs (reverse (active_ids t filtered)).
Proof.
  intros Hready Hck Hnd Hne.
  destruct (active_ids t filtered) as [|lst rest _] eqn:Hids using rev_ind;
    [congruence|].
  destruct (next_object_entry t filtered (-1) lst Hready Hck)
    as (Hr & Ha & Hland).
  { rewrite Hids. change (-1 =? 1) with false. cbv iota.
    replace (Z.of_nat (length (rest ++ [lst])) - 1)
      with (Z.of_nat (length rest))
      by (rewrite length_app; cbn [length]; lia).
    apply py_getitem_lookup. rewrite lookup_app_r by lia.
    now replace (length rest - length rest)%nat with 0%nat by lia. }
  { rewrite Hids, elem_of_app, list_elem_of_singleton. tauto. }
  apply lands_on_returned in Hland as [Hret Htk].
  destruct (walk_backward_from rest
              (CatalogTracker.next_object (-1) filtered t).2
              filtered lst [] Hr Htk) as (rs & Hwalk & Hall).
  { rewrite Ha, Hids. reflexivity. }
  { exact Hnd. }
  exists ((CatalogTracker.next_object (-1) filtered t).1 :: rs). split.
  - rewrite length_app. cbn [length].
    replace (S (length rest + 1)) with (S (S (length rest))) by lia.
    change (walk (-1) filtered (S (S (length rest))) t)
      with ((CatalogTracker.next_object (-1) filtered t).1
            :: walk (-1) filtered (S (length rest))
                 (CatalogTracker.next_object (-1) filtered t).2).
    now rewrite Hwalk.
  - rewrite reverse_snoc. constructor; assumption.
Qed.

Lemma backward_walk_visits_the_list_in_reverse_witness :
  tracker_ready (ngc_tracker None) true
  /\ tracked_key (ngc_tracker None) = Some None
  /\ NoDup (active_ids (ngc_tracker None) true)
  /\ active_ids (ngc_tracker None) true <> []
  /\ exists rs,
       walk (-1) true 4 (ngc_tracker None) = rs ++ [Ok None]
       /\ Forall2 returned_sequence rs [47; 12; 5].
Proof.
  pose proof (ngc_tracker_ready None true) as H1.
  assert (H2 : tracked_key (ngc_tracker None) = Some None)
    by apply lookup_singleton_eq.
  assert (H3 : NoDup (active_ids (ngc_tracker None) true)).
  { apply (bool_decide_unpack _). vm_compute. exact I. }
  assert (H4 : active_ids (ngc_tracker None) true <> []) by discriminate.
  repeat (split; [assumption|]).
  exact (backward_walk_visits_the_list_in_reverse (ngc_tracker None) true
           H1 H2 H3 H4).
Defined.

(** ** CatalogTracker: deduplication of lists without duplicates *)

Lemma deduplicate_result (l : list CompositeObject.t) :
  exists out,
    CatalogTracker._deduplicate l = Ok out
    /\ map CompositeObject.object_id out
       = first_occurrences (map CompositeObject.object_id l)
    /\ forall i e, out !! i = Some e ->
         representative (CompositeObject.object_id e) l = Some e.
Proof.
  destruct (dedup_loop_state l [] ([], ∅)) as ([out seen] & Hloop & _ & Hids & Hrep).
  { split; [|split].
    - intros k. cbn. rewrite elem_of_empty, elem_of_nil. tauto.
    - reflexivity.
    - intros i e He. discriminate. }
  cbn [app fst snd] in *.
  exists out. unfold CatalogTracker._deduplicate. rewrite Hloop.
  cbn [exc_bind fst]. auto.
Qed.

Lemma first_occurrences_NoDup (ids : list Z) :
  NoDup ids -> first_occurrences ids = ids.
Proof.
  induction ids as [|k r IH]; intros Hnd; [reflexivity|].
  apply NoDup_cons in Hnd as [Hk Hnd]. cbn [first_occurrences].
  rewrite IH by exact Hnd. f_equal.
  clear IH Hnd. induction r as [|y r IH]; [reflexivity|].
  apply not_elem_of_cons in Hk as [Hne Hk].
  rewrite filter_cons_True by congruence. now rewrite IH.
Qed.

Lemma fold_prefer_in (r : list CompositeObject.t) (o : CompositeObject.t) :
  fold_left prefer r o ∈ o :: r.
Proof.
  revert o. induction r as [|x r IH]; intros o; cbn [fold_left];
    [constructor|].
  specialize (IH (prefer o x)). apply elem_of_cons in IH as [IH|IH].
  - rewrite IH. unfold prefer. destruct (bool_decide _);
      [apply list_elem_of_further|]; constructor.
  - now do 2 apply list_elem_of_further.
Qed.

Lemma representative_in (k : Z) (l : list CompositeObject.t)
    (e : CompositeObject.t) :
  representative k l = Some e -> e ∈ l.
Proof.
  unfold representative.
  destruct (filter _ l) as [|o r] eqn:Hf; [discriminate|].
  intros [= <-].
  assert (Hin : fold_left prefer r o ∈ filter
                  (fun o => CompositeObject.object_id o = k) l)
    by (rewrite Hf; apply fold_prefer_in).
  now apply list_elem_of_filter in Hin as [_ Hin].
Qed.

Lemma filter_unique_key (l : list CompositeObject.t) (i : nat)
    (y : CompositeObject.t) :
  NoDup (map CompositeObject.object_id l) ->
  l !! i = Some y ->
  filter (fun o => CompositeObject.object_id o = CompositeObject.object_id y) l
  = [y].
Proof.
  revert i. induction l as [|x l IH]; intros i Hnd Hi; [discriminate|].
  cbn [map] in Hnd. apply NoDup_cons in Hnd as [Hx Hnd].
  destruct i as [|i]; cbn in Hi.
  - injection Hi as ->. rewrite filter_cons_True by reflexivity. f_equal.
    clear IH Hnd. induction l as [|z l IH]; [reflexivity|].
    cbn [map] in Hx. apply not_elem_of_cons in Hx as [Hne Hx].
    rewrite filter_cons_False by congruence. now apply IH.
  - rewrite filter_cons_False; [now apply (IH i)|].
    intros E. apply Hx. rewrite E.
    change (map CompositeObject.object_id l)
      with (CompositeObject.object_id <$> l).
    apply list_elem_of_fmap_2, list_elem_of_lookup. eauto.
Qed.

Lemma deduplicate_distinct (l : list CompositeObject.t) :
  NoDup (map CompositeObject.object_id l) ->
  CatalogTracker._deduplicate l = Ok l.
Proof.
  intros Hnd. destruct (deduplicate_result l) as (out & Hrun & Hids & Hrep).
  rewrite Hrun. f_equal.
  rewrite first_occurrences_NoDup in Hids by exact Hnd.
  apply list_eq. intros i.
  destruct (out !! i) as [e|] eqn:He.
  - assert (Hi : map CompositeObject.object_id l !! i
                 = Some (CompositeObject.object_id e)).
    { rewrite <- Hids.
      change (map CompositeObject.object_id out)
        with (CompositeObject.object_id <$> out).
      now rewrite list_lookup_fmap, He. }
    change (map CompositeObject.object_id l)
      with (CompositeObject.object_id <$> l) in Hi.
    rewrite list_lookup_fmap in Hi.
    destruct (l !! i) as [y|] eqn:Hy; [|discriminate].
    cbn in Hi. injection Hi as Hid.
    specialize (Hrep i e He). unfold representative in Hrep.
    rewrite <- Hid, (filter_unique_key l i y Hnd Hy) in Hrep.
    cbn [fold_left] in Hrep. now rewrite Hrep.
  - assert (Hlen : length out = length l).
    { rewrite <- (length_map CompositeObject.object_id out), Hids.
      apply length_map. }
    apply lookup_ge_None in He. symmetry. apply lookup_ge_None. lia.
Qed.

(** X26. [_deduplicate] returns a list without duplicate ids unchanged;
    in general its result holds entries of its argument only, is not
    longer than the argument, and is returned unchanged when it is
    deduplicated again. *)
Theorem deduplicate_is_idempotent (l : list CompositeObject.t) :
  (NoDup (map CompositeObject.object_id l) ->
   CatalogTracker._deduplicate l = Ok l)
  /\ exists out,
       CatalogTracker._deduplicate l = Ok out
       /\ CatalogTracker._deduplicate out = Ok out
       /\ (length out <= length l)%nat
       /\ forall e, e ∈ out -> e ∈ l.
Proof.
  split; [apply deduplicate_distinct|].
  destruct (deduplicate_result l) as (out & Hrun & Hids & Hrep).
  exists out. split; [exact Hrun|]. split; [|split].
  - apply deduplicate_distinct. rewrite Hids. apply NoDup_first_occurrences.
  - rewrite <- (length_map CompositeObject.object_id out), Hids,
      <- (length_map CompositeObject.object_id l).
    apply sublist_length, first_occurrences_sublist.
  - intros e He. apply list_elem_of_lookup in He as [i Hi].
    exact (representative_in _ l e (Hrep i e Hi)).
Qed.
